(** * uh-engine-app: blueprint compiler and staged deployment orchestrator

    A shallow embedding of
      - [core/sql_render.py]        (binding normalizer, validator, statement compiler),
      - [core/deployment_logs.py]   (audit recorder),
      - [core/config_loader.py]     (normalization of column data types),
      - [api/routes/blueprints.py]  (streamed single-blueprint deployment, blueprint
                                     deployment endpoint, blueprint list, full refresh
                                     of a table),
      - [api/routes/utilities.py]   (deployment summary, staged model deployment),
    together with the properties of the specification that concern them and
    further properties of the code.

    Conventions of the embedding.
      - Python [str] is [string]; texts are ASCII, so [upper], [lower] and
        [strip] act on ASCII letters and ASCII white space only.
      - A dictionary entry is a [field]: the key can be absent ([Missing]),
        hold [None] ([Null]) or hold a value ([Val]).  List-valued keys hold
        lists (an absent key is the empty list).
      - Exceptions are values of [exn]; [str(e)] is [exn_msg].
      - Generators are computations in a state / exception / writer monad: the
        events yielded so far and the state reached survive a raised exception.
      - The warehouse, the configuration store and the template engine are
        collected in a [World]; every answer may depend on the log of all
        calls made before.
      - Time stamps and calls to the logging module are left out.
      - The configuration reads of [SQLRenderer.__init__] (blueprint lookup
        and metadata) are one call [CLookup] of the log.
      - The view generators of [api/routes/dimensional_models.py] compile no
        blueprint; they are driven through the [World] as a script of the
        events they yield and the calls they make.
      - [send_event] is represented by the pair of the event type and its
        data, which determines the text sent to the client.
      - Messages that carry tree-drawing or warning glyphs are written with
        ASCII in their place; no property below reads those messages.
      - The synchronous [_deploy_single_blueprint] of
        [api/routes/blueprints.py] has no caller in these sources and has no
        counterpart here.
      - An endpoint that is not a stream returns an [answer]: its response, or
        the [HTTPException] it raises.
      - Where the blueprint deployment endpoint records its run, the JSON text
        of the record ([_to_json_param]) is a parameter. *)

From Stdlib Require Import String Ascii List Bool Arith Lia DecimalString.
Import ListNotations.
Local Open Scope list_scope.
Local Open Scope string_scope.

(** ** Python strings *)

Module PyStr.

Definition is_lower (c : ascii) : bool :=
  ((97 <=? nat_of_ascii c) && (nat_of_ascii c <=? 122))%nat.

Definition is_upper (c : ascii) : bool :=
  ((65 <=? nat_of_ascii c) && (nat_of_ascii c <=? 90))%nat.

Definition upper_char (c : ascii) : ascii :=
  if is_lower c then ascii_of_nat (nat_of_ascii c - 32) else c.

Definition lower_char (c : ascii) : ascii :=
  if is_upper c then ascii_of_nat (nat_of_ascii c + 32) else c.

Fixpoint map_chars (f : ascii -> ascii) (s : string) : string :=
  match s with
  | EmptyString => EmptyString
  | String c s' => String (f c) (map_chars f s')
  end.

(** [s.upper()] and [s.lower()] *)
Definition upper : string -> string := map_chars upper_char.
Definition lower : string -> string := map_chars lower_char.

(** [s.replace(" ", "_")] *)
Definition space_to_underscore (c : ascii) : ascii :=
  if Ascii.eqb c " "%char then "_"%char else c.

Definition replace_spaces : string -> string := map_chars space_to_underscore.

(** [sep.join(l)] *)
Definition join (sep : string) (l : list string) : string := String.concat sep l.

(** White space in the sense of [str.isspace], ASCII part. *)
Definition is_space (c : ascii) : bool :=
  let n := nat_of_ascii c in
  (((9 <=? n) && (n <=? 13)) || ((28 <=? n) && (n <=? 32)))%nat.

Fixpoint lstrip (s : string) : string :=
  match s with
  | EmptyString => EmptyString
  | String c s' => if is_space c then lstrip s' else s
  end.

Fixpoint rev_string_onto (s acc : string) : string :=
  match s with
  | EmptyString => acc
  | String c s' => rev_string_onto s' (String c acc)
  end.

Definition rev_string (s : string) : string := rev_string_onto s EmptyString.

Definition rstrip (s : string) : string := rev_string (lstrip (rev_string s)).

(** [s.strip()] *)
Definition strip (s : string) : string := rstrip (lstrip s).

(** [s.startswith(p)] *)
Definition startswith (s p : string) : bool := String.prefix p s.

(** [s.endswith(p)] *)
Definition endswith (s p : string) : bool :=
  String.prefix (rev_string p) (rev_string s).

(** [p in s] *)
Fixpoint contains (s p : string) : bool :=
  String.prefix p s ||
  match s with
  | EmptyString => false
  | String _ s' => contains s' p
  end.

(** [s.split(sep)] for a one-character separator. *)
Fixpoint split_on (sep : ascii) (s : string) : list string :=
  match s with
  | EmptyString => [EmptyString]
  | String c s' =>
      if Ascii.eqb c sep then EmptyString :: split_on sep s'
      else match split_on sep s' with
           | [] => [String c EmptyString]
           | x :: xs => String c x :: xs
           end
  end.

Definition newline : ascii := ascii_of_nat 10.

Definition split_lines (s : string) : list string := split_on newline s.

Definition nl : string := String newline EmptyString.

(** [str(n)] for a natural number. *)
Definition of_nat (n : nat) : string := NilZero.string_of_uint (Nat.to_uint n).

End PyStr.

(** ** Python values and exceptions *)

Inductive field (A : Type) : Type :=
| Missing : field A
| Null : field A
| Val : A -> field A.
Arguments Missing {A}.
Arguments Null {A}.
Arguments Val {A} _.

(** [d.get(k)] *)
Definition get {A} (f : field A) : option A :=
  match f with Val a => Some a | _ => None end.

(** [d.get(k, default)]: the default only replaces an absent key. *)
Definition get_default {A} (f : field A) (d : A) : option A :=
  match f with Missing => Some d | Null => None | Val a => Some a end.

(** Truth value of an optional string: [None] and the empty string are false. *)
Definition truthy (o : option string) : bool :=
  match o with
  | Some s => negb (String.eqb s EmptyString)
  | None => false
  end.

(** [a or b] *)
Definition por (a b : option string) : option string :=
  if truthy a then a else b.

(** How an f-string shows an optional string. *)
Definition fmt (o : option string) : string :=
  match o with Some s => s | None => "None" end.

Inductive exn_kind : Type :=
| ValueError | KeyError | AttributeError | TypeError | OtherError.

Record exn : Type := mkExn { exn_kind_of : exn_kind; exn_msg : string }.

Inductive result (A : Type) : Type :=
| Ok : A -> result A
| Raise : exn -> result A.
Arguments Ok {A} _.
Arguments Raise {A} _.

Definition is_ok {A} (r : result A) : bool :=
  match r with Ok _ => true | Raise _ => false end.

(** ** Data model of the blueprint compiler ([core/sql_render.py]) *)

(** One entry of a node's ["bindings"] list. *)
Record binding : Type := mkBinding {
  bd_name : field string;
  bd_binding : field string
}.

(** A primary or secondary node of a raw blueprint. *)
Record raw_node : Type := mkRawNode {
  rn_node : field string;
  rn_bindings : list binding;
  rn_load : field bool
}.

Record raw_column : Type := mkRawColumn {
  rc_name : field string;
  rc_binding : field string;
  rc_alias : field string;
  rc_data_type : field string;
  rc_description : field string
}.

(** The raw blueprint record, as the configuration store returns it. *)
Record blueprint : Type := mkBlueprint {
  bp_id : field string;
  bp_name : field string;
  bp_binding_object : field string;
  bp_binding_db : field string;
  bp_binding_schema : field string;
  bp_where_clause : field string;
  bp_delete_condition : field string;
  bp_ingest_time_binding : field string;
  bp_ingest_time : field string;
  bp_columns : list raw_column;
  bp_primary_node : raw_node;
  bp_secondary_nodes : list raw_node
}.

(** The resolved ["name"] of a node: a scalar for exactly one key column,
    the ordered list otherwise. *)
Inductive name_value : Type :=
| Scalar : string -> name_value
| Multi : list string -> name_value.

Record column : Type := mkColumn {
  col_name : option string;
  col_binding : option string;
  col_target : option string;
  col_type : option string;
  col_description : option string
}.

(** [{**n, "name": value}] *)
Record node : Type := mkNode {
  node_raw : raw_node;
  node_name : name_value
}.

(** The canonical table model: [{**bp}] with the keys the normalizer sets. *)
Record table : Type := mkTable {
  t_raw : blueprint;
  t_name : option string;
  t_database : option string;
  t_schema : option string;
  t_where_clause : option string;
  t_delete_condition : option string;
  t_ingest_time : option string;
  t_columns : list column;
  t_primary_node : node;
  t_secondary_nodes : list node
}.

Module Normalizer.

Definition map_column (c : raw_column) : column :=
  {| col_name := get (rc_name c);
     col_binding := get (rc_binding c);
     col_target := por (get (rc_alias c)) (get (rc_name c));
     col_type := get (rc_data_type c);
     col_description := get (rc_description c) |}.

(** [[b.get("binding") for b in bindings if b.get("binding")]] *)
Fixpoint binding_values (bs : list binding) : list string :=
  match bs with
  | [] => []
  | b :: bs' =>
      match get (bd_binding b) with
      | Some v => if truthy (Some v) then v :: binding_values bs' else binding_values bs'
      | None => binding_values bs'
      end
  end.

Definition binding_value (vs : list string) : name_value :=
  match vs with
  | [v] => Scalar v
  | _ => Multi vs
  end.

Definition normalize_node (n : raw_node) : node :=
  {| node_raw := n;
     node_name := binding_value (binding_values (rn_bindings n)) |}.

(** [SQLRenderer._normalize_blueprint] *)
Definition _normalize_blueprint (bp : blueprint) : table :=
  {| t_raw := bp;
     t_name := por (get (bp_binding_object bp)) (get (bp_name bp));
     t_database := get (bp_binding_db bp);
     t_schema := get (bp_binding_schema bp);
     t_where_clause := get (bp_where_clause bp);
     t_delete_condition := get (bp_delete_condition bp);
     t_ingest_time :=
       por (get (bp_ingest_time_binding bp))
           (get_default (bp_ingest_time bp) "INGEST_TIME");
     t_columns := map map_column (bp_columns bp);
     t_primary_node := normalize_node (bp_primary_node bp);
     t_secondary_nodes := map normalize_node (bp_secondary_nodes bp) |}.

End Normalizer.

Module Validator.

(** The entries appended to [missing_bindings] for the columns. *)
Fixpoint missing_columns (cs : list column) : list (option string) :=
  match cs with
  | [] => []
  | c :: cs' =>
      if truthy (col_binding c) then missing_columns cs'
      else col_name c :: missing_columns cs'
  end.

(** The entries appended for one node's bindings, each under [prefix]. *)
Fixpoint missing_node_bindings (prefix : string) (bs : list binding)
  : list (option string) :=
  match bs with
  | [] => []
  | b :: bs' =>
      if truthy (get (bd_binding b)) then missing_node_bindings prefix bs'
      else Some (prefix ++ fmt (get_default (bd_name b) "unknown"))
             :: missing_node_bindings prefix bs'
  end.

Definition secondary_prefix (n : node) : string :=
  "secondary_node." ++ fmt (get_default (rn_node (node_raw n)) "unknown") ++ ".".

Fixpoint missing_secondary (ns : list node) : list (option string) :=
  match ns with
  | [] => []
  | n :: ns' =>
      (missing_node_bindings (secondary_prefix n) (rn_bindings (node_raw n))
         ++ missing_secondary ns')%list
  end.

(** [missing_bindings] at the end of the three loops. *)
Definition missing_bindings (t : table) : list (option string) :=
  (missing_columns (t_columns t)
     ++ missing_node_bindings "primary_node." (rn_bindings (node_raw (t_primary_node t)))
     ++ missing_secondary (t_secondary_nodes t))%list.

(** [', '.join(l)]: an item that is [None] makes [join] raise [TypeError]. *)
Fixpoint join_items (i : nat) (l : list (option string)) : result (list string) :=
  match l with
  | [] => Ok []
  | Some s :: l' =>
      match join_items (S i) l' with
      | Ok ss => Ok (s :: ss)
      | Raise e => Raise e
      end
  | None :: _ =>
      Raise (mkExn TypeError
               ("sequence item " ++ PyStr.of_nat i ++ ": expected str instance, NoneType found"))
  end.

Definition missing_fields_message (source : string) (names : list string) : string :=
  "Blueprint '" ++ source ++ "' has missing field bindings: " ++ PyStr.join ", " names.

(** [SQLRenderer._validate_bindings] *)
Definition _validate_bindings (source : string) (t : table) : result unit :=
  if negb (truthy (t_database t)) then
    Raise (mkExn ValueError ("Blueprint '" ++ source ++ "' missing binding_db"))
  else if negb (truthy (t_schema t)) then
    Raise (mkExn ValueError ("Blueprint '" ++ source ++ "' missing binding_schema"))
  else
    match missing_bindings t with
    | [] => Ok tt
    | m =>
        match join_items 0 m with
        | Ok names => Raise (mkExn ValueError (missing_fields_message source names))
        | Raise e => Raise e
        end
    end.

End Validator.

(** ** Rendering contexts *)

Record db_schema : Type := mkDbSchema {
  ds_database : string;
  ds_schema : string
}.

(** [blueprints_loader.load_blueprint_metadata()]: the target and the stage
    location, taken from [core/config.py]. *)
Record config : Type := mkConfig {
  cfg_target : db_schema;
  cfg_stage : db_schema
}.

(** [SQLRenderer.get_base_context()] *)
Record base_context : Type := mkBaseContext {
  bc_target : db_schema;
  bc_stage : db_schema;
  bc_source : string;
  bc_database : option string;
  bc_schema : option string;
  bc_ingest_time : option string;
  bc_primary_node : node;
  bc_secondary_nodes : list node;
  bc_columns : list column;
  bc_delete_condition : option string
}.

(** The [extra_context] dictionaries the compiler passes to [render]. *)
Inductive extra_context : Type :=
| NodeContext (target : db_schema) (node : string)
| EdgeContext (target : db_schema) (primary secondary : string)
| TableContext (t : table) (stage target : db_schema)
| FullRefreshContext (t : table) (stage target : db_schema) (db : string).

Record render_context : Type := mkRenderContext {
  rx_base : base_context;
  rx_extra : extra_context;
  rx_replace_objects : bool
}.

(** ** The world outside the program *)

(** The progress event dictionaries of the deployment generators. *)
Record steps : Type := mkSteps {
  st_staging : bool;
  st_data_processing : bool;
  st_key_storage : bool;
  st_build_relationships : bool;
  st_data_storage : bool;
  st_supporting_artefacts : bool;
  st_model_deployment : bool;
  st_seed_load : option bool            (* [None]: not requested *)
}.

Record event : Type := mkEvent {
  ev_level : string;
  ev_step : string;
  ev_status : string;
  ev_model_id : option string;
  ev_blueprint_id : option string;
  ev_object_name : option string;
  ev_message : string;
  ev_steps_completed : option steps
}.

(** What [send_event] serializes: the event type and its data.  The text sent
    to the client is determined by this pair. *)
Record unit_ok : Type := mkUnitOk { uo_type : string; uo_id : string }.

Record unit_failed : Type := mkUnitFailed {
  uf_type : string;
  uf_id : string;
  uf_error : string
}.

Record summary : Type := mkSummary {
  sm_message : string;
  sm_total : nat;
  sm_successful : list unit_ok;
  sm_failed : list unit_failed
}.

Inductive payload : Type :=
| PLog (message level : string)
| PStage (ev : event)
| PModelStart (model_id model_type : string) (index total : nat)
| PModelComplete (model_id status : string) (error : option string)
| PSummary (s : summary)
| PError (message : string)
| PClose.

Record sse : Type := mkSse { sse_event : string; sse_data : payload }.

(** The audit record [persist_deployment_log] writes; the JSON text of the
    insert is determined by it. *)
Record audit_record : Type := mkAudit {
  au_deployment_type : string;
  au_model_ids : list string;
  au_events : list sse;
  au_summary : summary;
  au_status : string;
  au_success_count : nat;
  au_error_count : nat;
  au_total_count : nat
}.

(** A call that leaves the program. *)
Inductive call : Type :=
| CConnect                                    (* [SnowflakeClient().__enter__()] *)
| CLookup (blueprint_id : string)             (* the configuration reads of [SQLRenderer.__init__] *)
| CRun (sql : string) (params : list (option string))   (* [client.run(sql, params)] *)
| CConfig (what : string)                     (* any other read or write of the configuration store *)
| CAudit (table_name : string) (record : audit_record).  (* the insert of the audit record *)

(** The log keeps every attempted call and whether it returned. *)
Record entry : Type := mkEntry { e_call : call; e_ok : bool }.

Definition history : Type := list entry.

Definition rows : Type := list (list string).

Inductive lookup_result : Type :=
| LookupRaise (e : exn)
| LookupNone
| LookupFound (bp : blueprint) (group_id : option string).

(** What a dimension or fact view generator of [dimensional_models.py] does
    when it is driven to its end: its calls and its events in order, and the
    exception it ends with, if any.  These generators read the configuration
    store and run statements; they build no [SQLRenderer]. *)
Inductive sub_call : Type :=
| SubRun (sql : string) (params : list (option string))   (* [client.run] *)
| SubConfig (what : string).                              (* configuration store *)

Definition call_of_sub (c : sub_call) : call :=
  match c with
  | SubRun sql params => CRun sql params
  | SubConfig what => CConfig what
  end.

Inductive sub_item : Type :=
| SubCall (c : sub_call) (ok : bool)
| SubYield (e : event).

Record sub_script : Type := mkSubScript {
  sub_items : list sub_item;
  sub_raised : option exn
}.

Record group_info : Type := mkGroupInfo {
  gi_domain : option string;
  gi_process : option string
}.

(** A dimension or fact entry of the dimensional-model configuration. *)
Record model_config : Type := mkModelConfig {
  mc_id : field string;
  mc_view_name : field string;
  mc_belongs_to : field string;
  mc_pii : field bool;
  mc_roles : list (option string);
  mc_attribute_table : option (option string * option string);  (* name, source *)
  mc_column_mappings : list (option string)   (* [blueprint_mapping or source] of each column *)
}.

Record dim_config : Type := mkDimConfig {
  dc_dimensions : list model_config;
  dc_facts : list model_config;
  dc_model_database : option string;
  dc_model_schema : option string
}.

Record source_entry : Type := mkSourceEntry {
  se_source : option string;
  se_blueprints : list blueprint
}.

Record World : Type := mkWorld {
  (** the template engine: [None] when it is unavailable or the template raises *)
  jinja : string -> render_context -> option string;
  (** [core/config.py] *)
  metadata : config;
  logs_database : option string;
  logs_schema : option string;
  logs_table : option string;
  config_database_name : string;
  config_schema_name : string;
  (** the configuration store *)
  lookup_blueprint : history -> string -> lookup_result;
  load_group_by_id : history -> string -> result (option group_info);
  dimensional_models_get_all : history -> result dim_config;
  blueprints_get_all : history -> result (list source_entry);
  (** the warehouse *)
  connect : history -> result unit;
  client_run : history -> string -> list (option string) -> result rows;
  insert_log : history -> string -> audit_record -> result rows;
  (** the view generators of [dimensional_models.py] *)
  view_deploy : history -> bool -> string -> model_config -> sub_script
}.

(** ** Generators: state, exceptions and yielded events *)

Section Gen.
Context {L W : Type}.

(** A computation reads and extends the call log, updates its local
    variables [L], yields events [W], and returns or raises. *)
Definition gen (A : Type) : Type :=
  history -> L -> result A * history * L * list W.

Definition ret {A} (a : A) : gen A := fun h l => (Ok a, h, l, []).

Definition raise {A} (e : exn) : gen A := fun h l => (Raise e, h, l, []).

Definition bind {A B} (m : gen A) (f : A -> gen B) : gen B :=
  fun h l =>
    match m h l with
    | (Ok a, h1, l1, w1) =>
        let '(r, h2, l2, w2) := f a h1 l1 in (r, h2, l2, (w1 ++ w2)%list)
    | (Raise e, h1, l1, w1) => (Raise e, h1, l1, w1)
    end.

(** [yield w] *)
Definition yield (w : W) : gen unit := fun h l => (Ok tt, h, l, [w]).

Definition get_locals : gen L := fun h l => (Ok l, h, l, []).

Definition modify (f : L -> L) : gen unit := fun h l => (Ok tt, h, f l, []).

(** [try: m  except Exception as e: handler e] *)
Definition try_catch {A} (m : gen A) (handler : exn -> gen A) : gen A :=
  fun h l =>
    match m h l with
    | (Ok a, h1, l1, w1) => (Ok a, h1, l1, w1)
    | (Raise e, h1, l1, w1) =>
        let '(r, h2, l2, w2) := handler e h1 l1 in (r, h2, l2, (w1 ++ w2)%list)
    end.

(** A call to the world: the answer is computed from the log, and the call
    is logged with its outcome. *)
Definition world_call {A} (c : call) (answer : history -> result A) : gen A :=
  fun h l =>
    let r := answer h in
    (r, (h ++ [mkEntry c (is_ok r)])%list, l, []).

(** [for x in xs: body x] *)
Fixpoint for_each {X} (xs : list X) (body : X -> gen unit) : gen unit :=
  match xs with
  | [] => ret tt
  | x :: xs' => bind (body x) (fun _ => for_each xs' body)
  end.

(** A loop that carries a variable assigned in its body. *)
Fixpoint fold_gen {X C} (xs : list X) (c : C) (body : C -> X -> gen C) : gen C :=
  match xs with
  | [] => ret c
  | x :: xs' => bind (body c x) (fun c' => fold_gen xs' c' body)
  end.

End Gen.

Arguments gen : clear implicits.

Notation "x <- c1 ;; c2" := (bind c1 (fun x => c2))
  (at level 61, c1 at next level, right associativity).
Notation "c1 ;; c2" := (bind c1 (fun _ => c2))
  (at level 61, right associativity).

Definition get_history {L W} : gen L W history := fun h l => (Ok h, h, l, []).

(** A call made by a generator this one drives. *)
Definition log_call {L W} (c : call) (ok : bool) : gen L W unit :=
  fun h l => (Ok tt, (h ++ [mkEntry c ok])%list, l, []).

Definition lift_result {L W A} (r : result A) : gen L W A :=
  match r with
  | Ok a => ret a
  | Raise e => raise e
  end.

(** The four observable parts of a finished computation. *)
Definition outcome {L W A} (x : result A * history * L * list W) : result A :=
  fst (fst (fst x)).
Definition final_history {L W A} (x : result A * history * L * list W) : history :=
  snd (fst (fst x)).
Definition final_locals {L W A} (x : result A * history * L * list W) : L :=
  snd (fst x).
Definition yielded {L W A} (x : result A * history * L * list W) : list W :=
  snd x.

(** ** The statement compiler ([core/sql_render.py]) *)

(** [upper_clean] *)
Definition upper_clean (value : string) : string :=
  PyStr.upper (PyStr.replace_spaces value).


(** The attributes of an [SQLRenderer] object. *)
Record SQLRenderer : Type := mkRenderer {
  r_source : string;
  r_replace_objects : bool;
  r_target_database_override : option string;
  r_config : config;
  r_source_name : string;
  r_table : table
}.

Module Compiler.

Definition not_found_message (source : string) : string :=
  "Blueprint '" ++ source ++ "' not found in configuration tables (searched by id and name)".

Definition load_failed_message (source : string) (e : exn) : string :=
  "Blueprint '" ++ source ++ "' not found in configuration tables: " ++ exn_msg e.

(** [self.table["primary_node"]["node"]] followed by [upper_clean]: an absent
    key raises [KeyError], a [None] value has no [replace]. *)
Definition clean_node_name (n : node) : result string :=
  match rn_node (node_raw n) with
  | Missing => Raise (mkExn KeyError "'node'")
  | Null => Raise (mkExn AttributeError "'NoneType' object has no attribute 'replace'")
  | Val s => Ok (upper_clean s)
  end.

(** [x["node"].upper()] *)
Definition upper_node_name (n : node) : result string :=
  match rn_node (node_raw n) with
  | Missing => Raise (mkExn KeyError "'node'")
  | Null => Raise (mkExn AttributeError "'NoneType' object has no attribute 'upper'")
  | Val s => Ok (PyStr.upper s)
  end.

Section WithWorld.
Variable w : World.

(** [SQLRenderer.__init__]: the configuration is read, then the blueprint is
    normalized and validated. *)
Definition init_from_lookup (source : string) (replace_objects : bool)
    (target_database : option string) (lk : lookup_result) : result SQLRenderer :=
  match lk with
  | LookupRaise e => Raise (mkExn ValueError (load_failed_message source e))
  | LookupNone =>
      Raise (mkExn ValueError
               (load_failed_message source (mkExn ValueError (not_found_message source))))
  | LookupFound bp group_id =>
      match group_id with
      | Some g =>
          if truthy (Some g) then
            let t := Normalizer._normalize_blueprint bp in
            match Validator._validate_bindings source t with
            | Ok _ =>
                Ok {| r_source := source;
                      r_replace_objects := replace_objects;
                      r_target_database_override := target_database;
                      r_config := metadata w;
                      r_source_name := g;
                      r_table := t |}
            | Raise e => Raise e
            end
          else Raise (mkExn ValueError (not_found_message source))
      | None => Raise (mkExn ValueError (not_found_message source))
      end
  end.

Definition new_renderer {L W} (source : string) (replace_objects : bool)
    (target_database : option string) : gen L W SQLRenderer :=
  fun h l =>
    let lk := lookup_blueprint w h source in
    let r := init_from_lookup source replace_objects target_database lk in
    let read_ok := match lk with LookupRaise _ => false | _ => true end in
    (r, (h ++ [mkEntry (CLookup source) read_ok])%list, l, []).

(** [SQLRenderer.get_base_context] *)
Definition target_config (r : SQLRenderer) : db_schema :=
  match r_target_database_override r with
  | Some o =>
      if truthy (Some o)
      then mkDbSchema (PyStr.upper o) (ds_schema (cfg_target (r_config r)))
      else cfg_target (r_config r)
  | None => cfg_target (r_config r)
  end.

Definition get_base_context (r : SQLRenderer) : base_context :=
  let t := r_table r in
  {| bc_target := target_config r;
     bc_stage := cfg_stage (r_config r);
     bc_source := r_source_name r;
     bc_database := t_database t;
     bc_schema := t_schema t;
     bc_ingest_time := t_ingest_time t;
     bc_primary_node := t_primary_node t;
     bc_secondary_nodes := t_secondary_nodes t;
     bc_columns := t_columns t;
     bc_delete_condition := t_delete_condition t |}.

(** [SQLRenderer.render]: never raises. *)
Definition render (r : SQLRenderer) (template_name : string) (extra : extra_context)
  : string :=
  match jinja w template_name
          (mkRenderContext (get_base_context r) extra (r_replace_objects r)) with
  | Some text => text
  | None => "-- Template rendering failed: " ++ template_name
  end.

(** The loop of [create_nodes] over [self.table["secondary_nodes"]]. *)
Fixpoint secondary_node_statements (r : SQLRenderer) (tgt : db_schema) (ns : list node)
  : result (list string) :=
  match ns with
  | [] => Ok []
  | n :: ns' =>
      match clean_node_name n with
      | Raise e => Raise e
      | Ok nm =>
          match secondary_node_statements r tgt ns' with
          | Raise e => Raise e
          | Ok sqls => Ok (render r "create_node.sql" (NodeContext tgt nm) :: sqls)
          end
      end
  end.

(** [SQLRenderer.create_nodes] *)
Definition create_nodes (r : SQLRenderer) : result (list string) :=
  let tgt := bc_target (get_base_context r) in
  match clean_node_name (t_primary_node (r_table r)) with
  | Raise e => Raise e
  | Ok primary_node =>
      match secondary_node_statements r tgt (t_secondary_nodes (r_table r)) with
      | Raise e => Raise e
      | Ok sqls => Ok (render r "create_node.sql" (NodeContext tgt primary_node) :: sqls)
      end
  end.

Fixpoint edge_statements (r : SQLRenderer) (tgt : db_schema) (primary : string)
    (ns : list node) : result (list string) :=
  match ns with
  | [] => Ok []
  | n :: ns' =>
      match clean_node_name n with
      | Raise e => Raise e
      | Ok secondary =>
          match edge_statements r tgt primary ns' with
          | Raise e => Raise e
          | Ok sqls =>
              Ok (render r "create_edge.sql" (EdgeContext tgt primary secondary) :: sqls)
          end
      end
  end.

(** [SQLRenderer.create_edges] *)
Definition create_edges (r : SQLRenderer) : result (list string) :=
  let tgt := bc_target (get_base_context r) in
  match clean_node_name (t_primary_node (r_table r)) with
  | Raise e => Raise e
  | Ok primary => edge_statements r tgt primary (t_secondary_nodes (r_table r))
  end.

Definition table_context (r : SQLRenderer) : extra_context :=
  let c := get_base_context r in
  TableContext (r_table r) (bc_stage c) (bc_target c).

(** [SQLRenderer.validate_source_exists] *)
Definition validate_source_exists (r : SQLRenderer) : string :=
  "-- Source table " ++ fmt (t_database (r_table r)) ++ "." ++ fmt (t_schema (r_table r))
    ++ "." ++ fmt (t_name (r_table r)) ++ " validated".

Definition create_view (r : SQLRenderer) : string :=
  render r "create_stage_view.sql" (table_context r).

Definition create_stream (r : SQLRenderer) : string :=
  render r "create_stream.sql" (table_context r).

Definition create_task (r : SQLRenderer) : string :=
  render r "create_task.sql" (table_context r).

Definition create_attribute (r : SQLRenderer) : string :=
  render r "create_attribute.sql" (table_context r).

Definition mti (r : SQLRenderer) : string :=
  render r "unload_stream_mti.sql" (table_context r).

(** [SQLRenderer.full_refresh_mti]: one rendered text. *)
Definition full_refresh_mti (r : SQLRenderer) : string :=
  let c := get_base_context r in
  render r "full_refresh_mti.sql"
    (FullRefreshContext (r_table r) (bc_stage c) (bc_target c) (ds_database (bc_target c))).

(** [client.run(sql)] and [client.run(sql, params)] *)
Definition run {L W} (sql : string) : gen L W rows :=
  world_call (CRun sql []) (fun h => client_run w h sql []).

Definition run_with {L W} (sql : string) (params : list (option string)) : gen L W rows :=
  world_call (CRun sql params) (fun h => client_run w h sql params).

End WithWorld.
End Compiler.

(** ** Streamed single-blueprint deployment ([api/routes/blueprints.py]) *)

Module Blueprints.

Definition dquote : ascii := ascii_of_nat 34.
Definition backslash : ascii := ascii_of_nat 92.

(** [json.dumps] of a list of strings (quotes and backslashes escaped). *)
Fixpoint json_escape (s : string) : string :=
  match s with
  | EmptyString => EmptyString
  | String c s' =>
      if Ascii.eqb c dquote then String backslash (String c (json_escape s'))
      else if Ascii.eqb c backslash then String backslash (String c (json_escape s'))
      else String c (json_escape s')
  end.

Definition json_string (s : string) : string :=
  String dquote (json_escape s ++ String dquote EmptyString).

Definition json_dumps (l : list string) : string :=
  "[" ++ PyStr.join ", " (map json_string l) ++ "]".

(** [x[:n]] *)
Definition take (n : nat) (s : string) : string := substring 0 n s.

(** [f"{n:,}"] for the decimal text of a count. *)
Fixpoint group3 (k : nat) (rev_digits : string) : string :=
  match rev_digits with
  | EmptyString => EmptyString
  | String c s' =>
      match k with
      | 0 => String ","%char (String c (group3 2 s'))
      | S k' => String c (group3 k' s')
      end
  end.

Definition thousands (digits : string) : string :=
  PyStr.rev_string (group3 3 (PyStr.rev_string digits)).

(** The local variables the [except] clause still reads. *)
Record locals : Type := mkLocals {
  steps_completed : list string;
  deployed_objects : list string
}.

Definition init_locals : locals := mkLocals [] [].

Definition step_done (s : string) : gen locals event unit :=
  modify (fun l => mkLocals (steps_completed l ++ [s])%list (deployed_objects l)).

Definition track (name : string) : gen locals event unit :=
  modify (fun l => mkLocals (steps_completed l) (deployed_objects l ++ [name])%list).

(** An event of this generator: no model or blueprint id. *)
Definition log (level step object_name status message : string) : event :=
  mkEvent level step status None None (Some object_name) message None.

(** [x.upper()] where [x] may be [None] *)
Definition upper_opt (o : option string) : result string :=
  match o with
  | Some s => Ok (PyStr.upper s)
  | None => Raise (mkExn AttributeError "'NoneType' object has no attribute 'upper'")
  end.

(** [sec_node.get("load", True)] as a condition *)
Definition load_flag (n : node) : bool :=
  match rn_load (node_raw n) with
  | Missing => true
  | Null => false
  | Val b => b
  end.

(** *** Segmenting the full-refresh text *)

Definition is_truncate_line (s : string) : bool :=
  PyStr.startswith s "TRUNCATE TABLE" && PyStr.endswith s ";".

Definition is_from_line (s : string) : bool :=
  PyStr.startswith s "FROM" && PyStr.endswith s ";".

(** The [for i, line in enumerate(lines)] loop: the truncate statements,
    [insert_start] and [insert_end] ([None] stands for -1). *)
Fixpoint scan_lines (i : nat) (lines : list string) (truncates : list string)
    (insert_start : option nat) : list string * option nat * option nat :=
  match lines with
  | [] => (truncates, insert_start, None)
  | line :: rest =>
      let line_stripped := PyStr.strip line in
      if is_truncate_line line_stripped then
        scan_lines (S i) rest (truncates ++ [line_stripped])%list insert_start
      else if PyStr.contains line_stripped "INSERT ALL" then
        scan_lines (S i) rest truncates (Some i)
      else if (match insert_start with Some _ => true | None => false end)
                && is_from_line line_stripped then
        (truncates, insert_start, Some i)
      else scan_lines (S i) rest truncates insert_start
  end.

(** [lines[a:b+1]] *)
Definition slice (a b : nat) (lines : list string) : list string :=
  firstn (S b - a) (skipn a lines).

(** What the caller extracts from the full-refresh text: the truncate
    statements and, when found, the insert block. *)
Definition segment_full_refresh (full_refresh_sql : string)
  : list string * option string :=
  let lines := PyStr.split_lines full_refresh_sql in
  match scan_lines 0 lines [] None with
  | (truncates, Some a, Some b) =>
      (truncates, Some (PyStr.join PyStr.nl (slice a b lines)))
  | (truncates, _, _) => (truncates, None)
  end.

(** [result[0][0] if result else 0], as decimal text *)
Definition first_cell (r : rows) : result string :=
  match r with
  | [] => Ok "0"
  | [] :: _ => Raise (mkExn OtherError "list index out of range")
  | (c :: _) :: _ => Ok c
  end.

Section WithWorld.
Variable w : World.

Abbreviation G := (gen locals event).

Definition update_sql : string :=
  PyStr.nl ++ "                UPDATE " ++ config_database_name w ++ "." ++ config_schema_name w
    ++ ".config_blueprints" ++ PyStr.nl
    ++ "                SET deployed = PARSE_JSON(%s)," ++ PyStr.nl
    ++ "                    deployment_error = %s" ++ PyStr.nl
    ++ "                WHERE blueprint_id = %s" ++ PyStr.nl
    ++ "            ".

(** [json.dumps(deployed_objects) if deployed_objects else None] *)
Definition deployed_json (deployed : list string) : option string :=
  match deployed with
  | [] => None
  | _ => Some (json_dumps deployed)
  end.

(** [_update_blueprint_deployed_status] *)
Definition _update_blueprint_deployed_status (blueprint_id : string)
    (deployed : list string) (error_message : option string) : G unit :=
  try_catch
    (world_call CConnect (connect w) ;;
     Compiler.run_with w update_sql [deployed_json deployed; error_message; Some blueprint_id] ;;
     ret tt)
    (fun _ => ret tt).

(** Step 0: the target database must exist. *)
Definition step_database_validation (target_db : string) : G unit :=
  yield (log "INFO" "database_validation" target_db "starting"
           ("Validating target database '" ++ target_db ++ "'")) ;;
  db_result <- Compiler.run w ("SHOW DATABASES LIKE '" ++ target_db ++ "'") ;;
  match db_result with
  | [] => raise (mkExn ValueError ("Target database '" ++ target_db ++ "' does not exist"))
  | _ =>
      yield (log "SUCCESS" "database_validation" target_db "complete"
               ("Database '" ++ target_db ++ "' validated")) ;;
      step_done "database_validation"
  end.

(** Step 1 *)
Definition step_source_validation (blueprint_id : string) : G unit :=
  yield (log "INFO" "source_validation" blueprint_id "starting"
           "Validating source table exists") ;;
  yield (log "SUCCESS" "source_validation" blueprint_id "complete"
           "Source validation complete") ;;
  step_done "source_validation".

(** Step 2 *)
Definition step_stage_view (r : SQLRenderer) (stage_db stage_schema : string)
    (binding_object : option string) : G unit :=
  bo <- lift_result (upper_opt binding_object) ;;
  let view_name := "VIEW_" ++ bo in
  yield (log "INFO" "stage_view" view_name "starting"
           ("Creating stage view " ++ stage_db ++ "." ++ stage_schema ++ "." ++ view_name)) ;;
  Compiler.run w (Compiler.create_view w r) ;;
  track (stage_db ++ "." ++ stage_schema ++ ".STG_" ++ bo ++ "_" ++ PyStr.upper (r_source_name r)) ;;
  yield (log "SUCCESS" "stage_view" view_name "complete"
           ("Stage view created: " ++ stage_db ++ "." ++ stage_schema ++ "." ++ view_name)) ;;
  step_done "stage_view".

(** Step 3 *)
Definition step_stream (r : SQLRenderer) (stage_db stage_schema : string)
    (binding_object : option string) : G unit :=
  bo <- lift_result (upper_opt binding_object) ;;
  let stream_name := "STREAM_" ++ bo in
  yield (log "INFO" "stream" stream_name "starting"
           ("Creating stream " ++ stage_db ++ "." ++ stage_schema ++ "." ++ stream_name)) ;;
  Compiler.run w (Compiler.create_stream w r) ;;
  track (stage_db ++ "." ++ stage_schema ++ "." ++ stream_name) ;;
  yield (log "SUCCESS" "stream" stream_name "complete"
           ("Stream created: " ++ stage_db ++ "." ++ stage_schema ++ "." ++ stream_name)) ;;
  step_done "stream".

(** [for sql in sqls: client.run(sql)] *)
Definition run_all (sqls : list string) : G unit :=
  for_each sqls (fun sql => Compiler.run w sql ;; ret tt).

(** Step 4: the primary node is tracked before the node statements run;
    secondary nodes are tracked when their load flag is set. *)
Definition step_nodes (r : SQLRenderer) (target_db target_schema : string) : G unit :=
  yield (log "INFO" "nodes" "nodes" "starting" "Creating node tables") ;;
  nodes_sqls <- lift_result (Compiler.create_nodes w r) ;;
  primary_node <- lift_result (Compiler.upper_node_name (t_primary_node (r_table r))) ;;
  track (target_db ++ "." ++ target_schema ++ ".NODE_" ++ primary_node) ;;
  run_all nodes_sqls ;;
  for_each (t_secondary_nodes (r_table r))
    (fun sec_node =>
       if load_flag sec_node then
         sec_node_name <- lift_result (Compiler.upper_node_name sec_node) ;;
         track (target_db ++ "." ++ target_schema ++ ".NODE_" ++ sec_node_name)
       else ret tt) ;;
  yield (log "SUCCESS" "nodes" "nodes" "complete"
           ("Nodes created: " ++ PyStr.of_nat (List.length nodes_sqls)
              ++ " node table(s) in " ++ target_db ++ "." ++ target_schema)) ;;
  step_done "nodes".

(** Step 5: the edges are tracked before the edge statements run. *)
Definition step_edges (r : SQLRenderer) (target_db target_schema : string) : G unit :=
  yield (log "INFO" "edges" "edges" "starting" "Creating edge tables") ;;
  edges_sqls <- lift_result (Compiler.create_edges w r) ;;
  primary_node <- lift_result (Compiler.upper_node_name (t_primary_node (r_table r))) ;;
  for_each (t_secondary_nodes (r_table r))
    (fun sec_node =>
       sec_node_name <- lift_result (Compiler.upper_node_name sec_node) ;;
       track (target_db ++ "." ++ target_schema ++ ".EDGE_" ++ primary_node ++ "_" ++ sec_node_name)) ;;
  run_all edges_sqls ;;
  yield (log "SUCCESS" "edges" "edges" "complete"
           ("Edges created: " ++ PyStr.of_nat (List.length edges_sqls)
              ++ " edge table(s) in " ++ target_db ++ "." ++ target_schema)) ;;
  step_done "edges".

(** [renderer.source_name.upper() if ... renderer.source_name else "UNKNOWN"] *)
Definition source_upper (r : SQLRenderer) : string :=
  if truthy (Some (r_source_name r)) then PyStr.upper (r_source_name r) else "UNKNOWN".

Definition attr_table_name_of (r : SQLRenderer) : result string :=
  match Compiler.upper_node_name (t_primary_node (r_table r)) with
  | Raise e => Raise e
  | Ok primary_node =>
      match upper_opt (t_name (r_table r)) with
      | Raise e => Raise e
      | Ok table_name => Ok ("ATTR_" ++ primary_node ++ "_" ++ table_name ++ "_" ++ source_upper r)
      end
  end.

(** Step 6 *)
Definition step_attributes (r : SQLRenderer) (target_db target_schema : string) : G unit :=
  attr_table_name <- lift_result (attr_table_name_of r) ;;
  let qualified := target_db ++ "." ++ target_schema ++ "." ++ attr_table_name in
  yield (log "INFO" "attributes" attr_table_name "starting"
           ("Creating attribute table " ++ qualified)) ;;
  Compiler.run w (Compiler.create_attribute w r) ;;
  track qualified ;;
  yield (log "SUCCESS" "attributes" attr_table_name "complete"
           ("Attribute table created: " ++ qualified)) ;;
  step_done "attributes".

(** Step 7 *)
Definition step_mti (r : SQLRenderer) : G unit :=
  yield (log "INFO" "mti" "multi_table_insert" "starting"
           "Creating multi-table insert procedure") ;;
  Compiler.run w (Compiler.mti w r) ;;
  yield (log "SUCCESS" "mti" "multi_table_insert" "complete"
           "Multi-table insert procedure created") ;;
  step_done "mti".

Definition resume_sql (stage_db stage_schema task_name : string) : string :=
  "ALTER TASK " ++ stage_db ++ "." ++ stage_schema ++ "." ++ task_name ++ " RESUME".

(** Step 8: a failed task creation is reported and raised again as a
    [ValueError]; a created task is resumed by the next statement. *)
Definition step_task (r : SQLRenderer) (stage_db stage_schema : string)
    (binding_object : option string) : G unit :=
  bo <- lift_result (upper_opt binding_object) ;;
  let task_name := "TASK_" ++ bo in
  let qualified := stage_db ++ "." ++ stage_schema ++ "." ++ task_name in
  yield (log "INFO" "task" task_name "starting" ("Creating and resuming task " ++ qualified)) ;;
  try_catch
    (Compiler.run w (Compiler.create_task w r) ;; ret tt)
    (fun task_error =>
       yield (log "ERROR" "task" task_name "failed"
                ("Task creation failed: " ++ exn_msg task_error)) ;;
       raise (mkExn ValueError ("Task creation failed: " ++ exn_msg task_error))) ;;
  Compiler.run w (resume_sql stage_db stage_schema task_name) ;;
  track qualified ;;
  yield (log "SUCCESS" "task" task_name "complete" ("Task created and resumed: " ++ qualified)) ;;
  step_done "task".

(** The data summary after a full refresh; any failure here only yields a
    warning. *)
Definition data_summary (r : SQLRenderer) (target_db target_schema primary_node
    attr_table_name : string) : G unit :=
  try_catch
    (node_count_result <- Compiler.run w
         ("SELECT COUNT(*) as count FROM " ++ target_db ++ "." ++ target_schema
            ++ ".NODE_" ++ primary_node) ;;
     attr_count_result <- Compiler.run w
         ("SELECT COUNT(*) as count FROM " ++ target_db ++ "." ++ target_schema
            ++ "." ++ attr_table_name) ;;
     node_count <- lift_result (first_cell node_count_result) ;;
     attr_count <- lift_result (first_cell attr_count_result) ;;
     yield (log "SUCCESS" "full_refresh" "full_refresh_mti" "complete"
              ("Full refresh complete: NODE_" ++ primary_node ++ " (" ++ thousands node_count
                 ++ " records), " ++ attr_table_name ++ " (" ++ thousands attr_count
                 ++ " records)")) ;;
     for_each (t_secondary_nodes (r_table r))
       (fun sec_node =>
          if load_flag sec_node then
            sec_node_name <- lift_result (Compiler.upper_node_name sec_node) ;;
            sec_count_result <- Compiler.run w
                ("SELECT COUNT(*) as count FROM " ++ target_db ++ "." ++ target_schema
                   ++ ".NODE_" ++ sec_node_name) ;;
            sec_count <- lift_result (first_cell sec_count_result) ;;
            yield (log "INFO" "full_refresh" ("NODE_" ++ sec_node_name) "complete"
                     ("  +- NODE_" ++ sec_node_name ++ ": " ++ thousands sec_count ++ " records"))
          else ret tt))
    (fun e =>
       yield (log "WARNING" "full_refresh" "data_summary" "partial"
                ("Full refresh completed but could not retrieve counts: " ++ exn_msg e))).

(** Step 9: the caller splits the rendered text itself, runs each truncate
    statement, then the insert block when it found one. *)
Definition step_full_refresh (r : SQLRenderer) (target_db target_schema : string) : G unit :=
  yield (log "INFO" "full_refresh" "full_refresh_mti" "starting"
           "Executing full refresh (initial data load)") ;;
  let full_refresh_sql := Compiler.full_refresh_mti w r in
  let '(truncate_statements, insert_block) := segment_full_refresh full_refresh_sql in
  for_each truncate_statements
    (fun truncate_sql =>
       Compiler.run w truncate_sql ;;
       yield (log "INFO" "full_refresh" "truncate" "complete"
                ("Executed: " ++ take 80 truncate_sql ++ "..."))) ;;
  match insert_block with
  | Some insert_sql => Compiler.run w insert_sql ;; ret tt
  | None =>
      yield (log "WARNING" "full_refresh" "insert_all" "warning"
               "Could not find INSERT ALL statement in full refresh MTI")
  end ;;
  primary_node <- lift_result (Compiler.upper_node_name (t_primary_node (r_table r))) ;;
  attr_table_name <- lift_result (attr_table_name_of r) ;;
  data_summary r target_db target_schema primary_node attr_table_name ;;
  step_done "full_refresh".

(** The body of the [with SQLRenderer(...) as renderer] block. *)
Definition with_renderer (r : SQLRenderer) (blueprint_id : string) (run_full_refresh : bool)
  : G unit :=
  let context := Compiler.get_base_context r in
  let target_db := ds_database (bc_target context) in
  let target_schema := ds_schema (bc_target context) in
  let stage_db := ds_database (bc_stage context) in
  let stage_schema := ds_schema (bc_stage context) in
  let binding_object := t_name (r_table r) in
  step_database_validation target_db ;;
  step_source_validation blueprint_id ;;
  step_stage_view r stage_db stage_schema binding_object ;;
  step_stream r stage_db stage_schema binding_object ;;
  step_nodes r target_db target_schema ;;
  step_edges r target_db target_schema ;;
  step_attributes r target_db target_schema ;;
  step_mti r ;;
  step_task r stage_db stage_schema binding_object ;;
  (if run_full_refresh then step_full_refresh r target_db target_schema else ret tt).

(** The deployment proper: the first event, the renderer, the steps. *)
Definition deploy_steps (blueprint_id : string) (replace_objects run_full_refresh : bool)
    (database_name : option string) : G unit :=
  yield (log "INFO" "initialization" blueprint_id "starting"
           ("Initializing deployment for blueprint '" ++ blueprint_id ++ "'")) ;;
  r <- Compiler.new_renderer w blueprint_id replace_objects database_name ;;
  with_renderer r blueprint_id run_full_refresh.

(** [_deploy_single_blueprint_streaming] *)
Definition _deploy_single_blueprint_streaming (blueprint_id : string)
    (replace_objects run_full_refresh : bool) (database_name : option string) : G unit :=
  try_catch
    (deploy_steps blueprint_id replace_objects run_full_refresh database_name ;;
     l <- get_locals ;;
     _update_blueprint_deployed_status blueprint_id (deployed_objects l) None ;;
     l' <- get_locals ;;
     yield (log "SUCCESS" "complete" blueprint_id "complete"
              ("Blueprint '" ++ blueprint_id ++ "' deployed successfully ("
                 ++ PyStr.of_nat (List.length (steps_completed l')) ++ " steps completed)")))
    (fun e =>
       let error_msg := exn_msg e in
       l <- get_locals ;;
       _update_blueprint_deployed_status blueprint_id (deployed_objects l) (Some error_msg) ;;
       yield (log "ERROR" "deployment" blueprint_id "failed"
                ("Deployment failed: " ++ error_msg)) ;;
       raise e).

(** Running the generator to its end from a given call log. *)
Definition deploy (h : history) (blueprint_id : string)
    (replace_objects run_full_refresh : bool) (database_name : option string) :=
  _deploy_single_blueprint_streaming blueprint_id replace_objects run_full_refresh
    database_name h init_locals.

End WithWorld.
End Blueprints.

(** ** Staged model deployment ([api/routes/utilities.py]) *)

Module Utilities.

(** [value.replace(q, q + q)] for a one-character [q] *)
Fixpoint double_char (q : ascii) (s : string) : string :=
  match s with
  | EmptyString => EmptyString
  | String c s' =>
      if Ascii.eqb c q then String c (String c (double_char q s'))
      else String c (double_char q s')
  end.

(** [_format_identifier] *)
Definition _format_identifier (value : string) : string :=
  String Blueprints.dquote
    (double_char Blueprints.dquote value ++ String Blueprints.dquote EmptyString).

(** [OBJECT_PRIVILEGE_MAP.get(object_type.upper())] *)
Definition object_privilege (object_type : string) : option string :=
  let t := PyStr.upper object_type in
  if String.eqb t "TABLE" then Some "SELECT"
  else if String.eqb t "VIEW" then Some "SELECT"
  else if String.eqb t "STREAM" then Some "SELECT"
  else if String.eqb t "TASK" then Some "OPERATE"
  else None.

(** One unit of a staged deployment: a blueprint of the model. *)
Record bp_info : Type := mkBpInfo {
  bi_blueprint_id : string;
  bi_source : option string;
  bi_blueprint : blueprint
}.

Record governance : Type := mkGovernance {
  g_domain : option string;
  g_process : option string;
  g_pii : option bool;
  g_roles : list string
}.

(** The role list of [_get_model_governance_tags]: empty entries dropped,
    stripped, without repetitions. *)
Fixpoint normalize_roles (roles : list (option string)) (acc : list string) : list string :=
  match roles with
  | [] => acc
  | role :: rest =>
      if truthy role then
        let normalized := PyStr.strip (fmt role) in
        if String.eqb normalized EmptyString then normalize_roles rest acc
        else if existsb (String.eqb normalized) acc then normalize_roles rest acc
        else normalize_roles rest (acc ++ [normalized])%list
      else normalize_roles rest acc
  end.

(** Python truth of [domain or process or pii_flag is not None] *)
Definition has_tags (g : governance) : bool :=
  truthy (g_domain g) || truthy (g_process g)
    || match g_pii g with Some _ => true | None => false end.

(** The names a stage reports for a unit, read from the blueprint of the
    configuration snapshot. *)
Definition truthy_node (n : raw_node) : option string :=
  match get (rn_node n) with
  | Some s => if truthy (Some s) then Some s else None
  | None => None
  end.

Definition node_label (n : raw_node) : list string :=
  match truthy_node n with
  | Some s => ["NODE_" ++ PyStr.upper s]
  | None => []
  end.

Definition node_names (bp : blueprint) : list string :=
  List.app (node_label (bp_primary_node bp))
           (flat_map node_label (bp_secondary_nodes bp)).

Definition edge_names (bp : blueprint) : list string :=
  match truthy_node (bp_primary_node bp) with
  | Some p =>
      flat_map (fun sec =>
        match truthy_node sec with
        | Some s => ["EDGE_" ++ PyStr.upper p ++ "_" ++ PyStr.upper s]
        | None => []
        end) (bp_secondary_nodes bp)
  | None => []
  end.

(** [bp_info.get("blueprint", {}).get("binding_object", "")] when it is true *)
Definition binding_object_of (bp : blueprint) : option string :=
  match get_default (bp_binding_object bp) EmptyString with
  | Some s => if truthy (Some s) then Some s else None
  | None => None
  end.

Definition prefixed_upper (prefix : string) (o : option string) : option string :=
  match o with
  | Some s => Some (prefix ++ PyStr.upper s)
  | None => None
  end.

Definition attr_name_of (u : bp_info) : option string :=
  match truthy_node (bp_primary_node (bi_blueprint u)),
        binding_object_of (bi_blueprint u) with
  | Some p, Some bo =>
      if truthy (bi_source u)
      then Some ("ATTR_" ++ PyStr.upper p ++ "_" ++ PyStr.upper bo ++ "_"
                   ++ PyStr.upper (fmt (bi_source u)))
      else None
  | _, _ => None
  end.

Definition squote : ascii := ascii_of_nat 39.

(** An event of the staged generator. *)
Definition stage_event (level step model_id : string) (blueprint_id object_name : option string)
    (status message : string) : event :=
  mkEvent level step status (Some model_id) blueprint_id object_name message None.

Section WithWorld.
Variable w : World.

Abbreviation G := (gen unit event).

Definition run_quietly (sql : string) : G unit :=
  try_catch (Compiler.run w sql ;; ret tt) (fun _ => ret tt).

(** [_ensure_role_exists] *)
Definition _ensure_role_exists (role_name : string) : G unit :=
  if truthy (Some role_name) then
    run_quietly ("CREATE ROLE IF NOT EXISTS " ++ _format_identifier (PyStr.upper role_name))
  else ret tt.

(** [_grant_access_to_object] *)
Definition _grant_access_to_object (object_type database schema : string)
    (object_name : option string) (roles : list string) : G unit :=
  match roles, object_name with
  | [], _ => ret tt
  | _, None => ret tt
  | _, Some name =>
      if negb (truthy (Some name)) then ret tt else
      match object_privilege object_type with
      | None => ret tt
      | Some privilege =>
          let db := _format_identifier (PyStr.upper database) in
          let sc := _format_identifier (PyStr.upper schema) in
          let fully_qualified := db ++ "." ++ sc ++ "." ++ _format_identifier (PyStr.upper name) in
          for_each roles
            (fun role =>
               if negb (truthy (Some role)) then ret tt else
               let role_upper := PyStr.upper role in
               _ensure_role_exists role_upper ;;
               run_quietly ("GRANT USAGE ON DATABASE " ++ db ++ " TO ROLE "
                              ++ _format_identifier role_upper) ;;
               run_quietly ("GRANT USAGE ON SCHEMA " ++ db ++ "." ++ sc ++ " TO ROLE "
                              ++ _format_identifier role_upper) ;;
               run_quietly ("GRANT " ++ privilege ++ " ON " ++ PyStr.upper object_type ++ " "
                              ++ fully_qualified ++ " TO ROLE " ++ _format_identifier role_upper))
      end
  end.

(** [_get_model_governance_tags] *)
Definition _get_model_governance_tags (mc : model_config) : G governance :=
  let none := mkGovernance None None None [] in
  match get (mc_belongs_to mc) with
  | None => ret none
  | Some belongs_to =>
      if negb (truthy (Some belongs_to)) then ret none else
      group <- world_call (CConfig ("load_group_by_id " ++ belongs_to))
                 (fun h => load_group_by_id w h belongs_to) ;;
      match group with
      | None => ret none
      | Some gi =>
          ret (mkGovernance (gi_domain gi) (gi_process gi) (get (mc_pii mc))
                 (normalize_roles (mc_roles mc) []))
      end
  end.

Definition create_tag_sql (tag comment : string) : string :=
  let q := String squote EmptyString in
  PyStr.nl ++ "            CREATE TAG IF NOT EXISTS " ++ tag ++ PyStr.nl
    ++ "                COMMENT = " ++ q ++ comment ++ q ++ PyStr.nl ++ "        ".

(** [_ensure_tags_exist] *)
Definition _ensure_tags_exist : G unit :=
  try_catch
    (Compiler.run w (create_tag_sql "DOMAIN"
       "Business domain classification for data objects (e.g., Procurement, Maintenance, Finance)") ;;
     Compiler.run w (create_tag_sql "PROCESS"
       "Business process classification for data objects (e.g., Procure to Pay, Asset Management, Accounting)") ;;
     Compiler.run w (create_tag_sql "PII"
       "PII classification flag for data objects (TRUE indicates PII)") ;;
     ret tt)
    (fun _ => ret tt).

Definition tag_statements (object_type fully_qualified_name : string) (g : governance)
  : list string :=
  let alter := "ALTER " ++ PyStr.upper object_type ++ " " ++ fully_qualified_name ++ " SET TAG " in
  let q := String squote EmptyString in
  List.app
    (if truthy (g_domain g)
     then [alter ++ "DOMAIN = " ++ q ++ double_char squote (fmt (g_domain g)) ++ q] else [])
    (List.app
       (if truthy (g_process g)
        then [alter ++ "PROCESS = " ++ q ++ double_char squote (fmt (g_process g)) ++ q] else [])
       (match g_pii g with
        | Some b => [alter ++ "PII = " ++ q ++ (if b then "TRUE" else "FALSE") ++ q]
        | None => []
        end)).

(** [_apply_tags_to_object]: [True] unless setting the tags raised. *)
Definition _apply_tags_to_object (object_type database schema object_name : string)
    (g : governance) : G bool :=
  if negb (has_tags g) then ret true else
  try_catch
    (let fqn := PyStr.upper database ++ "." ++ PyStr.upper schema ++ "."
                  ++ PyStr.upper object_name in
     Compiler.run w (PyStr.join (";" ++ PyStr.nl) (tag_statements object_type fqn g)) ;;
     ret true)
    (fun _ => ret false).

(** Tags, grants and their two progress events for one created object. *)
Definition govern (model_id : string) (blueprint_id : option string)
    (object_type database schema object_name tag_label grant_label what : string)
    (g : governance) : G unit :=
  tags_success <- _apply_tags_to_object object_type database schema object_name g ;;
  (if tags_success && has_tags g then
     yield (stage_event "SUCCESS" "apply_tags" model_id blueprint_id (Some tag_label)
              "complete" ("Applied tags to " ++ what ++ " " ++ PyStr.lower object_name))
   else ret tt) ;;
  _grant_access_to_object object_type database schema (Some object_name) (g_roles g) ;;
  match g_roles g with
  | [] => ret tt
  | roles =>
      yield (stage_event "SUCCESS" "apply_grants" model_id blueprint_id (Some grant_label)
               "complete" ("Granted access to " ++ what ++ " " ++ PyStr.lower object_name
                             ++ " for roles: " ++ PyStr.join ", " roles))
  end.

(** The loop every stage runs over the units: a unit that raises has its
    failure reported by [handler], clears the flag, and the loop goes on. *)
Definition stage_loop (units : list bp_info) (body : bp_info -> G unit)
    (handler : bp_info -> exn -> G unit) : G bool :=
  fold_gen units true
    (fun complete u =>
       try_catch (body u ;; ret complete) (fun e => handler u e ;; ret false)).

(** *** Stage 1: staging *)

Definition staging_unit (replace_objects : bool) (u : bp_info) : G unit :=
  r <- Compiler.new_renderer w (bi_blueprint_id u) replace_objects None ;;
  Compiler.run w (Compiler.create_view w r) ;;
  ret tt.

Definition staging_failed (model_id : string) (u : bp_info) (e : exn) : G unit :=
  yield (stage_event "ERROR" "staging" model_id (Some (bi_blueprint_id u))
           (prefixed_upper "VIEW_" (binding_object_of (bi_blueprint u))) "failed"
           ("Failed to deploy stage view for " ++ bi_blueprint_id u ++ ": " ++ exn_msg e)).

(** *** Stage 2: data processing (stream, task, resume) *)

(** The object name used for the task: the unit's binding object, or the
    loaded blueprint's when the unit has none. *)
Definition resolve_binding_object (u : bp_info) (r : SQLRenderer) : result string :=
  match binding_object_of (bi_blueprint u) with
  | Some s => Ok s
  | None => Blueprints.upper_opt (get_default (bp_binding_object (t_raw (r_table r))) EmptyString)
  end.

Definition data_processing_unit (replace_objects : bool) (g : governance) (u : bp_info)
  : G unit :=
  r <- Compiler.new_renderer w (bi_blueprint_id u) replace_objects None ;;
  Compiler.run w (Compiler.create_stream w r) ;;
  binding_object <- lift_result (resolve_binding_object u r) ;;
  Compiler.run w (Compiler.create_task w r) ;;
  let context := Compiler.get_base_context r in
  let stage_db := ds_database (bc_stage context) in
  let stage_schema := ds_schema (bc_stage context) in
  Compiler.run w (Blueprints.resume_sql stage_db stage_schema ("TASK_" ++ binding_object)) ;;
  if truthy (Some binding_object) then
    let task_obj_name := "TASK_" ++ PyStr.upper binding_object in
    _apply_tags_to_object "TASK" (PyStr.upper stage_db) (PyStr.upper stage_schema)
      task_obj_name g ;;
    _grant_access_to_object "TASK" (PyStr.upper stage_db) (PyStr.upper stage_schema)
      (Some task_obj_name) (g_roles g)
  else ret tt.

Definition data_processing_failed (model_id : string) (u : bp_info) (e : exn) : G unit :=
  let bo := binding_object_of (bi_blueprint u) in
  yield (stage_event "ERROR" "data_processing" model_id (Some (bi_blueprint_id u))
           (por (prefixed_upper "STREAM_" bo) (prefixed_upper "TASK_" bo)) "failed"
           ("Failed to deploy data processing for " ++ bi_blueprint_id u ++ ": " ++ exn_msg e)).

(** *** Stage 3: key storage (node tables) *)

Definition key_storage_unit (model_id : string) (replace_objects : bool) (g : governance)
    (u : bp_info) : G unit :=
  r <- Compiler.new_renderer w (bi_blueprint_id u) replace_objects None ;;
  nodes_sqls <- lift_result (Compiler.create_nodes w r) ;;
  for_each nodes_sqls (fun node_sql => Compiler.run w node_sql ;; ret tt) ;;
  let context := Compiler.get_base_context r in
  let target_db := PyStr.upper (ds_database (bc_target context)) in
  let target_schema := PyStr.upper (ds_schema (bc_target context)) in
  for_each (node_names (bi_blueprint u))
    (fun node_name =>
       govern model_id (Some (bi_blueprint_id u)) "TABLE" target_db target_schema node_name
         "Tag Nodes" "Grant access to Nodes" "node" g ;;
       yield (stage_event "SUCCESS" "key_storage" model_id (Some (bi_blueprint_id u))
                (Some node_name) "complete"
                ("Node " ++ PyStr.lower node_name ++ " deployed for " ++ bi_blueprint_id u))).

(** One failure event per node name of the unit. *)
Definition key_storage_failed (model_id : string) (u : bp_info) (e : exn) : G unit :=
  for_each (node_names (bi_blueprint u))
    (fun node_name =>
       yield (stage_event "ERROR" "key_storage" model_id (Some (bi_blueprint_id u))
                (Some node_name) "failed"
                ("Failed to deploy node " ++ PyStr.lower node_name ++ " for "
                   ++ bi_blueprint_id u ++ ": " ++ exn_msg e))).

(** *** Stage 4: build relationships (edge tables) *)

Definition build_relationships_unit (model_id : string) (replace_objects : bool)
    (g : governance) (u : bp_info) : G unit :=
  r <- Compiler.new_renderer w (bi_blueprint_id u) replace_objects None ;;
  edges_sqls <- lift_result (Compiler.create_edges w r) ;;
  for_each edges_sqls (fun edge_sql => Compiler.run w edge_sql ;; ret tt) ;;
  let context := Compiler.get_base_context r in
  let target_db := PyStr.upper (ds_database (bc_target context)) in
  let target_schema := PyStr.upper (ds_schema (bc_target context)) in
  for_each (edge_names (bi_blueprint u))
    (fun edge_name =>
       govern model_id (Some (bi_blueprint_id u)) "TABLE" target_db target_schema edge_name
         "Tag Edges" "Grant access to Edges" "edge" g ;;
       yield (stage_event "SUCCESS" "build_relationships" model_id (Some (bi_blueprint_id u))
                (Some edge_name) "complete"
                ("Edge " ++ PyStr.lower edge_name ++ " deployed for " ++ bi_blueprint_id u))).

(** One failure event per edge name of the unit. *)
Definition build_relationships_failed (model_id : string) (u : bp_info) (e : exn) : G unit :=
  for_each (edge_names (bi_blueprint u))
    (fun edge_name =>
       yield (stage_event "ERROR" "build_relationships" model_id (Some (bi_blueprint_id u))
                (Some edge_name) "failed"
                ("Failed to deploy edge " ++ PyStr.lower edge_name ++ " for "
                   ++ bi_blueprint_id u ++ ": " ++ exn_msg e))).

(** *** Stage 5: data storage (attribute table and MTI) *)

Definition data_storage_unit (model_id : string) (replace_objects : bool) (g : governance)
    (u : bp_info) : G unit :=
  r <- Compiler.new_renderer w (bi_blueprint_id u) replace_objects None ;;
  Compiler.run w (Compiler.create_attribute w r) ;;
  Compiler.run w (Compiler.mti w r) ;;
  let context := Compiler.get_base_context r in
  let target_db := PyStr.upper (ds_database (bc_target context)) in
  let target_schema := PyStr.upper (ds_schema (bc_target context)) in
  match attr_name_of u with
  | Some attr_name =>
      govern model_id (Some (bi_blueprint_id u)) "TABLE" target_db target_schema attr_name
        "Tag Attributes" "Grant access to Attributes" "attribute" g
  | None => ret tt
  end ;;
  yield (stage_event "SUCCESS" "data_storage" model_id (Some (bi_blueprint_id u))
           (attr_name_of u) "complete"
           ("Attributes and MTI deployed for " ++ bi_blueprint_id u)).

Definition data_storage_failed (model_id : string) (u : bp_info) (e : exn) : G unit :=
  yield (stage_event "ERROR" "data_storage" model_id (Some (bi_blueprint_id u))
           (attr_name_of u) "failed"
           ("Failed to deploy attributes for " ++ bi_blueprint_id u ++ ": " ++ exn_msg e)).

(** *** Stage 7: model deployment (the dimension or fact view) *)

Definition is_dimension (model_type : string) : bool := String.eqb model_type "dimension".

(** [model_config.get("view_name") or f"V_DIM_{model_id.upper()}"] *)
Definition view_name_of (model_type model_id : string) (mc : model_config) : string :=
  let default :=
    (if is_dimension model_type then "V_DIM_" else "V_FACT_") ++ PyStr.upper model_id in
  match get (mc_view_name mc) with
  | Some v => if truthy (Some v) then v else default
  | None => default
  end.

Definition is_complete (ev : event) : bool :=
  String.eqb (ev_step ev) "complete" && String.eqb (ev_status ev) "complete".

(** [{**log_event, "step": "model_deployment", "model_id": ..., "object_name": ...}] *)
Definition forward (model_type model_id view_name : string) (ev : event) : event :=
  let view_step := if is_dimension model_type then "dimension_view" else "fact_view" in
  mkEvent (ev_level ev) "model_deployment" (ev_status ev) (Some model_id) (ev_blueprint_id ev)
    (if String.eqb (ev_step ev) view_step || String.eqb (ev_step ev) "complete"
     then Some view_name else ev_object_name ev)
    (ev_message ev) (ev_steps_completed ev).

(** The [async for] over the view generator: its calls are logged, each of
    its events is forwarded, and its terminal event triggers governance. *)
Fixpoint drive_view (model_type model_id view_name model_database model_schema : string)
    (g : governance) (items : list sub_item) (complete : bool) : G bool :=
  match items with
  | [] => ret complete
  | SubCall c ok :: rest =>
      log_call (call_of_sub c) ok ;;
      drive_view model_type model_id view_name model_database model_schema g rest complete
  | SubYield ev :: rest =>
      yield (forward model_type model_id view_name ev) ;;
      if is_complete ev then
        (if truthy (Some view_name) then
           govern model_id None "VIEW" (PyStr.upper model_database) (PyStr.upper model_schema)
             view_name ("Tag " ++ model_type ++ " view")
             ("Grant access to " ++ model_type ++ " view") (model_type ++ " view") g
         else ret tt) ;;
        drive_view model_type model_id view_name model_database model_schema g rest true
      else
        drive_view model_type model_id view_name model_database model_schema g rest complete
  end.

Definition model_deployment_stage (model_id : string) (mc : model_config)
    (model_type model_database model_schema : string) (g : governance) : G bool :=
  let view_name := view_name_of model_type model_id mc in
  h <- get_history ;;
  let script := view_deploy w h (is_dimension model_type) model_id mc in
  complete <- drive_view model_type model_id view_name model_database model_schema g
                (sub_items script) false ;;
  match sub_raised script with
  | Some e =>
      yield (stage_event "ERROR" "model_deployment" model_id None None "failed"
               ("Failed to deploy " ++ model_type ++ " view: " ++ exn_msg e)) ;;
      ret complete
  | None => ret complete
  end.

(** *** Stage 8: seed load (full refresh) *)

Definition seed_load_unit (model_id : string) (replace_objects : bool) (u : bp_info) : G unit :=
  r <- Compiler.new_renderer w (bi_blueprint_id u) replace_objects None ;;
  Compiler.run w (Compiler.full_refresh_mti w r) ;;
  yield (stage_event "SUCCESS" "seed_load" model_id (Some (bi_blueprint_id u))
           (Some (bi_blueprint_id u ++ "_refresh")) "complete"
           ("Full refresh completed for " ++ bi_blueprint_id u)).

Definition seed_load_failed (model_id : string) (u : bp_info) (e : exn) : G unit :=
  yield (stage_event "ERROR" "seed_load" model_id (Some (bi_blueprint_id u))
           (Some (bi_blueprint_id u ++ "_refresh")) "failed"
           ("Failed to run full refresh for " ++ bi_blueprint_id u ++ ": " ++ exn_msg e)).

Definition starting (level step model_id message : string) : event :=
  stage_event level step model_id None None "starting" message.

Definition completed (step model_id message : string) : event :=
  stage_event "SUCCESS" step model_id None None "complete" message.

(** The eight stages, once the governance tags of the model are known. *)
Definition staged_pipeline (model_id : string) (mc : model_config) (model_type : string)
    (units : list bp_info) (model_database model_schema : string)
    (replace_objects run_full_refresh : bool) (g : governance) : G unit :=
  let n := PyStr.of_nat (List.length units) in
  (* Stage 1 *)
  yield (starting "SUCCESS" "staging" model_id ("Starting staging deployment for " ++ model_id)) ;;
  staging_complete <-
    stage_loop units (staging_unit replace_objects) (staging_failed model_id) ;;
  (if staging_complete then
     yield (completed "staging" model_id
              ("Completed staging deployment for " ++ model_id ++ " (" ++ n ++ " views)"))
   else ret tt) ;;
  (* Stage 2 *)
  yield (starting "SUCCESS" "data_processing" model_id
           ("Starting data processing deployment for " ++ model_id)) ;;
  data_processing_complete <-
    stage_loop units (data_processing_unit replace_objects g) (data_processing_failed model_id) ;;
  (if data_processing_complete then
     yield (completed "data_processing" model_id
              ("Completed data processing deployment for " ++ model_id ++ " (" ++ n
                 ++ " streams/tasks)"))
   else ret tt) ;;
  (* Stage 3 *)
  yield (starting "INFO" "key_storage" model_id ("Deploying nodes for " ++ model_id)) ;;
  key_storage_complete <-
    stage_loop units (key_storage_unit model_id replace_objects g) (key_storage_failed model_id) ;;
  (* Stage 4 *)
  yield (starting "INFO" "build_relationships" model_id ("Deploying edges for " ++ model_id)) ;;
  build_relationships_complete <-
    stage_loop units (build_relationships_unit model_id replace_objects g)
      (build_relationships_failed model_id) ;;
  (* Stage 5 *)
  yield (starting "INFO" "data_storage" model_id ("Deploying attributes for " ++ model_id)) ;;
  data_storage_complete <-
    stage_loop units (data_storage_unit model_id replace_objects g)
      (data_storage_failed model_id) ;;
  (* Stage 6: no statement and no event, only the flag *)
  let supporting_artefacts_complete := true in
  (* Stage 7 *)
  yield (starting "INFO" "model_deployment" model_id
           ("Deploying " ++ model_type ++ " view for " ++ model_id)) ;;
  model_deployment_complete <-
    model_deployment_stage model_id mc model_type model_database model_schema g ;;
  (* Stage 8 *)
  seed_load <-
    (if run_full_refresh then
       yield (starting "INFO" "seed_load" model_id ("Running full refresh for " ++ model_id)) ;;
       seed_load_complete <-
         stage_loop units (seed_load_unit model_id replace_objects) (seed_load_failed model_id) ;;
       ret (Some seed_load_complete)
     else ret None) ;;
  yield (mkEvent "SUCCESS" "complete" "complete" (Some model_id) None None
           ("Model " ++ model_id ++ " deployment completed")
           (Some (mkSteps staging_complete data_processing_complete key_storage_complete
                    build_relationships_complete data_storage_complete
                    supporting_artefacts_complete model_deployment_complete seed_load))).

(** The body of the outer [try] of [_deploy_model_staged_streaming]. *)
Definition staged_stages (model_id : string) (mc : model_config) (model_type : string)
    (units : list bp_info) (model_database model_schema : string)
    (replace_objects run_full_refresh : bool) : G unit :=
  g <- _get_model_governance_tags mc ;;
  _ensure_tags_exist ;;
  staged_pipeline model_id mc model_type units model_database model_schema
    replace_objects run_full_refresh g.

(** [_deploy_model_staged_streaming] *)
Definition _deploy_model_staged_streaming (model_id : string) (mc : model_config)
    (model_type : string) (blueprints_to_deploy : list bp_info)
    (model_database model_schema : string) (replace_objects run_full_refresh : bool)
  : G unit :=
  try_catch
    (staged_stages model_id mc model_type blueprints_to_deploy model_database model_schema
       replace_objects run_full_refresh)
    (fun e =>
       yield (stage_event "ERROR" "error" model_id None None "failed"
                ("Error deploying model " ++ model_id ++ ": " ++ exn_msg e)) ;;
       raise e).

End WithWorld.
End Utilities.

(** ** The audit recorder ([core/deployment_logs.py]) *)

Module DeploymentLogs.
Section WithWorld.
Variable w : World.

(** [_get_deployment_logs_table_name] *)
Definition _get_deployment_logs_table_name : option string :=
  if truthy (logs_database w) && truthy (logs_schema w) && truthy (logs_table w)
  then Some (fmt (logs_database w) ++ "." ++ fmt (logs_schema w) ++ "." ++ fmt (logs_table w))
  else None.

(** [persist_deployment_log]: nothing is written when the table is not
    configured; a failing insert is logged and swallowed. *)
Definition persist_deployment_log {L W} (record : audit_record) : gen L W unit :=
  match _get_deployment_logs_table_name with
  | None => ret tt
  | Some table_name =>
      try_catch
        (world_call CConnect (connect w) ;;
         world_call (CAudit table_name record) (fun h => insert_log w h table_name record) ;;
         ret tt)
        (fun _ => ret tt)
  end.

End WithWorld.

(** The audit records a call log shows as written. *)
Fixpoint persisted (h : history) : list audit_record :=
  match h with
  | [] => []
  | mkEntry (CAudit _ r) true :: h' => r :: persisted h'
  | _ :: h' => persisted h'
  end.

End DeploymentLogs.

(** ** The staged deployment endpoint ([deploy_models_staged]) *)

Module Endpoint.

Record request : Type := mkRequest {
  model_ids : list string;
  replace_objects : bool;
  run_full_refresh : bool;
  model_database : option string;
  model_schema : option string
}.

(** The variables of [event_generator] its [finally] block reads. *)
Record locals : Type := mkLocals {
  deployment_events : list sse;
  final_summary : option summary;
  successful : list unit_ok;
  failed : list unit_failed;
  error_message : option string
}.

Definition init_locals : locals := mkLocals [] None [] [] None.

Abbreviation G := (gen locals sse).

(** [send_event]: the event is recorded for the audit and sent. *)
Definition send_event (event_type : string) (data : payload) : G unit :=
  let e := mkSse event_type data in
  modify (fun l => mkLocals (deployment_events l ++ [e])%list (final_summary l)
                     (successful l) (failed l) (error_message l)) ;;
  yield e.

Definition add_successful (u : unit_ok) : G unit :=
  modify (fun l => mkLocals (deployment_events l) (final_summary l)
                     (successful l ++ [u])%list (failed l) (error_message l)).

Definition add_failed (u : unit_failed) : G unit :=
  modify (fun l => mkLocals (deployment_events l) (final_summary l)
                     (successful l) (failed l ++ [u])%list (error_message l)).

Definition set_final_summary (s : summary) : G unit :=
  modify (fun l => mkLocals (deployment_events l) (Some s)
                     (successful l) (failed l) (error_message l)).

Definition set_error_message (m : string) : G unit :=
  modify (fun l => mkLocals (deployment_events l) (final_summary l)
                     (successful l) (failed l) (Some m)).

(** [dim.get("id", "").lower() == model_id_lower], first match *)
Fixpoint find_model (models : list model_config) (model_id_lower : string)
  : result (option model_config) :=
  match models with
  | [] => Ok None
  | m :: rest =>
      match get_default (mc_id m) EmptyString with
      | None => Raise (mkExn AttributeError "'NoneType' object has no attribute 'lower'")
      | Some i =>
          if String.eqb (PyStr.lower i) model_id_lower then Ok (Some m)
          else find_model rest model_id_lower
      end
  end.

(** The key of the attribute table, when name and source are both set. *)
Definition attribute_table_keys (mc : model_config) : list string :=
  match mc_attribute_table mc with
  | Some (name, source) =>
      if truthy name && truthy source then [fmt source ++ "." ++ fmt name] else []
  | None => []
  end.

(** The keys read from the column mappings [source.blueprint...]. *)
Definition mapping_keys (mappings : list (option string)) : list string :=
  flat_map
    (fun mapping =>
       if truthy mapping && PyStr.contains (fmt mapping) "." then
         match PyStr.split_on "."%char (fmt mapping) with
         | source :: blueprint_name :: _ => [source ++ "." ++ blueprint_name]
         | _ => []
         end
       else [])
    mappings.

Definition blueprint_keys (mc : model_config) : list string :=
  List.app (attribute_table_keys mc) (mapping_keys (mc_column_mappings mc)).

(** [blueprints_to_deploy] *)
Definition blueprints_of_source (keys : list string) (s : source_entry)
  : list Utilities.bp_info :=
  flat_map
    (fun bp =>
       match get (bp_id bp) with
       | Some i =>
           if truthy (Some i) && existsb (String.eqb (fmt (se_source s) ++ "." ++ i)) keys
           then [Utilities.mkBpInfo i (se_source s) bp]
           else []
       | None => []
       end)
    (se_blueprints s).

Definition blueprints_to_deploy (keys : list string) (sources : list source_entry)
  : list Utilities.bp_info :=
  flat_map (blueprints_of_source keys) sources.

(** [list(keys)] in an f-string (the order of a set is not specified; the
    order of insertion is shown). *)
Definition repr_list (keys : list string) : string :=
  let q := String Utilities.squote EmptyString in
  "[" ++ PyStr.join ", " (map (fun k => q ++ k ++ q) keys) ++ "]".

(** The aggregate status computed in the [finally] block. *)
Definition aggregate_status (error_message : option string) (success_count failure_count : nat)
  : string :=
  if truthy error_message || (0 <? failure_count)%nat then
    if (success_count =? 0)%nat then "failed" else "partial"
  else "success".

Definition error_count_of (error_message : option string) (failure_count : nat) : nat :=
  if (0 <? failure_count)%nat then failure_count
  else if truthy error_message then 1 else 0.

(** Running a generator this one iterates over: its calls go to the same
    log; its events and its end are handed to the caller. *)
Definition run_sub {L L' W W' A} (m : gen L' W' A) (l0 : L') : gen L W (result A * list W') :=
  fun h l =>
    let '(r, h', _, evs) := m h l0 in
    (Ok (r, evs), h', l, []).

Section WithWorld.
Variable w : World.
Variable req : request.

Definition total_count : nat := List.length (model_ids req).

(** The [try] around one model's staged deployment. *)
Definition deploy_one (model_id : string) (mc : model_config) (model_type : string)
    (units : list Utilities.bp_info) (database schema : string) : G unit :=
  try_catch
    (sub <-
        run_sub (Utilities._deploy_model_staged_streaming w model_id mc model_type units
                   database schema (replace_objects req) (run_full_refresh req)) tt ;;
     let r := fst sub in
     let log_events := snd sub in
     for_each log_events (fun log_event => send_event "log" (PStage log_event)) ;;
     lift_result r ;;
     if existsb Utilities.is_complete log_events then
       add_successful (mkUnitOk model_type model_id) ;;
       send_event "model_complete" (PModelComplete model_id "success" None)
     else
       add_failed (mkUnitFailed model_type model_id "Deployment did not complete") ;;
       send_event "model_complete"
         (PModelComplete model_id "failed" (Some "Deployment did not complete")))
    (fun e =>
       add_failed (mkUnitFailed model_type model_id (exn_msg e)) ;;
       send_event "model_complete" (PModelComplete model_id "failed" (Some (exn_msg e)))).

(** One turn of [for model_id in request.model_ids]. *)
Definition process_model (dc : dim_config) (sources : list source_entry)
    (database schema : string) (current : nat) (model_id : string) : G unit :=
  let model_id_lower := PyStr.lower model_id in
  found_dim <- lift_result (find_model (dc_dimensions dc) model_id_lower) ;;
  found <-
    match found_dim with
    | Some mc => ret (Some (mc, "dimension"))
    | None =>
        found_fact <- lift_result (find_model (dc_facts dc) model_id_lower) ;;
        match found_fact with
        | Some mc => ret (Some (mc, "fact"))
        | None => ret None
        end
    end ;;
  match found with
  | None =>
      add_failed (mkUnitFailed "unknown" model_id "Configuration not found") ;;
      send_event "log"
        (PLog ("Model '" ++ model_id ++ "' not found in configuration") "ERROR")
  | Some (mc, model_type) =>
      let keys := blueprint_keys mc in
      match blueprints_to_deploy keys sources with
      | [] =>
          raise (mkExn ValueError
                   ("Model '" ++ model_id ++ "' references blueprints " ++ repr_list keys
                      ++ ", but none were found in the blueprints configuration."))
      | units =>
          send_event "model_start" (PModelStart model_id model_type current total_count) ;;
          deploy_one model_id mc model_type units database schema
      end
  end.

(** [for model_id in request.model_ids] with its counter [current]. *)
Fixpoint process_models (dc : dim_config) (sources : list source_entry)
    (database schema : string) (current : nat) (ids : list string) : G unit :=
  match ids with
  | [] => ret tt
  | model_id :: rest =>
      process_model dc sources database schema (S current) model_id ;;
      process_models dc sources database schema (S current) rest
  end.

(** The body of the [try] of [event_generator]. *)
Definition run_body : G unit :=
  dc <- world_call (CConfig "dimensional_models.get_all") (dimensional_models_get_all w) ;;
  let database := por (model_database req) (dc_model_database dc) in
  let schema := por (model_schema req) (dc_model_schema dc) in
  if negb (truthy database) || negb (truthy schema) then
    raise (mkExn ValueError "model_database and model_schema must be specified in config or request")
  else
    sources <- world_call (CConfig "blueprints.get_all") (blueprints_get_all w) ;;
    send_event "log"
      (PLog ("Starting staged deployment of " ++ PyStr.of_nat total_count ++ " model(s)") "INFO") ;;
    world_call CConnect (connect w) ;;
    send_event "log" (PLog "Connected to Snowflake" "INFO") ;;
    process_models dc sources (fmt database) (fmt schema) 0 (model_ids req) ;;
    l <- get_locals ;;
    let s :=
      mkSummary ("Staged deployment complete: " ++ PyStr.of_nat (List.length (successful l))
                   ++ " successful, " ++ PyStr.of_nat (List.length (failed l)) ++ " failed")
        total_count (successful l) (failed l) in
    set_final_summary s ;;
    send_event "complete" (PSummary s).

(** The audit record assembled in the [finally] block. *)
Definition audit_of (l : locals) : audit_record :=
  let summary_payload :=
    match final_summary l with
    | Some s => s
    | None =>
        mkSummary (fmt (por (error_message l) (Some "Deployment ended before summary event")))
          total_count (successful l) (failed l)
    end in
  let success_count := List.length (successful l) in
  let failure_count := List.length (failed l) in
  mkAudit "dimensional_models_staged" (model_ids req) (deployment_events l) summary_payload
    (aggregate_status (error_message l) success_count failure_count)
    success_count (error_count_of (error_message l) failure_count) total_count.

(** [event_generator]: [try], [except Exception], [finally]. *)
Definition event_generator : G unit :=
  try_catch run_body
    (fun e =>
       set_error_message (exn_msg e) ;;
       send_event "error" (PError (exn_msg e))) ;;
  send_event "close" PClose ;;
  l <- get_locals ;;
  DeploymentLogs.persist_deployment_log w (audit_of l).

(** A whole run of the endpoint, from a given call log. *)
Definition run_endpoint (h : history) := event_generator h init_locals.

End WithWorld.
End Endpoint.

(** ** Derived object names ([calculate_deployment_summary]) *)

Module Summary.

(** The names the deployment summary derives for one blueprint. *)
Record derived_names : Type := mkDerived {
  dn_stage_view : string;
  dn_stream : string;
  dn_task : string;
  dn_nodes : list string;
  dn_edges : list string;
  dn_attribute : option string
}.

(** [source_name.upper()] *)
Definition source_upper (source : option string) : result string :=
  Blueprints.upper_opt source.

(** One turn of [for bp_info in found_blueprints]: [None] when the blueprint
    has no binding object and is skipped. *)
Definition derived_object_names (u : Utilities.bp_info) : result (option derived_names) :=
  let bp := Utilities.bi_blueprint u in
  match Utilities.binding_object_of bp with
  | None => Ok None
  | Some binding_object =>
      let bo := PyStr.upper binding_object in
      match Utilities.truthy_node (bp_primary_node bp) with
      | None =>
          Ok (Some (mkDerived ("VIEW_" ++ bo) ("STREAM_" ++ bo) ("TASK_" ++ bo)
                      (Utilities.node_names bp) (Utilities.edge_names bp) None))
      | Some p =>
          match source_upper (Utilities.bi_source u) with
          | Raise e => Raise e
          | Ok src =>
              Ok (Some (mkDerived ("VIEW_" ++ bo) ("STREAM_" ++ bo) ("TASK_" ++ bo)
                          (Utilities.node_names bp) (Utilities.edge_names bp)
                          (Some ("ATTR_" ++ PyStr.upper p ++ "_" ++ bo ++ "_" ++ src))))
          end
      end
  end.

(** The parts of a unit its derived names are computed from. *)
Definition naming_key (u : Utilities.bp_info)
  : option string * option string * option string * list (option string) :=
  let bp := Utilities.bi_blueprint u in
  (Utilities.binding_object_of bp, Utilities.bi_source u,
   Utilities.truthy_node (bp_primary_node bp),
   map Utilities.truthy_node (bp_secondary_nodes bp)).

End Summary.

(** ** Concrete blueprints and worlds *)

Module Examples.

Definition key (name col : string) : binding := mkBinding (Val name) (Val col).

Definition col (name source_col : string) : raw_column :=
  mkRawColumn (Val name) (Val source_col) Missing (Val "VARCHAR") Missing.

(** A complete blueprint: one key, one secondary node that is not loaded. *)
Definition assets : blueprint :=
  {| bp_id := Val "assets";
     bp_name := Val "Test Asset Register";
     bp_binding_object := Val "TEST_ASSET_REGISTER";
     bp_binding_db := Val "RAW";
     bp_binding_schema := Val "PUBLIC";
     bp_where_clause := Missing;
     bp_delete_condition := Missing;
     bp_ingest_time_binding := Null;
     bp_ingest_time := Missing;
     bp_columns := [col "asset_name" "NAME"; col "asset_class" "CLASS"];
     bp_primary_node := mkRawNode (Val "asset") [key "asset_id" "ASSET_ID"] Missing;
     bp_secondary_nodes := [mkRawNode (Val "site") [key "site_id" "SITE_ID"] (Val false)] |}.

(** The same blueprint stored without a binding object. *)
Definition assets_unbound : blueprint :=
  {| bp_id := Val "assets";
     bp_name := Val "Test Asset Register";
     bp_binding_object := Null;
     bp_binding_db := Val "RAW";
     bp_binding_schema := Val "PUBLIC";
     bp_where_clause := Missing;
     bp_delete_condition := Missing;
     bp_ingest_time_binding := Null;
     bp_ingest_time := Missing;
     bp_columns := [col "asset_name" "NAME"; col "asset_class" "CLASS"];
     bp_primary_node := mkRawNode (Val "asset") [key "asset_id" "ASSET_ID"] Missing;
     bp_secondary_nodes := [mkRawNode (Val "site") [key "site_id" "SITE_ID"] (Val false)] |}.

(** A blueprint with no database and three bindings missing. *)
Definition incomplete : blueprint :=
  {| bp_id := Val "orders";
     bp_name := Val "Orders";
     bp_binding_object := Val "ORDERS";
     bp_binding_db := Null;
     bp_binding_schema := Val "PUBLIC";
     bp_where_clause := Missing;
     bp_delete_condition := Missing;
     bp_ingest_time_binding := Null;
     bp_ingest_time := Missing;
     bp_columns := [mkRawColumn (Val "amount") Null Missing Missing Missing;
                    col "currency" "CCY"];
     bp_primary_node :=
       mkRawNode (Val "order") [mkBinding (Val "order_id") (Val EmptyString)] Missing;
     bp_secondary_nodes :=
       [mkRawNode (Val "customer") [mkBinding (Val "customer_id") Null] Missing] |}.

(** The same blueprint with its database set. *)
Definition incomplete_with_db : blueprint :=
  {| bp_id := bp_id incomplete;
     bp_name := bp_name incomplete;
     bp_binding_object := bp_binding_object incomplete;
     bp_binding_db := Val "RAW";
     bp_binding_schema := bp_binding_schema incomplete;
     bp_where_clause := Missing;
     bp_delete_condition := Missing;
     bp_ingest_time_binding := Null;
     bp_ingest_time := Missing;
     bp_columns := bp_columns incomplete;
     bp_primary_node := bp_primary_node incomplete;
     bp_secondary_nodes := bp_secondary_nodes incomplete |}.

(** A simple blueprint named after its id, with one node and no secondary. *)
Definition simple (id : string) : blueprint :=
  {| bp_id := Val id;
     bp_name := Val id;
     bp_binding_object := Val (PyStr.upper id);
     bp_binding_db := Val "RAW";
     bp_binding_schema := Val "PUBLIC";
     bp_where_clause := Missing;
     bp_delete_condition := Missing;
     bp_ingest_time_binding := Null;
     bp_ingest_time := Missing;
     bp_columns := [col "value" "VALUE"];
     bp_primary_node := mkRawNode (Val id) [key "id" "ID"] Missing;
     bp_secondary_nodes := [] |}.

(** Stand-ins for the templates, which are not part of the sources: the
    statement names its template and its object.  The full-refresh text has
    the shape its caller expects: truncate lines, then one insert block. *)
Definition describe (x : extra_context) : string :=
  match x with
  | NodeContext _ n => "NODE_" ++ n
  | EdgeContext _ p s => "EDGE_" ++ p ++ "_" ++ s
  | TableContext t _ _ => fmt (t_name t)
  | FullRefreshContext t _ _ db =>
      PyStr.nl ++ "TRUNCATE TABLE " ++ db ++ ".NODE;" ++ PyStr.nl
        ++ "  TRUNCATE TABLE " ++ db ++ ".ATTR;  " ++ PyStr.nl
        ++ "INSERT ALL" ++ PyStr.nl
        ++ "  INTO " ++ db ++ ".NODE VALUES (k)" ++ PyStr.nl
        ++ "FROM VIEW_" ++ fmt (t_name t) ++ ";" ++ PyStr.nl
  end.

Definition templates (name : string) (c : render_context) : option string :=
  Some (name ++ " " ++ describe (rx_extra c)).

Definition the_metadata : config :=
  mkConfig (mkDbSchema "unified_honey" "storage") (mkDbSchema "APP" "stage").

Fixpoint find_blueprint (store : list blueprint) (id : string) : lookup_result :=
  match store with
  | [] => LookupNone
  | bp :: rest =>
      if String.eqb (fmt (get (bp_id bp))) id then LookupFound bp (Some "erp")
      else find_blueprint rest id
  end.

Definition one_row : rows := [["1"]].

(** The dimension generator's events when it succeeds, in its own words. *)
Definition dimension_script (id : string) : sub_script :=
  let ev level step status msg := mkEvent level step status None None (Some id) msg None in
  mkSubScript
    [SubYield (ev "INFO" "validation" "starting" "Validating");
     SubCall (SubConfig "blueprints.get_all") true;
     SubCall (SubConfig "dimensional_models.get_all") true;
     SubYield (ev "SUCCESS" "validation" "complete" "Configuration validated");
     SubYield (ev "INFO" "source_validation" "starting" "Checking source table");
     SubCall (SubRun "SHOW TABLES" []) true;
     SubYield (ev "SUCCESS" "source_validation" "complete" "Source attribute table verified");
     SubYield (ev "INFO" "dimension_view" "starting" "Generating dimension view SQL");
     SubYield (ev "INFO" "dimension_view" "in_progress" "Executing CREATE VIEW");
     SubCall (SubRun "CREATE VIEW" []) true;
     SubYield (ev "SUCCESS" "dimension_view" "complete" "Dimension view created");
     SubYield (ev "SUCCESS" "complete" "complete" "Dimension deployed successfully");
     SubCall (SubConfig "update_dimension") true]
    None.

Definition dimension (id blueprint_id : string) : model_config :=
  {| mc_id := Val id;
     mc_view_name := Missing;
     mc_belongs_to := Missing;
     mc_pii := Missing;
     mc_roles := [];
     mc_attribute_table := Some (Some blueprint_id, Some "erp");
     mc_column_mappings := [] |}.

(** A world: a blueprint store, the dimensions, the statements the
    warehouse refuses, and whether the audit insert works. *)
Definition world (store : list blueprint) (dims : list model_config)
    (refused : string -> bool) (audit_ok : bool) : World :=
  {| jinja := templates;
     metadata := the_metadata;
     logs_database := Some "APP";
     logs_schema := Some "CORE";
     logs_table := Some "DEPLOYMENT_LOGS";
     config_database_name := "APP";
     config_schema_name := "core";
     lookup_blueprint := fun _ id => find_blueprint store id;
     load_group_by_id := fun _ _ => Ok None;
     dimensional_models_get_all := fun _ => Ok (mkDimConfig dims [] (Some "unified_honey") (Some "modelling"));
     blueprints_get_all := fun _ => Ok [mkSourceEntry (Some "erp") store];
     connect := fun _ => Ok tt;
     client_run := fun _ sql _ =>
       if refused sql then Raise (mkExn OtherError "SQL compilation error") else Ok one_row;
     insert_log := fun _ _ _ =>
       if audit_ok then Ok one_row else Raise (mkExn OtherError "insert failed");
     view_deploy := fun _ _ id _ => dimension_script id |}.

Definition nothing_refused (sql : string) : bool := false.

End Examples.

(** ** Column data types ([core/config_loader.py]) *)

Module ConfigLoader.

(** The characters of [[A-Z_]]. *)
Definition is_type_char (c : ascii) : bool :=
  PyStr.is_upper c || Ascii.eqb c "_"%char.

(** [re.match(r'^([A-Z_]+)', s)]: the leading run of such characters; the
    empty text when there is no match. *)
Fixpoint leading_type_chars (s : string) : string :=
  match s with
  | EmptyString => EmptyString
  | String c s' =>
      if is_type_char c then String c (leading_type_chars s') else EmptyString
  end.

Definition type_mapping : list (string * string) :=
  [("VARCHAR", "STRING"); ("CHAR", "STRING"); ("CHARACTER", "STRING"); ("TEXT", "STRING");
   ("STRING", "STRING");
   ("NUMBER", "NUMBER"); ("NUMERIC", "NUMBER"); ("DECIMAL", "NUMBER"); ("INT", "NUMBER");
   ("INTEGER", "NUMBER"); ("BIGINT", "NUMBER"); ("SMALLINT", "NUMBER"); ("FLOAT", "NUMBER");
   ("DOUBLE", "NUMBER"); ("REAL", "NUMBER");
   ("TIMESTAMP", "TIMESTAMP"); ("TIMESTAMP_NTZ", "TIMESTAMP"); ("TIMESTAMP_LTZ", "TIMESTAMP");
   ("TIMESTAMP_TZ", "TIMESTAMP"); ("DATETIME", "TIMESTAMP");
   ("DATE", "DATE"); ("TIME", "TIME");
   ("BOOLEAN", "BOOLEAN"); ("BOOL", "BOOLEAN");
   ("BINARY", "BINARY"); ("VARBINARY", "BINARY");
   ("VARIANT", "VARIANT"); ("OBJECT", "OBJECT"); ("ARRAY", "ARRAY")].

(** [d.get(k)] for a dictionary with string keys *)
Fixpoint dict_get (k : string) (d : list (string * string)) : option string :=
  match d with
  | [] => None
  | (k', v) :: d' => if String.eqb k k' then Some v else dict_get k d'
  end.

(** [normalize_data_type], for an argument that is [None] or a text *)
Definition normalize_data_type (data_type : option string) : string :=
  match data_type with
  | None => EmptyString
  | Some s =>
      if String.eqb s EmptyString then EmptyString else
      let data_type := PyStr.upper (PyStr.strip s) in
      let base_type :=
        match leading_type_chars data_type with
        | EmptyString => data_type
        | matched => matched
        end in
      let normalized :=
        match dict_get base_type type_mapping with
        | Some v => v
        | None => base_type
        end in
      if (50 <? String.length normalized)%nat then Blueprints.take 50 normalized
      else normalized
  end.

End ConfigLoader.

(** ** The blueprint deployment endpoint ([deploy_blueprints_follow]) *)

Module Follow.

Record request : Type := mkRequest {
  blueprint_ids : list string;
  replace_objects : bool;
  run_full_refresh : bool;
  database_name : option string
}.

(** An entry of [failed]; an entry of [successful] holds the blueprint id
    only and is represented by it. *)
Record failure : Type := mkFailure {
  f_blueprint_id : string;
  f_error : string
}.

Record summary : Type := mkSummary {
  sm_message : string;
  sm_total : nat;
  sm_successful : list string;
  sm_failed : list failure
}.

(** The data of the events this endpoint sends. *)
Inductive payload : Type :=
| PLog (message level : string)
| PEvent (ev : event)
| PBlueprintStart (blueprint_id : string) (index total : nat)
| PBlueprintComplete (blueprint_id status : string) (error : option string)
| PSummary (s : summary)
| PError (message : string)
| PClose.

Record sse : Type := mkSse { sse_event : string; sse_data : payload }.

(** The arguments of [persist_deployment_log]. *)
Record audit : Type := mkAudit {
  au_deployment_type : string;
  au_model_ids : list string;
  au_events : list sse;
  au_summary : summary;
  au_status : string;
  au_success_count : nat;
  au_error_count : nat;
  au_total_count : nat
}.

(** The variables of [event_generator] its [finally] block reads. *)
Record locals : Type := mkLocals {
  deployment_events : list sse;
  final_summary : option summary;
  successful : list string;
  failed : list failure;
  error_message : option string
}.

Definition init_locals : locals := mkLocals [] None [] [] None.

Abbreviation G := (gen locals sse).

(** [send_event]: the event is recorded for the audit and sent. *)
Definition send_event (event_type : string) (data : payload) : G unit :=
  let e := mkSse event_type data in
  modify (fun l => mkLocals (deployment_events l ++ [e])%list (final_summary l)
                     (successful l) (failed l) (error_message l)) ;;
  yield e.

Definition add_successful (blueprint_id : string) : G unit :=
  modify (fun l => mkLocals (deployment_events l) (final_summary l)
                     (successful l ++ [blueprint_id])%list (failed l) (error_message l)).

Definition add_failed (f : failure) : G unit :=
  modify (fun l => mkLocals (deployment_events l) (final_summary l)
                     (successful l) (failed l ++ [f])%list (error_message l)).

Definition set_final_summary (s : summary) : G unit :=
  modify (fun l => mkLocals (deployment_events l) (Some s)
                     (successful l) (failed l) (error_message l)).

Definition set_error_message (m : string) : G unit :=
  modify (fun l => mkLocals (deployment_events l) (final_summary l)
                     (successful l) (failed l) (Some m)).

(** The statement of [persist_deployment_log]. *)
Definition insert_sql (table_name : string) : string :=
  PyStr.nl ++ "        INSERT INTO " ++ table_name ++ " (" ++ PyStr.nl
    ++ "            deployment_log" ++ PyStr.nl
    ++ "        ) VALUES (" ++ PyStr.nl
    ++ "            PARSE_JSON(%s)" ++ PyStr.nl
    ++ "        )" ++ PyStr.nl
    ++ "    ".

Section WithWorld.
Variable w : World.
(** [_to_json_param]: the JSON text of a record. *)
Variable to_json : audit -> string.
Variable req : request.

(** [persist_deployment_log], for a record of this endpoint: nothing is
    written when the table is not configured; a failing insert is logged and
    swallowed. *)
Definition persist_deployment_log (record : audit) : G unit :=
  match DeploymentLogs._get_deployment_logs_table_name w with
  | None => ret tt
  | Some table_name =>
      try_catch
        (world_call CConnect (connect w) ;;
         Compiler.run_with w (insert_sql table_name) [Some (to_json record)] ;;
         ret tt)
        (fun _ => ret tt)
  end.

Definition total_count : nat := List.length (blueprint_ids req).

(** One turn of [for blueprint_id in request.blueprint_ids]. *)
Definition deploy_one (current : nat) (blueprint_id : string) : G unit :=
  send_event "blueprint_start" (PBlueprintStart blueprint_id current total_count) ;;
  try_catch
    (sub <-
        Endpoint.run_sub
          (Blueprints._deploy_single_blueprint_streaming w blueprint_id (replace_objects req)
             (run_full_refresh req) (database_name req))
          Blueprints.init_locals ;;
     let r := fst sub in
     let log_events := snd sub in
     for_each log_events (fun log_event => send_event "log" (PEvent log_event)) ;;
     lift_result r ;;
     if existsb Utilities.is_complete log_events then
       add_successful blueprint_id ;;
       send_event "blueprint_complete" (PBlueprintComplete blueprint_id "success" None)
     else
       add_failed (mkFailure blueprint_id "Deployment did not complete"))
    (fun e =>
       add_failed (mkFailure blueprint_id (exn_msg e)) ;;
       send_event "blueprint_complete"
         (PBlueprintComplete blueprint_id "failed" (Some (exn_msg e)))).

(** The loop with its counter [current]. *)
Fixpoint deploy_all (current : nat) (ids : list string) : G unit :=
  match ids with
  | [] => ret tt
  | blueprint_id :: rest =>
      deploy_one (S current) blueprint_id ;;
      deploy_all (S current) rest
  end.

(** The body of the [try] of [event_generator]. *)
Definition run_body : G unit :=
  send_event "log"
    (PLog ("Starting deployment of " ++ PyStr.of_nat total_count ++ " blueprint(s)") "INFO") ;;
  world_call CConnect (connect w) ;;
  send_event "log"
    (PLog "Connected to Snowflake (shared connection for all blueprints)" "INFO") ;;
  deploy_all 0 (blueprint_ids req) ;;
  l <- get_locals ;;
  let s :=
    mkSummary ("Deployment complete: " ++ PyStr.of_nat (List.length (successful l))
                 ++ " successful, " ++ PyStr.of_nat (List.length (failed l)) ++ " failed")
      total_count (successful l) (failed l) in
  set_final_summary s ;;
  send_event "complete" (PSummary s).

(** The record assembled in the [finally] block. *)
Definition audit_of (l : locals) : audit :=
  let summary_payload :=
    match final_summary l with
    | Some s => s
    | None =>
        mkSummary (fmt (por (error_message l) (Some "Deployment ended before summary event")))
          total_count (successful l) (failed l)
    end in
  let success_count := List.length (successful l) in
  let failure_count := List.length (failed l) in
  mkAudit "blueprints_follow" (blueprint_ids req) (deployment_events l) summary_payload
    (Endpoint.aggregate_status (error_message l) success_count failure_count)
    success_count (Endpoint.error_count_of (error_message l) failure_count) total_count.

(** [event_generator]: [try], [except Exception], [finally]. *)
Definition event_generator : G unit :=
  try_catch run_body
    (fun e =>
       set_error_message (exn_msg e) ;;
       send_event "error" (PError (exn_msg e))) ;;
  send_event "close" PClose ;;
  l <- get_locals ;;
  persist_deployment_log (audit_of l).

(** A whole run of the endpoint, from a given call log. *)
Definition run_endpoint (h : history) := event_generator h init_locals.

End WithWorld.
End Follow.

(** ** The full-refresh endpoint ([full_refresh_table]) *)

Module FullRefresh.

(** What the endpoint answers: its response, or the [HTTPException] it
    raises. *)
Inductive answer : Type :=
| FullRefreshResponse (message table_name : string) (success : bool)
| HTTPException (status_code : nat) (detail : string).

Section WithWorld.
Variable w : World.

Abbreviation G := (gen unit event).

(** The body of the [try]: the renderer, then the connection, then the
    statements the endpoint finds in the rendered text. *)
Definition refresh (table_name : string) : G unit :=
  renderer <- Compiler.new_renderer w table_name true None ;;
  world_call CConnect (connect w) ;;
  let full_refresh_sql := Compiler.full_refresh_mti w renderer in
  let '(truncate_statements, insert_block) :=
    Blueprints.segment_full_refresh full_refresh_sql in
  for_each truncate_statements (fun truncate_sql => Compiler.run w truncate_sql ;; ret tt) ;;
  match insert_block with
  | Some insert_sql => Compiler.run w insert_sql ;; ret tt
  | None => ret tt
  end.

(** [except ValueError] and [except Exception] *)
Definition http_error (e : exn) : answer :=
  match exn_kind_of e with
  | ValueError => HTTPException 404 (exn_msg e)
  | _ => HTTPException 500 ("Failed to execute full refresh: " ++ exn_msg e)
  end.

Definition completed (table_name : string) : answer :=
  FullRefreshResponse
    ("Full refresh completed successfully for table '" ++ table_name ++ "'") table_name true.

(** [full_refresh_table] *)
Definition full_refresh_table (table_name : string) : G answer :=
  try_catch
    (refresh table_name ;;
     ret (completed table_name))
    (fun e => ret (http_error e)).

End WithWorld.
End FullRefresh.

(** ** The blueprint list ([list_blueprints]) *)

Module Listing.

(** What the endpoint answers: its response, or the [HTTPException] it
    raises. *)
Inductive answer : Type :=
| BlueprintListResponse (message : string) (sources : list (string * list string))
| HTTPException (status_code : nat) (detail : string).

(** [d[k] = v] on a dictionary kept in the order of insertion. *)
Fixpoint dict_set (k : string) (v : list string) (d : list (string * list string))
  : list (string * list string) :=
  match d with
  | [] => [(k, v)]
  | (k', v') :: d' =>
      if String.eqb k' k then (k, v) :: d' else (k', v') :: dict_set k v d'
  end.

(** [blueprint.get("id") or blueprint.get("name")] *)
Definition id_or_name (bp : blueprint) : option string :=
  por (get (bp_id bp)) (get (bp_name bp)).

(** The inner loop: the ids appended for one source. *)
Fixpoint listed_ids (id_like : option string) (bps : list blueprint) : result (list string) :=
  match bps with
  | [] => Ok []
  | bp :: rest =>
      let blueprint_id := id_or_name bp in
      let skipped :=
        if truthy id_like then
          match blueprint_id with
          | None => Raise (mkExn AttributeError "'NoneType' object has no attribute 'lower'")
          | Some i => Ok (negb (PyStr.contains (PyStr.lower i) (PyStr.lower (fmt id_like))))
          end
        else Ok false in
      match skipped with
      | Raise e => Raise e
      | Ok true => listed_ids id_like rest
      | Ok false =>
          match listed_ids id_like rest with
          | Raise e => Raise e
          | Ok ids => Ok (if truthy blueprint_id then fmt blueprint_id :: ids else ids)
          end
      end
  end.

(** [source_name != source] *)
Definition other_source (source_name source : option string) : bool :=
  match source_name, source with
  | Some a, Some b => negb (String.eqb a b)
  | None, None => false
  | _, _ => true
  end.

(** The outer loop, with [sources] and [total_blueprints]. *)
Fixpoint scan_sources (source id_like : option string) (objs : list source_entry)
    (sources : list (string * list string)) (total_blueprints : nat)
  : result (list (string * list string) * nat) :=
  match objs with
  | [] => Ok (sources, total_blueprints)
  | source_obj :: rest =>
      let source_name := se_source source_obj in
      if truthy source && other_source source_name source then
        scan_sources source id_like rest sources total_blueprints
      else if truthy source_name then
        match listed_ids id_like (se_blueprints source_obj) with
        | Raise e => Raise e
        | Ok blueprints =>
            let total := (total_blueprints + List.length blueprints)%nat in
            match blueprints with
            | [] => scan_sources source id_like rest sources total
            | _ =>
                scan_sources source id_like rest
                  (dict_set (fmt source_name) blueprints sources) total
            end
        end
      else scan_sources source id_like rest sources total_blueprints
  end.

Definition found_message (total_blueprints sources : nat) : string :=
  "Found " ++ PyStr.of_nat total_blueprints ++ " blueprints across "
    ++ PyStr.of_nat sources ++ " sources (from Snowflake tables)".

Section WithWorld.
Variable w : World.

(** [list_blueprints] *)
Definition list_blueprints (source id_like : option string) : gen unit event answer :=
  try_catch
    (config <- world_call (CConfig "blueprints.get_all") (blueprints_get_all w) ;;
     listing <- lift_result (scan_sources source id_like config [] 0) ;;
     let '(sources, total_blueprints) := listing in
     ret (BlueprintListResponse (found_message total_blueprints (List.length sources))
            sources))
    (fun e => ret (HTTPException 500 ("Failed to load blueprints: " ++ exn_msg e))).

End WithWorld.
End Listing.

(** ** The deployment summary of one model ([calculate_deployment_summary]) *)

Module DeploymentSummary.

(** An entry of one of the item lists; [type] is set for nodes and [node] for
    attributes. *)
Record item : Type := mkItem {
  it_name : string;
  it_blueprint_id : string;
  it_source : option string;
  it_type : option string;
  it_node : option string
}.

Record seed_info : Type := mkSeed {
  sd_blueprint_id : string;
  sd_source : option string;
  sd_binding_object : string
}.

(** The lists the loop over the found blueprints fills. *)
Record collected : Type := mkCollected {
  staging_views : list item;
  streams : list item;
  tasks : list item;
  nodes : list item;
  edges : list item;
  attributes : list item;
  blueprint_info_for_seed : list seed_info
}.

Definition nothing : collected := mkCollected [] [] [] [] [] [] [].

Definition plain (name blueprint_id : string) (source : option string) : item :=
  mkItem name blueprint_id source None None.

Definition secondary_node_items (blueprint_id : string) (source : option string)
    (secondary_nodes : list raw_node) : list item :=
  flat_map
    (fun sec_node =>
       match Utilities.truthy_node sec_node with
       | Some s => [mkItem ("NODE_" ++ PyStr.upper s) blueprint_id source (Some "secondary") None]
       | None => []
       end)
    secondary_nodes.

Definition edge_items (primary blueprint_id : string) (source : option string)
    (secondary_nodes : list raw_node) : list item :=
  flat_map
    (fun sec_node =>
       match Utilities.truthy_node sec_node with
       | Some s => [plain ("EDGE_" ++ primary ++ "_" ++ PyStr.upper s) blueprint_id source]
       | None => []
       end)
    secondary_nodes.

(** One turn of [for bp_info in found_blueprints]. *)
Definition collect_one (c : collected) (u : Utilities.bp_info) : result collected :=
  let bp := Utilities.bi_blueprint u in
  let source_name := Utilities.bi_source u in
  let bp_id := Utilities.bi_blueprint_id u in
  match Utilities.binding_object_of bp with
  | None => Ok c
  | Some binding_object =>
      let bo := PyStr.upper binding_object in
      let secondary_nodes := bp_secondary_nodes bp in
      let seed := (blueprint_info_for_seed c ++ [mkSeed bp_id source_name binding_object])%list in
      let views := (staging_views c ++ [plain ("VIEW_" ++ bo) bp_id source_name])%list in
      let streams' := (streams c ++ [plain ("STREAM_" ++ bo) bp_id source_name])%list in
      let tasks' := (tasks c ++ [plain ("TASK_" ++ bo) bp_id source_name])%list in
      match Utilities.truthy_node (bp_primary_node bp) with
      | Some p =>
          let node_name := PyStr.upper p in
          match Summary.source_upper source_name with
          | Raise e => Raise e
          | Ok src =>
              Ok (mkCollected views streams' tasks'
                    (nodes c
                       ++ mkItem ("NODE_" ++ node_name) bp_id source_name (Some "primary") None
                       :: secondary_node_items bp_id source_name secondary_nodes)%list
                    (edges c ++ edge_items node_name bp_id source_name secondary_nodes)%list
                    (attributes c
                       ++ [mkItem ("ATTR_" ++ node_name ++ "_" ++ bo ++ "_" ++ src) bp_id
                             source_name None (Some node_name)])%list
                    seed)
          end
      | None =>
          Ok (mkCollected views streams' tasks'
                (nodes c ++ secondary_node_items bp_id source_name secondary_nodes)%list
                (edges c) (attributes c) seed)
      end
  end.

Fixpoint collect (c : collected) (found_blueprints : list Utilities.bp_info)
  : result collected :=
  match found_blueprints with
  | [] => Ok c
  | u :: rest =>
      match collect_one c u with
      | Raise e => Raise e
      | Ok c' => collect c' rest
      end
  end.

(** An entry of [tagging_items] or [grant_items]. *)
Record tally : Type := mkTally { tl_name : string; tl_count : nat }.

(** [if items: tallies.append({"name": name, "count": len(items)})] *)
Definition tally_of (name : string) (items : list item) : list tally :=
  match items with
  | [] => []
  | _ => [mkTally name (List.length items)]
  end.

Definition tallies (prefix model_type : string) (c : collected) : list tally :=
  (tally_of (prefix ++ "Nodes") (nodes c)
     ++ tally_of (prefix ++ "Edges") (edges c)
     ++ tally_of (prefix ++ "Attributes") (attributes c)
     ++ [mkTally (prefix ++ model_type ++ " view") 1])%list.

(** [sum(item.get("count", 0) for item in items)] *)
Definition sum_counts (items : list tally) : nat :=
  fold_right (fun t n => (tl_count t + n)%nat) 0 items.

(** [model.get("view_name") or f"V_DIM_{model_id.upper()}"] *)
Definition view_name (model_type : string) (mc : model_config) : result string :=
  let default :=
    match get (mc_id mc) with
    | Some i =>
        Ok ((if Utilities.is_dimension model_type then "V_DIM_" else "V_FACT_")
              ++ PyStr.upper i)
    | None => Raise (mkExn AttributeError "'NoneType' object has no attribute 'upper'")
    end in
  match get (mc_view_name mc) with
  | Some v => if truthy (Some v) then Ok v else default
  | None => default
  end.

(** The entry of [models_summary] for one model (its display name, a copy of
    the configuration's, is left out). *)
Record model_summary : Type := mkModelSummary {
  ms_model_id : option string;
  ms_model_type : string;
  ms_staging : list item;
  ms_staging_count : nat;
  ms_streams : list item;
  ms_tasks : list item;
  ms_data_processing_count : nat;
  ms_key_storage : list item;
  ms_key_storage_count : nat;
  ms_build_relationships : list item;
  ms_build_relationships_count : nat;
  ms_data_storage : list item;
  ms_data_storage_count : nat;
  ms_supporting_artefacts : list item;
  ms_supporting_artefacts_count : nat;
  ms_model_deployment : string;
  ms_seed_load : list seed_info;
  ms_apply_tags : list tally;
  ms_apply_tags_count : nat;
  ms_apply_grants : list tally;
  ms_apply_grants_count : nat
}.

(** The [source.id] of every blueprint of the configuration that has an id. *)
Definition available_blueprints (sources : list source_entry) : list string :=
  flat_map
    (fun s =>
       flat_map
         (fun bp =>
            match get (bp_id bp) with
            | Some i => if truthy (Some i) then [fmt (se_source s) ++ "." ++ i] else []
            | None => []
            end)
         (se_blueprints s))
    sources.

(** The body of [for model in selected_models]. *)
Definition summarize_model (sources : list source_entry) (model_type : string)
    (mc : model_config) : result model_summary :=
  let model_id := get (mc_id mc) in
  let blueprint_keys := Endpoint.blueprint_keys mc in
  match blueprint_keys with
  | [] =>
      Raise (mkExn ValueError
               ("Model '" ++ fmt model_id ++ "' (" ++ model_type
                  ++ ") does not reference any blueprints. "
                  ++ "Check source.attribute_table for dimensions or "
                  ++ "attributes.attribute_table for facts."))
  | _ =>
      match Endpoint.blueprints_to_deploy blueprint_keys sources with
      | [] =>
          Raise (mkExn ValueError
                   ("Model '" ++ fmt model_id ++ "' references blueprints "
                      ++ Endpoint.repr_list (nodup string_dec blueprint_keys)
                      ++ ", but none were found in the blueprints configuration. "
                      ++ "Available blueprints: "
                      ++ Endpoint.repr_list (firstn 20 (available_blueprints sources))))
      | found_blueprints =>
          match collect nothing found_blueprints with
          | Raise e => Raise e
          | Ok c =>
              match staging_views c, nodes c with
              | [], [] =>
                  Raise (mkExn ValueError
                           ("Model '" ++ fmt model_id
                              ++ "' found blueprints but no deployment items were calculated. "
                              ++ "This may indicate missing blueprint configuration "
                              ++ "(primary_node, binding_object, etc.)."))
              | _, _ =>
                  match view_name model_type mc with
                  | Raise e => Raise e
                  | Ok view =>
                      let tagging_items := tallies "Tag " model_type c in
                      let grant_items :=
                        match mc_roles mc with
                        | [] => []
                        | _ => tallies "Grant access to " model_type c
                        end in
                      Ok (mkModelSummary model_id model_type
                            (staging_views c) (List.length (staging_views c))
                            (streams c) (tasks c)
                            (List.length (streams c) + List.length (tasks c))
                            (nodes c) (List.length (nodes c))
                            (edges c) (List.length (edges c))
                            (attributes c) (List.length (attributes c))
                            [] 0
                            view
                            (blueprint_info_for_seed c)
                            tagging_items (sum_counts tagging_items)
                            grant_items (sum_counts grant_items))
                  end
              end
          end
      end
  end.

End DeploymentSummary.

(** * Properties *)

(** ** Strings *)

Lemma prefix_refl_append (p s : string) : String.prefix p (p ++ s) = true.
Proof.
  induction p as [|c p IH]; simpl.
  - destruct s; reflexivity.
  - destruct (ascii_dec c c) as [_|n]; [exact IH | contradiction].
Qed.

Lemma string_append_assoc (a b c : string) : (a ++ b) ++ c = a ++ b ++ c.
Proof. induction a as [|x a IH]; simpl; [reflexivity | rewrite IH; reflexivity]. Qed.

Lemma contains_prefix (s p : string) : String.prefix p s = true -> PyStr.contains s p = true.
Proof. intros H. destruct s; cbn [PyStr.contains]; rewrite H; reflexivity. Qed.

Lemma contains_append_r (a s p : string) :
  PyStr.contains s p = true -> PyStr.contains (a ++ s) p = true.
Proof.
  intros H. induction a as [|c a IH]; simpl; [exact H|].
  rewrite IH. apply orb_true_r.
Qed.

Lemma prefix_append_l (p s b : string) :
  String.prefix p s = true -> String.prefix p (s ++ b) = true.
Proof.
  revert s. induction p as [|c p IH]; intros s H; simpl.
  - destruct (s ++ b); reflexivity.
  - destruct s as [|d s]; simpl in *; [discriminate|].
    destruct (ascii_dec c d); [apply IH; exact H | discriminate].
Qed.

Lemma contains_append_l (s b p : string) :
  PyStr.contains s p = true -> PyStr.contains (s ++ b) p = true.
Proof.
  induction s as [|c s IH]; intros H.
  - destruct p as [|d p]; [|simpl in H; discriminate].
    apply contains_prefix. destruct (EmptyString ++ b); reflexivity.
  - simpl in H. apply orb_true_iff in H. destruct H as [H|H].
    + apply contains_prefix. apply (prefix_append_l p (String c s) b H).
    + simpl. rewrite (IH H). apply orb_true_r.
Qed.

Lemma contains_self_append (p s : string) : PyStr.contains (p ++ s) p = true.
Proof. apply contains_prefix, prefix_refl_append. Qed.

Lemma contains_self (p : string) : PyStr.contains p p = true.
Proof.
  apply contains_prefix. induction p as [|c p IH]; simpl; [reflexivity|].
  destruct (ascii_dec c c); [exact IH | contradiction].
Qed.

Lemma contains_join (sep x : string) (l : list string) :
  In x l -> PyStr.contains (PyStr.join sep l) x = true.
Proof.
  unfold PyStr.join. induction l as [|y l IH]; intros H; [contradiction|].
  destruct l as [|z l].
  - destruct H as [->|[]]. apply contains_self.
  - change (String.concat sep (y :: z :: l)) with (y ++ sep ++ String.concat sep (z :: l)).
    destruct H as [->|H].
    + apply contains_self_append.
    + apply contains_append_r, contains_append_r, IH, H.
Qed.

(** ** The binding normalizer *)

Lemma normalize_uses_binding_object (bp : blueprint) :
  truthy (get (bp_binding_object bp)) = true ->
  t_name (Normalizer._normalize_blueprint bp) = get (bp_binding_object bp).
Proof. intros H. simpl. unfold por. rewrite H. reflexivity. Qed.

Lemma normalize_falls_back_to_name (bp : blueprint) :
  truthy (get (bp_binding_object bp)) = false ->
  t_name (Normalizer._normalize_blueprint bp) = get (bp_name bp).
Proof. intros H. simpl. unfold por. rewrite H. reflexivity. Qed.

(** C5, at the failing input: a blueprint stored without a binding object
    gets its display name, spaces and mixed case included, as the physical
    table name of the canonical model, and validation accepts that model. *)
Theorem normalize_takes_display_name_without_binding_object :
  t_name (Normalizer._normalize_blueprint Examples.assets_unbound)
    = Some "Test Asset Register"
  /\ Validator._validate_bindings "assets"
       (Normalizer._normalize_blueprint Examples.assets_unbound) = Ok tt.
Proof. split; reflexivity. Qed.

(** ** The binding validator *)

Lemma join_items_all (i : nat) (l : list (option string)) (names : list string) :
  Validator.join_items i l = Ok names -> l = map Some names.
Proof.
  revert i names. induction l as [|o l IH]; intros i names H; simpl in H.
  - injection H as <-. reflexivity.
  - destruct o as [s|]; [|discriminate].
    destruct (Validator.join_items (S i) l) as [ss|e] eqn:E; [|discriminate].
    injection H as <-. simpl. f_equal. eapply IH, E.
Qed.

Lemma join_items_named (i : nat) (l : list (option string)) :
  (forall o, In o l -> o <> None) -> exists names, Validator.join_items i l = Ok names.
Proof.
  revert i. induction l as [|o l IH]; intros i H; simpl.
  - eexists; reflexivity.
  - destruct o as [s|].
    + destruct (IH (S i)) as [ss E]; [intros o Ho; apply H; right; exact Ho|].
      rewrite E. eexists; reflexivity.
    + exfalso. apply (H None); [left; reflexivity | reflexivity].
Qed.

Lemma missing_columns_in (cs : list column) (c : column) :
  In c cs -> truthy (col_binding c) = false -> In (col_name c) (Validator.missing_columns cs).
Proof.
  induction cs as [|d cs IH]; intros Hin Hc; [contradiction|].
  simpl. destruct Hin as [->|Hin].
  - rewrite Hc. left; reflexivity.
  - destruct (truthy (col_binding d)); [|right]; apply IH; assumption.
Qed.

Lemma missing_columns_sound (cs : list column) (o : option string) :
  In o (Validator.missing_columns cs) ->
  exists c, In c cs /\ truthy (col_binding c) = false /\ col_name c = o.
Proof.
  induction cs as [|d cs IH]; intros H; [contradiction|].
  simpl in H. destruct (truthy (col_binding d)) eqn:E.
  - destruct (IH H) as (c & ? & ? & ?). exists c. auto with datatypes.
  - destruct H as [<-|H].
    + exists d. auto with datatypes.
    + destruct (IH H) as (c & ? & ? & ?). exists c. auto with datatypes.
Qed.

Lemma missing_node_bindings_in (prefix : string) (bs : list binding) (b : binding) :
  In b bs -> truthy (get (bd_binding b)) = false ->
  In (Some (prefix ++ fmt (get_default (bd_name b) "unknown")))
     (Validator.missing_node_bindings prefix bs).
Proof.
  induction bs as [|d bs IH]; intros Hin Hb; [contradiction|].
  simpl. destruct Hin as [->|Hin].
  - rewrite Hb. left; reflexivity.
  - destruct (truthy (get (bd_binding d))); [|right]; apply IH; assumption.
Qed.

Lemma missing_node_bindings_some (prefix : string) (bs : list binding) (o : option string) :
  In o (Validator.missing_node_bindings prefix bs) -> o <> None.
Proof.
  induction bs as [|d bs IH]; intros H; [contradiction|].
  simpl in H. destruct (truthy (get (bd_binding d))); [exact (IH H)|].
  destruct H as [<-|H]; [discriminate | exact (IH H)].
Qed.

Lemma missing_secondary_in (ns : list node) (n : node) (b : binding) :
  In n ns -> In b (rn_bindings (node_raw n)) -> truthy (get (bd_binding b)) = false ->
  In (Some (Validator.secondary_prefix n ++ fmt (get_default (bd_name b) "unknown")))
     (Validator.missing_secondary ns).
Proof.
  induction ns as [|m ns IH]; intros Hn Hb Hf; [contradiction|].
  cbn [Validator.missing_secondary]. apply in_or_app. destruct Hn as [->|Hn].
  - left. apply missing_node_bindings_in; assumption.
  - right. apply IH; assumption.
Qed.

Lemma missing_secondary_some (ns : list node) (o : option string) :
  In o (Validator.missing_secondary ns) -> o <> None.
Proof.
  induction ns as [|m ns IH]; intros H; [contradiction|].
  cbn [Validator.missing_secondary] in H. apply in_app_or in H. destruct H as [H|H].
  - eapply missing_node_bindings_some, H.
  - exact (IH H).
Qed.

(** The error text names a path. *)
Definition reports (r : result unit) (path : string) : Prop :=
  exists msg, r = Raise (mkExn ValueError msg) /\ PyStr.contains msg path = true.

(** Every violation of a canonical model, by the path that identifies it. *)
Definition violations (t : table) : list (option string) :=
  List.app (if truthy (t_database t) then [] else [Some "binding_db"])
    (List.app (if truthy (t_schema t) then [] else [Some "binding_schema"])
       (Validator.missing_bindings t)).

(** C2 as the specification words it: one error that lists every violation. *)
Definition lists_every_violation (source : string) (t : table) : Prop :=
  forall path, In (Some path) (violations t) ->
    reports (Validator._validate_bindings source t) path.

Lemma reports_missing (source : string) (names : list string) (path : string) :
  In path names ->
  reports (Raise (mkExn ValueError (Validator.missing_fields_message source names))) path.
Proof.
  intros H. eexists. split; [reflexivity|].
  unfold Validator.missing_fields_message.
  repeat apply contains_append_r. apply contains_join, H.
Qed.

(** C2, counterexample: with the database binding missing as well as three
    field bindings, the error names the database only. *)
Lemma validate_stops_at_missing_database :
  ~ lists_every_violation "orders" (Normalizer._normalize_blueprint Examples.incomplete).
Proof.
  intros H.
  destruct (H "amount") as (msg & E & C).
  - right. left. reflexivity.
  - vm_compute in E. injection E as <-. vm_compute in C. discriminate.
Qed.

(** C2, amended: a missing database, else a missing schema, is reported alone
    and at once; with both set, every column, primary-node key and
    secondary-node key without a binding is collected, and one [ValueError]
    lists them all, each by its column name or node path; with nothing
    missing validation returns. *)
Theorem validate_bindings_accumulates (source : string) (t : table) :
  (forall c, In c (t_columns t) -> truthy (col_binding c) = false -> col_name c <> None) ->
  match truthy (t_database t), truthy (t_schema t) with
  | false, _ =>
      Validator._validate_bindings source t
        = Raise (mkExn ValueError ("Blueprint '" ++ source ++ "' missing binding_db"))
  | true, false =>
      Validator._validate_bindings source t
        = Raise (mkExn ValueError ("Blueprint '" ++ source ++ "' missing binding_schema"))
  | true, true =>
      (Validator.missing_bindings t = [] -> Validator._validate_bindings source t = Ok tt)
      /\ (Validator.missing_bindings t <> [] ->
          exists names,
            Validator._validate_bindings source t
              = Raise (mkExn ValueError (Validator.missing_fields_message source names))
            /\ map Some names = Validator.missing_bindings t
            /\ (forall c n, In c (t_columns t) -> truthy (col_binding c) = false ->
                  col_name c = Some n ->
                  reports (Validator._validate_bindings source t) n)
            /\ (forall b, In b (rn_bindings (node_raw (t_primary_node t))) ->
                  truthy (get (bd_binding b)) = false ->
                  reports (Validator._validate_bindings source t)
                    ("primary_node." ++ fmt (get_default (bd_name b) "unknown")))
            /\ (forall n b, In n (t_secondary_nodes t) -> In b (rn_bindings (node_raw n)) ->
                  truthy (get (bd_binding b)) = false ->
                  reports (Validator._validate_bindings source t)
                    ("secondary_node." ++ fmt (get_default (rn_node (node_raw n)) "unknown")
                       ++ "." ++ fmt (get_default (bd_name b) "unknown"))))
  end.
Proof.
  intros Hnamed. unfold Validator._validate_bindings.
  destruct (truthy (t_database t)); cbn [negb]; [|reflexivity].
  destruct (truthy (t_schema t)); cbn [negb]; [|reflexivity].
  split.
  - intros ->. reflexivity.
  - intros Hne.
    destruct (join_items_named 0 (Validator.missing_bindings t)) as [names E].
    { intros o Ho. unfold Validator.missing_bindings in Ho.
      apply in_app_or in Ho. destruct Ho as [Ho|Ho].
      - apply missing_columns_sound in Ho. destruct Ho as (c & Hc & Hf & <-).
        apply Hnamed; assumption.
      - apply in_app_or in Ho. destruct Ho as [Ho|Ho].
        + eapply missing_node_bindings_some, Ho.
        + eapply missing_secondary_some, Ho. }
    pose proof (join_items_all _ _ _ E) as Hall.
    assert (Hin : forall p, In (Some p) (Validator.missing_bindings t) -> In p names).
    { intros p Hp. rewrite Hall in Hp. apply in_map_iff in Hp.
      destruct Hp as (q & Hq & Hq'). injection Hq as ->. exact Hq'. }
    exists names.
    destruct (Validator.missing_bindings t) as [|m ms] eqn:Em; [contradiction|].
    rewrite E. split; [reflexivity|]. split; [symmetry; exact Hall|].
    rewrite <- Em in Hin. unfold Validator.missing_bindings in Hin.
    split; [|split].
    + intros c n Hc Hf Hn. apply reports_missing, Hin.
      apply in_or_app. left. rewrite <- Hn. apply missing_columns_in; assumption.
    + intros b Hb Hf. apply reports_missing, Hin.
      apply in_or_app. right. apply in_or_app. left.
      apply missing_node_bindings_in; assumption.
    + intros n b Hn Hb Hf. apply reports_missing, Hin.
      apply in_or_app. right. apply in_or_app. right.
      pose proof (missing_secondary_in _ n b Hn Hb Hf) as H.
      unfold Validator.secondary_prefix in H.
      rewrite !string_append_assoc in H. exact H.
Qed.

(** The amended C2 at a blueprint with its database and schema set and three
    bindings missing: all three are listed. *)
Lemma validate_bindings_accumulates_witness :
  (forall c, In c (t_columns (Normalizer._normalize_blueprint Examples.incomplete_with_db)) ->
     truthy (col_binding c) = false -> col_name c <> None)
  /\ exists names,
       Validator._validate_bindings "orders"
         (Normalizer._normalize_blueprint Examples.incomplete_with_db)
         = Raise (mkExn ValueError (Validator.missing_fields_message "orders" names))
       /\ map Some names
          = [Some "amount"; Some "primary_node.order_id";
             Some "secondary_node.customer.customer_id"].
Proof.
  assert (H : forall c,
             In c (t_columns (Normalizer._normalize_blueprint Examples.incomplete_with_db)) ->
             truthy (col_binding c) = false -> col_name c <> None).
  { intros c [<-|[<-|[]]] _; discriminate. }
  split; [exact H|].
  destruct (validate_bindings_accumulates "orders"
              (Normalizer._normalize_blueprint Examples.incomplete_with_db) H) as [_ T].
  destruct T as (names & E & Hn & _); [discriminate|].
  exists names. split; [exact E | exact Hn].
Defined.

(** ** The statement compiler: node and edge statements *)

Section NodeStatements.
Variable w : World.
Variable r : SQLRenderer.

Let tgt : db_schema := bc_target (Compiler.get_base_context r).

Definition node_statement (name : string) : string :=
  Compiler.render w r "create_node.sql" (NodeContext tgt (upper_clean name)).

Definition edge_statement (primary secondary : string) : string :=
  Compiler.render w r "create_edge.sql"
    (EdgeContext tgt (upper_clean primary) (upper_clean secondary)).

Lemma secondary_node_statements_named (ns : list node) (names : list string) :
  map (fun n => rn_node (node_raw n)) ns = map Val names ->
  Compiler.secondary_node_statements w r tgt ns = Ok (map node_statement names).
Proof.
  revert names. induction ns as [|n ns IH]; intros [|s names] H; try discriminate.
  - reflexivity.
  - cbn [map] in H. injection H as Hn Hrest.
    cbn [Compiler.secondary_node_statements]. unfold Compiler.clean_node_name.
    rewrite Hn, (IH _ Hrest). reflexivity.
Qed.

Lemma edge_statements_named (p : string) (ns : list node) (names : list string) :
  map (fun n => rn_node (node_raw n)) ns = map Val names ->
  Compiler.edge_statements w r tgt (upper_clean p) ns = Ok (map (edge_statement p) names).
Proof.
  revert names. induction ns as [|n ns IH]; intros [|s names] H; try discriminate.
  - reflexivity.
  - cbn [map] in H. injection H as Hn Hrest.
    cbn [Compiler.edge_statements]. unfold Compiler.clean_node_name.
    rewrite Hn, (IH _ Hrest). reflexivity.
Qed.

(** C6: for a model whose primary node and k secondary nodes are named,
    [create_nodes] returns exactly 1+k statements, the primary node's and one
    per secondary node whatever its load flag, and [create_edges] returns
    exactly k statements, one per (primary, secondary) pair; with no secondary
    node [create_edges] returns the empty list and does not raise. *)
Theorem create_nodes_and_edges_counts (p : string) (names : list string) :
  rn_node (node_raw (t_primary_node (r_table r))) = Val p ->
  map (fun n => rn_node (node_raw n)) (t_secondary_nodes (r_table r)) = map Val names ->
  let k := List.length (t_secondary_nodes (r_table r)) in
  exists nodes edges,
    Compiler.create_nodes w r = Ok nodes
    /\ nodes = map node_statement (p :: names)
    /\ List.length nodes = 1 + k
    /\ Compiler.create_edges w r = Ok edges
    /\ edges = map (edge_statement p) names
    /\ List.length edges = k
    /\ (k = 0 -> edges = []).
Proof.
  intros Hp Hs k.
  assert (Hk : List.length names = k).
  { unfold k. rewrite <- (length_map (fun n => rn_node (node_raw n))), Hs.
    symmetry. apply length_map. }
  exists (map node_statement (p :: names)), (map (edge_statement p) names).
  repeat split.
  - unfold Compiler.create_nodes, Compiler.clean_node_name. rewrite Hp.
    fold tgt. rewrite (secondary_node_statements_named _ _ Hs). reflexivity.
  - rewrite length_map. simpl. rewrite Hk. reflexivity.
  - unfold Compiler.create_edges, Compiler.clean_node_name. rewrite Hp.
    fold tgt. apply edge_statements_named, Hs.
  - rewrite length_map. exact Hk.
  - intros H0. rewrite H0 in Hk. destruct names; [reflexivity | discriminate].
Qed.

End NodeStatements.

(** The renderer of the blueprint [Examples.assets]: one secondary node,
    whose load flag is false. *)
Definition assets_renderer : SQLRenderer :=
  mkRenderer "assets" true None Examples.the_metadata "erp"
    (Normalizer._normalize_blueprint Examples.assets).

Definition plain_world : World :=
  Examples.world [Examples.assets; Examples.simple "a"; Examples.simple "b"; Examples.simple "c"]
    [Examples.dimension "d1" "a"; Examples.dimension "d2" "b"; Examples.dimension "d3" "c"]
    Examples.nothing_refused true.

(** C6 at a blueprint with one secondary node that is not loaded: two node
    statements, one edge statement. *)
Lemma create_nodes_and_edges_counts_witness :
  rn_node (node_raw (t_primary_node (r_table assets_renderer))) = Val "asset"
  /\ map (fun n => rn_node (node_raw n)) (t_secondary_nodes (r_table assets_renderer))
     = map Val ["site"]
  /\ exists nodes edges,
       Compiler.create_nodes plain_world assets_renderer = Ok nodes
       /\ List.length nodes = 2
       /\ Compiler.create_edges plain_world assets_renderer = Ok edges
       /\ List.length edges = 1.
Proof.
  split; [reflexivity|]. split; [reflexivity|].
  destruct (create_nodes_and_edges_counts plain_world assets_renderer "asset" ["site"]
              eq_refl eq_refl) as (nodes & edges & Hn & _ & Ln & He & _ & Le & _).
  exists nodes, edges. repeat split; assumption.
Defined.

(** ** Derived object names *)

Lemma upper_char_idempotent (c : ascii) :
  PyStr.upper_char (PyStr.upper_char c) = PyStr.upper_char c.
Proof. destruct c as [[] [] [] [] [] [] [] []]; reflexivity. Qed.

Lemma upper_idempotent (s : string) : PyStr.upper (PyStr.upper s) = PyStr.upper s.
Proof.
  unfold PyStr.upper. induction s as [|c s IH]; [reflexivity|].
  cbn [PyStr.map_chars]. rewrite upper_char_idempotent, IH. reflexivity.
Qed.

Lemma clean_char_idempotent (c : ascii) :
  PyStr.upper_char (PyStr.space_to_underscore
    (PyStr.upper_char (PyStr.space_to_underscore c)))
  = PyStr.upper_char (PyStr.space_to_underscore c).
Proof. destruct c as [[] [] [] [] [] [] [] []]; reflexivity. Qed.

(** Cleaning a physical name again changes nothing. *)
Lemma upper_clean_idempotent (s : string) : upper_clean (upper_clean s) = upper_clean s.
Proof.
  unfold upper_clean, PyStr.upper, PyStr.replace_spaces.
  induction s as [|c s IH]; [reflexivity|].
  cbn [PyStr.map_chars]. rewrite clean_char_idempotent, IH. reflexivity.
Qed.

Lemma flat_map_through_map {A B C} (f : A -> B) (g : B -> list C) (l : list A) :
  flat_map (fun a => g (f a)) l = flat_map g (map f l).
Proof. induction l as [|a l IH]; simpl; [reflexivity | rewrite IH; reflexivity]. Qed.

Definition label_of (o : option string) : list string :=
  match o with
  | Some s => ["NODE_" ++ PyStr.upper s]
  | None => []
  end.

Definition edge_label_of (p : string) (o : option string) : list string :=
  match o with
  | Some s => ["EDGE_" ++ PyStr.upper p ++ "_" ++ PyStr.upper s]
  | None => []
  end.

Lemma node_names_from_key (bp : blueprint) :
  Utilities.node_names bp
  = List.app (label_of (Utilities.truthy_node (bp_primary_node bp)))
      (flat_map label_of (map Utilities.truthy_node (bp_secondary_nodes bp))).
Proof.
  unfold Utilities.node_names. f_equal.
  apply (flat_map_through_map Utilities.truthy_node label_of).
Qed.

Lemma edge_names_from_key (bp : blueprint) :
  Utilities.edge_names bp
  = match Utilities.truthy_node (bp_primary_node bp) with
    | Some p => flat_map (edge_label_of p) (map Utilities.truthy_node (bp_secondary_nodes bp))
    | None => []
    end.
Proof.
  unfold Utilities.edge_names. destruct (Utilities.truthy_node (bp_primary_node bp)) as [p|].
  - apply (flat_map_through_map Utilities.truthy_node (edge_label_of p)).
  - reflexivity.
Qed.

(** C9: the derived object names (VIEW_, STREAM_, TASK_, NODE_, EDGE_, ATTR_)
    are a function of the model's binding object, source and node names alone:
    two computations from models that agree on these, and so two computations
    from the same unchanged model, give identical names. *)
Theorem derived_names_deterministic (u1 u2 : Utilities.bp_info) :
  Summary.naming_key u1 = Summary.naming_key u2 ->
  Summary.derived_object_names u1 = Summary.derived_object_names u2.
Proof.
  unfold Summary.naming_key. intros H. injection H as Hbo Hsrc Hp Hs.
  unfold Summary.derived_object_names.
  rewrite !node_names_from_key, !edge_names_from_key, Hbo, Hsrc, Hp, Hs.
  reflexivity.
Qed.

(** The unit of [Examples.assets] and a copy whose id, display name, columns
    and key bindings differ. *)
Definition assets_unit : Utilities.bp_info :=
  Utilities.mkBpInfo "assets" (Some "erp") Examples.assets.

Definition assets_unit_edited : Utilities.bp_info :=
  Utilities.mkBpInfo "assets_v2" (Some "erp")
    {| bp_id := Val "assets_v2";
       bp_name := Val "Asset register (edited)";
       bp_binding_object := Val "TEST_ASSET_REGISTER";
       bp_binding_db := Val "RAW2";
       bp_binding_schema := Val "PUBLIC";
       bp_where_clause := Val "ACTIVE = 1";
       bp_delete_condition := Missing;
       bp_ingest_time_binding := Null;
       bp_ingest_time := Missing;
       bp_columns := [];
       bp_primary_node := mkRawNode (Val "asset") [] Missing;
       bp_secondary_nodes := [mkRawNode (Val "site") [] (Val true)] |}.

(** C9 at two such models, and the names themselves. *)
Lemma derived_names_deterministic_witness :
  Summary.naming_key assets_unit = Summary.naming_key assets_unit_edited
  /\ Summary.derived_object_names assets_unit = Summary.derived_object_names assets_unit_edited
  /\ Summary.derived_object_names assets_unit
     = Ok (Some (Summary.mkDerived "VIEW_TEST_ASSET_REGISTER" "STREAM_TEST_ASSET_REGISTER"
                   "TASK_TEST_ASSET_REGISTER" ["NODE_ASSET"; "NODE_SITE"] ["EDGE_ASSET_SITE"]
                   (Some "ATTR_ASSET_TEST_ASSET_REGISTER_ERP"))).
Proof.
  split; [reflexivity|]. split.
  - apply (derived_names_deterministic assets_unit assets_unit_edited). reflexivity.
  - reflexivity.
Defined.

(** ** The full-refresh statement *)











Lemma new_renderer_history {L W} (w : World) (source : string) (ro : bool) (db : option string)
    (h : history) (l : L) :
  exists ok,
    final_history (@Compiler.new_renderer w L W source ro db h l)
    = (h ++ [mkEntry (CLookup source) ok])%list.
Proof. unfold Compiler.new_renderer. eexists. reflexivity. Qed.



(** ** Reasoning about generators *)

Section GenFacts.
Context {L W : Type}.

(** A computation that never raises. *)
Definition total {A} (m : gen L W A) : Prop :=
  forall h l, exists a, outcome (m h l) = Ok a.

(** A computation whose calls all satisfy [C] and whose events all satisfy
    [P]; the log it is given is only extended. *)
Definition confined (C : call -> Prop) (P : W -> Prop) {A} (m : gen L W A) : Prop :=
  forall h l, exists h',
    final_history (m h l) = (h ++ h')%list
    /\ Forall (fun e => C (e_call e)) h'
    /\ Forall P (yielded (m h l)).

Lemma total_ret {A} (a : A) : total (ret a).
Proof. intros h l. exists a. reflexivity. Qed.

Lemma total_yield (x : W) : total (yield x).
Proof. intros h l. exists tt. reflexivity. Qed.

Lemma total_modify (f : L -> L) : total (modify f).
Proof. intros h l. exists tt. reflexivity. Qed.

Lemma total_get_locals : total (@get_locals L W).
Proof. intros h l. exists l. reflexivity. Qed.

Lemma total_get_history : total (@get_history L W).
Proof. intros h l. exists h. reflexivity. Qed.

Lemma total_log_call (c : call) (ok : bool) : total (@log_call L W c ok).
Proof. intros h l. exists tt. reflexivity. Qed.

Lemma total_bind {A B} (m : gen L W A) (f : A -> gen L W B) :
  total m -> (forall a, total (f a)) -> total (bind m f).
Proof.
  intros Hm Hf h l. unfold bind. destruct (Hm h l) as [a Ha].
  destruct (m h l) as [[[r h1] l1] w1]. cbn in Ha. subst r.
  destruct (Hf a h1 l1) as [b Hb].
  destruct (f a h1 l1) as [[[r2 h2] l2] w2]. cbn in Hb. subst r2.
  exists b. reflexivity.
Qed.

Lemma total_try_catch {A} (m : gen L W A) (handler : exn -> gen L W A) :
  (forall e, total (handler e)) -> total (try_catch m handler).
Proof.
  intros Hh h l. unfold try_catch.
  destruct (m h l) as [[[[a|e] h1] l1] w1].
  - exists a. reflexivity.
  - destruct (Hh e h1 l1) as [b Hb].
    destruct (handler e h1 l1) as [[[r2 h2] l2] w2]. cbn in Hb. subst r2.
    exists b. reflexivity.
Qed.

Lemma total_for_each {X} (xs : list X) (body : X -> gen L W unit) :
  (forall x, total (body x)) -> total (for_each xs body).
Proof.
  intros Hb. induction xs as [|x xs IH]; cbn [for_each].
  - apply total_ret.
  - apply total_bind; [apply Hb | intros _; exact IH].
Qed.

Lemma total_fold_gen {X C} (xs : list X) (c : C) (body : C -> X -> gen L W C) :
  (forall c x, total (body c x)) -> total (fold_gen xs c body).
Proof.
  intros Hb. revert c. induction xs as [|x xs IH]; intros c; cbn [fold_gen].
  - apply total_ret.
  - apply total_bind; [apply Hb | intros c'; apply IH].
Qed.

Lemma confined_ret C P {A} (a : A) : confined C P (ret a).
Proof. intros h l. exists []. cbn. rewrite app_nil_r. auto. Qed.

Lemma confined_raise C P {A} (e : exn) : confined C P (@raise L W A e).
Proof. intros h l. exists []. cbn. rewrite app_nil_r. auto. Qed.

Lemma confined_lift_result C P {A} (r : result A) : confined C P (@lift_result L W A r).
Proof. destruct r; [apply confined_ret | apply confined_raise]. Qed.

Lemma confined_yield (C : call -> Prop) (P : W -> Prop) (x : W) : P x -> confined C P (yield x).
Proof. intros Hx h l. exists []. cbn. rewrite app_nil_r. auto. Qed.

Lemma confined_modify C P (f : L -> L) : confined C P (modify f).
Proof. intros h l. exists []. cbn. rewrite app_nil_r. auto. Qed.

Lemma confined_get_locals C P : confined C P (@get_locals L W).
Proof. intros h l. exists []. cbn. rewrite app_nil_r. auto. Qed.

Lemma confined_get_history C P : confined C P (@get_history L W).
Proof. intros h l. exists []. cbn. rewrite app_nil_r. auto. Qed.

Lemma confined_log_call (C : call -> Prop) P (c : call) (ok : bool) :
  C c -> confined C P (@log_call L W c ok).
Proof. intros Hc h l. exists [mkEntry c ok]. cbn. auto. Qed.

Lemma confined_world_call (C : call -> Prop) P {A} (c : call) (answer : history -> result A) :
  C c -> confined C P (@world_call L W A c answer).
Proof. intros Hc h l. eexists [_]. cbn. split; [reflexivity|]. auto. Qed.

Lemma confined_bind C P {A B} (m : gen L W A) (f : A -> gen L W B) :
  confined C P m -> (forall a, confined C P (f a)) -> confined C P (bind m f).
Proof.
  intros Hm Hf h l. unfold bind. destruct (Hm h l) as (h1' & Eh & Hc & Hp).
  destruct (m h l) as [[[[a|e] h1] l1] w1]; cbn in Eh, Hp; subst h1.
  - destruct (Hf a (h ++ h1')%list l1) as (h2' & Eh2 & Hc2 & Hp2).
    destruct (f a (h ++ h1')%list l1) as [[[r2 h2] l2] w2]. cbn in Eh2, Hp2. subst h2.
    exists (h1' ++ h2')%list. cbn. rewrite app_assoc.
    split; [reflexivity|]. split; apply Forall_app; auto.
  - exists h1'. cbn. auto.
Qed.

Lemma confined_try_catch C P {A} (m : gen L W A) (handler : exn -> gen L W A) :
  confined C P m -> (forall e, confined C P (handler e)) -> confined C P (try_catch m handler).
Proof.
  intros Hm Hf h l. unfold try_catch. destruct (Hm h l) as (h1' & Eh & Hc & Hp).
  destruct (m h l) as [[[[a|e] h1] l1] w1]; cbn in Eh, Hp; subst h1.
  - exists h1'. cbn. auto.
  - destruct (Hf e (h ++ h1')%list l1) as (h2' & Eh2 & Hc2 & Hp2).
    destruct (handler e (h ++ h1')%list l1) as [[[r2 h2] l2] w2]. cbn in Eh2, Hp2. subst h2.
    exists (h1' ++ h2')%list. cbn. rewrite app_assoc.
    split; [reflexivity|]. split; apply Forall_app; auto.
Qed.

Lemma confined_for_each C P {X} (xs : list X) (body : X -> gen L W unit) :
  (forall x, confined C P (body x)) -> confined C P (for_each xs body).
Proof.
  intros Hb. induction xs as [|x xs IH]; cbn [for_each].
  - apply confined_ret.
  - apply confined_bind; [apply Hb | intros _; exact IH].
Qed.

Lemma confined_fold_gen C P {X S} (xs : list X) (c : S) (body : S -> X -> gen L W S) :
  (forall c x, confined C P (body c x)) -> confined C P (fold_gen xs c body).
Proof.
  intros Hb. revert c. induction xs as [|x xs IH]; intros c; cbn [fold_gen].
  - apply confined_ret.
  - apply confined_bind; [apply Hb | intros c'; apply IH].
Qed.

Lemma confined_weaken (C C' : call -> Prop) (P P' : W -> Prop) {A} (m : gen L W A) :
  (forall c, C c -> C' c) -> (forall x, P x -> P' x) -> confined C P m -> confined C' P' m.
Proof.
  intros HC HP Hm h l. destruct (Hm h l) as (h' & E & Hc & Hp). exists h'.
  split; [exact E|]. split; eapply Forall_impl; eauto. intros e; apply HC.
Qed.

Lemma confined_new_renderer (C : call -> Prop) P (w : World) (source : string) (ro : bool)
    (db : option string) :
  C (CLookup source) -> confined C P (@Compiler.new_renderer w L W source ro db).
Proof. intros Hc h l. eexists [_]. cbn. split; [reflexivity|]. auto. Qed.

Lemma confined_run (C : call -> Prop) P (w : World) (sql : string) :
  C (CRun sql []) -> confined C P (@Compiler.run w L W sql).
Proof. intros Hc. apply confined_world_call, Hc. Qed.

End GenFacts.

(** Goals about [total] and [confined] follow the shape of the program. *)
Ltac gen_step :=
  match goal with
  | |- total (bind _ _) => apply total_bind; [|intros]
  | |- total (try_catch _ _) => apply total_try_catch; intros
  | |- total (for_each _ _) => apply total_for_each; intros
  | |- total (fold_gen _ _ _) => apply total_fold_gen; intros
  | |- total (ret _) => apply total_ret
  | |- total (yield _) => apply total_yield
  | |- total (modify _) => apply total_modify
  | |- total get_locals => apply total_get_locals
  | |- total get_history => apply total_get_history
  | |- total (log_call _ _) => apply total_log_call
  | |- confined _ _ (bind _ _) => apply confined_bind; [|intros]
  | |- confined _ _ (try_catch _ _) => apply confined_try_catch; [|intros]
  | |- confined _ _ (for_each _ _) => apply confined_for_each; intros
  | |- confined _ _ (fold_gen _ _ _) => apply confined_fold_gen; intros
  | |- confined _ _ (ret _) => apply confined_ret
  | |- confined _ _ (raise _) => apply confined_raise
  | |- confined _ _ (lift_result _) => apply confined_lift_result
  | |- confined _ _ (yield _) => apply confined_yield
  | |- confined _ _ (modify _) => apply confined_modify
  | |- confined _ _ get_locals => apply confined_get_locals
  | |- confined _ _ get_history => apply confined_get_history
  | |- confined _ _ (log_call _ _) => apply confined_log_call
  | |- confined _ _ (world_call _ _) => apply confined_world_call
  | |- confined _ _ (Compiler.new_renderer _ _ _ _) => apply confined_new_renderer
  | |- confined _ _ (Compiler.run _ _) => apply confined_run
  | |- confined _ _ (Compiler.run_with _ _ _) => apply confined_world_call
  | |- total (if ?b then _ else _) => destruct b
  | |- confined _ _ (if ?b then _ else _) => destruct b
  | |- total (match ?x with _ => _ end) => destruct x
  | |- confined _ _ (match ?x with _ => _ end) => destruct x
  | |- total (let _ := _ in _) => cbv zeta
  | |- confined _ _ (let _ := _ in _) => cbv zeta
  end.

(** ** The deployed-status record of a streamed blueprint deployment *)

Section StatusUpdate.
Variable w : World.

(** The calls of one status update: the connection, then, when it opened, the
    one UPDATE statement with the object list, the error and the blueprint. *)
Definition status_update_calls (blueprint_id : string) (deployed : list string)
    (error_message : option string) (connected updated : bool) : history :=
  mkEntry CConnect connected
    :: (if connected
        then [mkEntry (CRun (Blueprints.update_sql w)
                         [Blueprints.deployed_json deployed; error_message; Some blueprint_id])
                      updated]
        else []).

(** The status update never raises, whatever the warehouse answers. *)
Lemma update_status_run (blueprint_id : string) (deployed : list string)
    (error_message : option string) (h : history) (l : Blueprints.locals) :
  exists connected updated,
    Blueprints._update_blueprint_deployed_status w blueprint_id deployed error_message h l
    = (Ok tt, (h ++ status_update_calls blueprint_id deployed error_message connected updated)%list,
       l, []).
Proof.
  unfold Blueprints._update_blueprint_deployed_status, try_catch, bind, world_call,
    Compiler.run_with, world_call, ret, status_update_calls.
  destruct (connect w h) as [[]|e]; cbn [is_ok].
  - set (h1 := (h ++ [mkEntry CConnect true])%list).
    destruct (client_run w h1 (Blueprints.update_sql w)
                [Blueprints.deployed_json deployed; error_message; Some blueprint_id]) as [rs|e];
      cbn [is_ok]; [exists true, true | exists true, false];
      unfold h1; rewrite <- !app_assoc; reflexivity.
  - exists false, false. rewrite app_nil_r. reflexivity.
Qed.

Definition not_connect (c : call) : Prop := c <> CConnect.

Lemma not_connect_run (sql : string) (params : list (option string)) :
  not_connect (CRun sql params).
Proof. discriminate. Qed.

Lemma not_connect_lookup (s : string) : not_connect (CLookup s).
Proof. discriminate. Qed.

Ltac steps_confined :=
  repeat first
    [ gen_step
    | apply not_connect_run
    | apply not_connect_lookup
    | exact I ].

(** The deployment steps use the shared client only: they open no connection
    and thus make no status update. *)
Lemma deploy_steps_confined (blueprint_id : string) (ro rf : bool) (db : option string) :
  confined not_connect (fun _ => True)
    (Blueprints.deploy_steps w blueprint_id ro rf db).
Proof.
  unfold Blueprints.deploy_steps, Blueprints.with_renderer,
    Blueprints.step_database_validation,
    Blueprints.step_source_validation, Blueprints.step_stage_view, Blueprints.step_stream,
    Blueprints.step_nodes, Blueprints.step_edges, Blueprints.step_attributes,
    Blueprints.step_mti, Blueprints.step_task, Blueprints.step_full_refresh,
    Blueprints.data_summary, Blueprints.run_all, Blueprints.step_done, Blueprints.track.
  steps_confined.
Qed.

End StatusUpdate.

Section Tracking.
Variable w : World.

Abbreviation BG := (gen Blueprints.locals event).

(** A computation that, when it returns, has appended [X] to the tracked
    objects. *)
Definition tracks {A} (X : list string) (m : BG A) : Prop :=
  forall h l, is_ok (outcome (m h l)) = true ->
    Blueprints.deployed_objects (final_locals (m h l))
    = (Blueprints.deployed_objects l ++ X)%list.

(** A computation that leaves the tracked objects alone, also when it raises. *)
Definition keeps {A} (m : BG A) : Prop :=
  forall h l,
    Blueprints.deployed_objects (final_locals (m h l)) = Blueprints.deployed_objects l.

Lemma keeps_tracks {A} (m : BG A) : keeps m -> tracks [] m.
Proof. intros H h l _. rewrite app_nil_r. apply H. Qed.

Lemma keeps_ret {A} (a : A) : keeps (ret a : BG A).
Proof. intros h l. reflexivity. Qed.

Lemma keeps_raise {A} (e : exn) : keeps (raise e : BG A).
Proof. intros h l. reflexivity. Qed.

Lemma keeps_lift_result {A} (r : result A) : keeps (lift_result r : BG A).
Proof. destruct r; intros h l; reflexivity. Qed.

Lemma keeps_yield (e : event) : keeps (yield e : BG unit).
Proof. intros h l. reflexivity. Qed.

Lemma keeps_run (sql : string) : keeps (Compiler.run w sql : BG rows).
Proof. intros h l. reflexivity. Qed.

Lemma keeps_step_done (s : string) : keeps (Blueprints.step_done s).
Proof. intros h l. reflexivity. Qed.

Lemma keeps_bind {A B} (m : BG A) (f : A -> BG B) :
  keeps m -> (forall a, keeps (f a)) -> keeps (bind m f).
Proof.
  intros Hm Hf h l. unfold bind. specialize (Hm h l).
  destruct (m h l) as [[[[a|e] h1] l1] w1]; cbn in Hm |- *.
  - specialize (Hf a h1 l1). destruct (f a h1 l1) as [[[r2 h2] l2] w2]. cbn in *. congruence.
  - exact Hm.
Qed.

Lemma keeps_try_catch {A} (m : BG A) (handler : exn -> BG A) :
  keeps m -> (forall e, keeps (handler e)) -> keeps (try_catch m handler).
Proof.
  intros Hm Hf h l. unfold try_catch. specialize (Hm h l).
  destruct (m h l) as [[[[a|e] h1] l1] w1]; cbn in Hm |- *.
  - exact Hm.
  - specialize (Hf e h1 l1). destruct (handler e h1 l1) as [[[r2 h2] l2] w2]. cbn in *. congruence.
Qed.

Lemma keeps_for_each {X} (xs : list X) (body : X -> BG unit) :
  (forall x, keeps (body x)) -> keeps (for_each xs body).
Proof.
  intros Hb. induction xs as [|x xs IH]; cbn [for_each].
  - apply keeps_ret.
  - apply keeps_bind; [apply Hb | intros _; exact IH].
Qed.

Lemma tracks_track (name : string) : tracks [name] (Blueprints.track name).
Proof. intros h l _. reflexivity. Qed.

Lemma tracks_bind {A B} (X Y : list string) (m : BG A) (f : A -> BG B) :
  tracks X m -> (forall a, tracks Y (f a)) -> tracks (X ++ Y) (bind m f).
Proof.
  intros Hm Hf h l. unfold bind. specialize (Hm h l).
  destruct (m h l) as [[[[a|e] h1] l1] w1]; cbn in Hm |- *.
  - specialize (Hf a h1 l1). destruct (f a h1 l1) as [[[r2 h2] l2] w2]. cbn in *.
    intros Hok. rewrite (Hf Hok), (Hm eq_refl), app_assoc. reflexivity.
  - discriminate.
Qed.

(** After a step that leaves the list alone. *)
Lemma tracks_after {A B} (Y : list string) (m : BG A) (f : A -> BG B) :
  keeps m -> (forall a, tracks Y (f a)) -> tracks Y (bind m f).
Proof. intros Hm Hf. apply (tracks_bind [] Y); [apply keeps_tracks, Hm | exact Hf]. Qed.

(** Before steps that leave the list alone. *)
Lemma tracks_then {A B} (X : list string) (m : BG A) (f : A -> BG B) :
  tracks X m -> (forall a, keeps (f a)) -> tracks X (bind m f).
Proof.
  intros Hm Hf. rewrite <- (app_nil_r X).
  apply tracks_bind; [exact Hm | intros a; apply keeps_tracks, Hf].
Qed.

(** A value that must be there for the computation to go on. *)
Lemma tracks_lift {A B} (Y : list string) (r : result A) (f : A -> BG B) :
  (forall a, r = Ok a -> tracks Y (f a)) -> tracks Y (bind (lift_result r) f).
Proof.
  intros Hf. destruct r as [a|e].
  - intros h l. specialize (Hf a eq_refl h l).
    unfold bind, lift_result, ret. destruct (f a h l) as [[[r2 h2] l2] w2]. exact Hf.
  - intros h l H. discriminate H.
Qed.

End Tracking.

Ltac keeps_auto :=
  repeat first
    [ apply keeps_bind; [|intros]
    | apply keeps_try_catch; [|intros]
    | apply keeps_for_each; intros
    | apply keeps_ret
    | apply keeps_raise
    | apply keeps_lift_result
    | apply keeps_yield
    | apply keeps_run
    | apply keeps_step_done
    | match goal with
      | |- keeps (if ?b then _ else _) => destruct b
      | |- keeps (match ?x with _ => _ end) => destruct x
      | |- keeps (let _ := _ in _) => cbv zeta
      end ].

Section TrackedObjects.
Variable w : World.

Definition text_upper (o : option string) : string :=
  match o with Some s => PyStr.upper s | None => EmptyString end.

Definition node_upper (n : node) : string :=
  match rn_node (node_raw n) with Val s => PyStr.upper s | _ => EmptyString end.

Lemma upper_opt_ok (o : option string) (s : string) :
  Blueprints.upper_opt o = Ok s -> s = text_upper o.
Proof. destruct o; intros H; [injection H as <-; reflexivity | discriminate]. Qed.

Lemma upper_node_name_ok (n : node) (s : string) :
  Compiler.upper_node_name n = Ok s -> s = node_upper n.
Proof.
  unfold Compiler.upper_node_name, node_upper.
  destruct (rn_node (node_raw n)); intros H; try discriminate. injection H as <-. reflexivity.
Qed.

Definition node_object (db sc : string) (n : node) : string :=
  db ++ "." ++ sc ++ ".NODE_" ++ node_upper n.

Definition edge_object (db sc : string) (primary n : node) : string :=
  db ++ "." ++ sc ++ ".EDGE_" ++ node_upper primary ++ "_" ++ node_upper n.

Definition loaded_node_objects (db sc : string) (secondary : list node) : list string :=
  flat_map (fun n => if Blueprints.load_flag n then [node_object db sc n] else []) secondary.

Definition attribute_object (db sc : string) (r : SQLRenderer) : string :=
  db ++ "." ++ sc ++ "." ++ "ATTR_" ++ node_upper (t_primary_node (r_table r)) ++ "_"
    ++ text_upper (t_name (r_table r)) ++ "_" ++ Blueprints.source_upper r.

(** The objects a successful deployment has tracked, in order: stage view,
    stream, primary node, the secondary nodes whose load flag is set, every
    edge, the attribute table, the task. *)
Definition tracked_objects (r : SQLRenderer) : list string :=
  let context := Compiler.get_base_context r in
  let target_db := ds_database (bc_target context) in
  let target_schema := ds_schema (bc_target context) in
  let stage_db := ds_database (bc_stage context) in
  let stage_schema := ds_schema (bc_stage context) in
  let bo := text_upper (t_name (r_table r)) in
  let primary := t_primary_node (r_table r) in
  let secondary := t_secondary_nodes (r_table r) in
  List.app [stage_db ++ "." ++ stage_schema ++ ".STG_" ++ bo ++ "_" ++ PyStr.upper (r_source_name r)]
    (List.app [stage_db ++ "." ++ stage_schema ++ "." ++ "STREAM_" ++ bo]
       (List.app (node_object target_db target_schema primary
                    :: loaded_node_objects target_db target_schema secondary)
          (List.app (map (edge_object target_db target_schema primary) secondary)
             (List.app [attribute_object target_db target_schema r]
                [stage_db ++ "." ++ stage_schema ++ "." ++ "TASK_" ++ bo])))).

Lemma tracks_for_each {X} (g : X -> list string) (xs : list X)
    (body : X -> gen Blueprints.locals event unit) :
  (forall x, tracks (g x) (body x)) -> tracks (flat_map g xs) (for_each xs body).
Proof.
  intros Hb. induction xs as [|x xs IH]; cbn [for_each flat_map].
  - apply keeps_tracks, keeps_ret.
  - apply tracks_bind; [apply Hb | intros _; exact IH].
Qed.

Lemma keeps_run_all (sqls : list string) : keeps (Blueprints.run_all w sqls).
Proof. unfold Blueprints.run_all. keeps_auto. Qed.

Lemma keeps_database_validation (db : string) : keeps (Blueprints.step_database_validation w db).
Proof. unfold Blueprints.step_database_validation. keeps_auto. Qed.

Lemma keeps_source_validation (id : string) : keeps (Blueprints.step_source_validation id).
Proof. unfold Blueprints.step_source_validation. keeps_auto. Qed.

Lemma keeps_mti (r : SQLRenderer) : keeps (Blueprints.step_mti w r).
Proof. unfold Blueprints.step_mti. keeps_auto. Qed.

Lemma keeps_full_refresh (r : SQLRenderer) (db sc : string) :
  keeps (Blueprints.step_full_refresh w r db sc).
Proof. unfold Blueprints.step_full_refresh, Blueprints.data_summary. keeps_auto. Qed.

Lemma tracks_stage_view (r : SQLRenderer) (sd ss : string) (bo : option string) :
  tracks [sd ++ "." ++ ss ++ ".STG_" ++ text_upper bo ++ "_" ++ PyStr.upper (r_source_name r)]
    (Blueprints.step_stage_view w r sd ss bo).
Proof.
  unfold Blueprints.step_stage_view. apply tracks_lift. intros s E.
  rewrite (upper_opt_ok _ _ E).
  apply tracks_after; [keeps_auto | intros _].
  apply tracks_after; [keeps_auto | intros _].
  apply tracks_then; [apply tracks_track | intros _; keeps_auto].
Qed.

Lemma tracks_stream (r : SQLRenderer) (sd ss : string) (bo : option string) :
  tracks [sd ++ "." ++ ss ++ "." ++ "STREAM_" ++ text_upper bo]
    (Blueprints.step_stream w r sd ss bo).
Proof.
  unfold Blueprints.step_stream. apply tracks_lift. intros s E.
  rewrite (upper_opt_ok _ _ E). cbv zeta.
  apply tracks_after; [keeps_auto | intros _].
  apply tracks_after; [keeps_auto | intros _].
  apply tracks_then; [apply tracks_track | intros _; keeps_auto].
Qed.

Lemma tracks_nodes (r : SQLRenderer) (db sc : string) :
  tracks (node_object db sc (t_primary_node (r_table r))
            :: loaded_node_objects db sc (t_secondary_nodes (r_table r)))
    (Blueprints.step_nodes w r db sc).
Proof.
  change (tracks (List.app [node_object db sc (t_primary_node (r_table r))]
                    (loaded_node_objects db sc (t_secondary_nodes (r_table r))))
            (Blueprints.step_nodes w r db sc)).
  unfold Blueprints.step_nodes.
  apply tracks_after; [keeps_auto | intros _].
  apply tracks_lift. intros sqls _.
  apply tracks_lift. intros p E. rewrite (upper_node_name_ok _ _ E).
  apply tracks_bind; [apply tracks_track | intros _].
  apply tracks_after; [apply keeps_run_all | intros _].
  apply tracks_then; [|intros _; keeps_auto].
  apply tracks_for_each. intros n. destruct (Blueprints.load_flag n).
  - apply tracks_lift. intros s E'. rewrite (upper_node_name_ok _ _ E'). apply tracks_track.
  - apply keeps_tracks, keeps_ret.
Qed.

Lemma flat_map_singleton {A B} (f : A -> B) (l : list A) :
  flat_map (fun a => [f a]) l = map f l.
Proof. induction l as [|a l IH]; simpl; [reflexivity | rewrite IH; reflexivity]. Qed.

Lemma tracks_edges (r : SQLRenderer) (db sc : string) :
  tracks (map (edge_object db sc (t_primary_node (r_table r))) (t_secondary_nodes (r_table r)))
    (Blueprints.step_edges w r db sc).
Proof.
  rewrite <- flat_map_singleton.
  unfold Blueprints.step_edges.
  apply tracks_after; [keeps_auto | intros _].
  apply tracks_lift. intros sqls _.
  apply tracks_lift. intros p E. rewrite (upper_node_name_ok _ _ E).
  apply tracks_then; [|intros _; keeps_auto; apply keeps_run_all].
  apply tracks_for_each. intros n.
  apply tracks_lift. intros s E'. rewrite (upper_node_name_ok _ _ E'). apply tracks_track.
Qed.

Lemma attr_table_name_ok (r : SQLRenderer) (s : string) :
  Blueprints.attr_table_name_of r = Ok s ->
  s = "ATTR_" ++ node_upper (t_primary_node (r_table r)) ++ "_"
        ++ text_upper (t_name (r_table r)) ++ "_" ++ Blueprints.source_upper r.
Proof.
  unfold Blueprints.attr_table_name_of.
  destruct (Compiler.upper_node_name (t_primary_node (r_table r))) as [p|] eqn:Ep; [|discriminate].
  destruct (Blueprints.upper_opt (t_name (r_table r))) as [t|] eqn:Et; [|discriminate].
  intros H. injection H as <-.
  rewrite (upper_node_name_ok _ _ Ep), (upper_opt_ok _ _ Et). reflexivity.
Qed.

Lemma tracks_attributes (r : SQLRenderer) (db sc : string) :
  tracks [attribute_object db sc r] (Blueprints.step_attributes w r db sc).
Proof.
  unfold Blueprints.step_attributes. apply tracks_lift. intros s E.
  rewrite (attr_table_name_ok _ _ E). cbv zeta.
  apply tracks_after; [keeps_auto | intros _].
  apply tracks_after; [keeps_auto | intros _].
  apply tracks_then; [apply tracks_track | intros _; keeps_auto].
Qed.

Lemma tracks_task (r : SQLRenderer) (sd ss : string) (bo : option string) :
  tracks [sd ++ "." ++ ss ++ "." ++ "TASK_" ++ text_upper bo]
    (Blueprints.step_task w r sd ss bo).
Proof.
  unfold Blueprints.step_task. apply tracks_lift. intros s E.
  rewrite (upper_opt_ok _ _ E). cbv zeta.
  apply tracks_after; [keeps_auto | intros _].
  apply tracks_after; [keeps_auto | intros _].
  apply tracks_after; [keeps_auto | intros _].
  apply tracks_then; [apply tracks_track | intros _; keeps_auto].
Qed.

(** On success the steps have tracked exactly [tracked_objects]. *)
Lemma tracks_with_renderer (r : SQLRenderer) (id : string) (rf : bool) :
  tracks (tracked_objects r) (Blueprints.with_renderer w r id rf).
Proof.
  unfold Blueprints.with_renderer, tracked_objects. cbv zeta.
  apply tracks_after; [apply keeps_database_validation | intros _].
  apply tracks_after; [apply keeps_source_validation | intros _].
  apply tracks_bind; [apply tracks_stage_view | intros _].
  apply tracks_bind; [apply tracks_stream | intros _].
  apply tracks_bind; [apply tracks_nodes | intros _].
  apply tracks_bind; [apply tracks_edges | intros _].
  apply tracks_bind; [apply tracks_attributes | intros _].
  apply tracks_after; [apply keeps_mti | intros _].
  apply tracks_then; [apply tracks_task | intros _].
  destruct rf; [apply keeps_full_refresh | apply keeps_ret].
Qed.

End TrackedObjects.

(** ** C10: the status record after a streamed blueprint deployment *)

(** The node tables the node statements of a renderer create. *)
Definition node_tables (r : SQLRenderer) : list string :=
  let context := Compiler.get_base_context r in
  map (node_object (ds_database (bc_target context)) (ds_schema (bc_target context)))
    (t_primary_node (r_table r) :: t_secondary_nodes (r_table r)).

(** C10 as stated, for the node tables: after a successful deployment the list
    written to the status record names every node table that was created. *)
Definition records_every_node_table (w : World) (h : history) (blueprint_id : string)
    (ro rf : bool) (db : option string) : Prop :=
  forall r,
    Compiler.init_from_lookup w blueprint_id ro db (lookup_blueprint w h blueprint_id) = Ok r ->
    outcome (Blueprints.deploy w h blueprint_id ro rf db) = Ok tt ->
    forall name, In name (node_tables r) ->
      In name (Blueprints.deployed_objects (final_locals (Blueprints.deploy w h blueprint_id ro rf db))).

(** C10, counterexample: the blueprint [Examples.assets] has a secondary node
    whose load flag is false; its node table is created, the deployment
    succeeds, and the list written does not name that table. *)
Lemma status_list_omits_unloaded_node :
  ~ records_every_node_table plain_world [] "assets" true false None.
Proof.
  intros H.
  specialize (H assets_renderer eq_refl eq_refl "unified_honey.storage.NODE_SITE").
  assert (Hin : In "unified_honey.storage.NODE_SITE" (node_tables assets_renderer)).
  { right. left. reflexivity. }
  specialize (H Hin). vm_compute in H.
  repeat (destruct H as [H|H]; [discriminate H|]). exact H.
Qed.

(** C10, amended: the deployment's outcome is that of its steps, whatever
    happens to the status update; the steps themselves make no status update
    (they open no connection); after them exactly one update is attempted,
    with the objects tracked so far, and with a null error on success or the
    error message on failure; one last event reports the outcome; and on
    success the tracked objects are the stage view, the stream, the primary
    node table, the node tables of the secondary nodes whose load flag is set,
    every edge table, the attribute table and the task. *)
Theorem status_updated_once (w : World) (h : history) (blueprint_id : string)
    (ro rf : bool) (db : option string) :
  let x := Blueprints.deploy_steps w blueprint_id ro rf db h Blueprints.init_locals in
  let y := Blueprints.deploy w h blueprint_id ro rf db in
  let tracked := Blueprints.deployed_objects (final_locals x) in
  let error := match outcome x with Ok _ => None | Raise e => Some (exn_msg e) end in
  outcome y = outcome x
  /\ (exists own,
        final_history x = (h ++ own)%list /\ Forall (fun e => e_call e <> CConnect) own)
  /\ (exists connected updated,
        final_history y
        = (final_history x
             ++ status_update_calls w blueprint_id tracked error connected updated)%list)
  /\ (exists last,
        yielded y = (yielded x ++ [last])%list
        /\ ev_status last = (if is_ok (outcome x) then "complete" else "failed"))
  /\ (is_ok (outcome x) = true ->
      exists r,
        Compiler.init_from_lookup w blueprint_id ro db (lookup_blueprint w h blueprint_id) = Ok r
        /\ tracked = tracked_objects r).
Proof.
  intros x y tracked error.
  assert (Hown : exists own,
             final_history x = (h ++ own)%list /\ Forall (fun e => e_call e <> CConnect) own).
  { destruct (deploy_steps_confined w blueprint_id ro rf db h Blueprints.init_locals)
      as (own & E & Hc & _). exists own. split; [exact E | exact Hc]. }
  assert (Htracked : is_ok (outcome x) = true ->
            exists r,
              Compiler.init_from_lookup w blueprint_id ro db (lookup_blueprint w h blueprint_id)
                = Ok r
              /\ tracked = tracked_objects r).
  { unfold tracked, x, Blueprints.deploy_steps, bind, yield, Compiler.new_renderer.
    destruct (Compiler.init_from_lookup w blueprint_id ro db
                (lookup_blueprint w h blueprint_id)) as [r|e] eqn:Er; [|discriminate].
    intros Hok. exists r. split; [reflexivity|].
    pose proof (tracks_with_renderer w r blueprint_id rf
                  (h ++ [mkEntry (CLookup blueprint_id)
                           match lookup_blueprint w h blueprint_id with
                           | LookupRaise _ => false
                           | _ => true
                           end])%list Blueprints.init_locals) as T.
    destruct (Blueprints.with_renderer w r blueprint_id rf _ Blueprints.init_locals)
      as [[[r2 h2] l2] w2]. cbn in Hok, T |- *. exact (T Hok). }
  subst y tracked error x. revert Hown Htracked.
  unfold Blueprints.deploy, Blueprints._deploy_single_blueprint_streaming.
  set (m := Blueprints.deploy_steps w blueprint_id ro rf db).
  unfold try_catch, bind, get_locals, yield, raise.
  destruct (m h Blueprints.init_locals) as [[[[[]|e] h1] l1] w1];
    cbn [outcome final_history final_locals yielded fst snd is_ok]; intros Hown Htracked.
  - destruct (update_status_run w blueprint_id (Blueprints.deployed_objects l1) None h1 l1)
      as (connected & updated & ->).
    cbn. repeat split; try assumption.
    + exists connected, updated. reflexivity.
    + eexists. split; reflexivity.
  - destruct (update_status_run w blueprint_id (Blueprints.deployed_objects l1)
                (Some (exn_msg e)) h1 l1) as (connected & updated & ->).
    cbn. repeat split; try assumption.
    + exists connected, updated. reflexivity.
    + eexists. split; reflexivity.
Qed.

(** ** C8: creating and resuming the scheduled task *)

Section TaskCreation.
Variable w : World.








End TaskCreation.






(** ** C4: the order of the stage events *)

Definition governance_step (s : string) : bool :=
  String.eqb s "apply_tags" || String.eqb s "apply_grants".

(** The steps of the events of a run, those of tagging and granting left out. *)
Definition stage_steps (evs : list event) : list string :=
  filter (fun s => negb (governance_step s)) (map ev_step evs).

(** Consecutive repetitions collapsed. *)
Fixpoint dedup_from (prev : option string) (l : list string) : list string :=
  match l with
  | [] => []
  | x :: l' =>
      match prev with
      | Some p => if String.eqb p x then dedup_from prev l' else x :: dedup_from (Some x) l'
      | None => x :: dedup_from (Some x) l'
      end
  end.

(** The sequence of stages a run's events go through. *)
Definition stage_sequence (evs : list event) : list string :=
  dedup_from None (stage_steps evs).

(** The stages as the specification lists them. *)
Definition stated_stages (run_full_refresh : bool) : list string :=
  List.app ["staging"; "data_processing"; "key_storage"; "build_relationships"; "data_storage";
            "supporting_artefacts"; "model_deployment"]
    (List.app (if run_full_refresh then ["seed_load"] else []) ["complete"]).

(** The stages that emit events. *)
Definition emitted_stages (run_full_refresh : bool) : list string :=
  List.app ["staging"; "data_processing"; "key_storage"; "build_relationships"; "data_storage";
            "model_deployment"]
    (List.app (if run_full_refresh then ["seed_load"] else []) ["complete"]).

(** An event of stage [s], or one of tagging or granting. *)
Definition only (s : string) (ev : event) : Prop :=
  ev_step ev = s \/ governance_step (ev_step ev) = true.

Lemma stage_steps_app (e1 e2 : list event) :
  stage_steps (e1 ++ e2) = (stage_steps e1 ++ stage_steps e2)%list.
Proof. unfold stage_steps. rewrite map_app, filter_app. reflexivity. Qed.

Lemma stage_steps_only (s : string) (evs : list event) :
  governance_step s = false -> Forall (only s) evs ->
  exists n, stage_steps evs = repeat s n.
Proof.
  intros Hs H. induction H as [|ev evs [E|E] _ [n IH]].
  - exists 0. reflexivity.
  - exists (S n). unfold stage_steps in *. cbn [map filter]. rewrite E, Hs. cbn [negb repeat].
    rewrite IH. reflexivity.
  - exists n. unfold stage_steps in *. cbn [map filter]. rewrite E. cbn [negb]. exact IH.
Qed.

Lemma dedup_from_repeat (s : string) (n : nat) (l : list string) :
  dedup_from (Some s) (repeat s n ++ l) = dedup_from (Some s) l.
Proof.
  induction n as [|n IH]; [reflexivity|].
  cbn [repeat List.app dedup_from]. rewrite String.eqb_refl. exact IH.
Qed.

(** A call other than the insert of an audit record. *)
Definition no_audit (c : call) : Prop :=
  match c with
  | CAudit _ _ => False
  | _ => True
  end.

Definition quiet (h : history) : Prop := Forall (fun e => no_audit (e_call e)) h.

Lemma quiet_persisted (h : history) : quiet h -> DeploymentLogs.persisted h = [].
Proof.
  induction 1 as [|[c ok] h Hc _ IH]; [reflexivity|].
  cbn [e_call] in Hc. destruct c; cbn [DeploymentLogs.persisted];
    try exact IH; try (destruct ok; exact IH). destruct Hc.
Qed.

Lemma persisted_app (h1 h2 : history) :
  DeploymentLogs.persisted (h1 ++ h2)%list
  = (DeploymentLogs.persisted h1 ++ DeploymentLogs.persisted h2)%list.
Proof.
  induction h1 as [|[c ok] h1 IH]; [reflexivity|].
  destruct c; cbn [List.app DeploymentLogs.persisted]; try exact IH.
  destruct ok; [cbn [List.app]; rewrite IH; reflexivity | exact IH].
Qed.

(** A computation that returns, with a value and events in [T], and writes
    no audit record. *)
Definition produces {L A} (T : A -> list event -> Prop) (m : gen L event A) : Prop :=
  forall h l, exists a h',
    outcome (m h l) = Ok a
    /\ final_history (m h l) = (h ++ h')%list /\ quiet h'
    /\ T a (yielded (m h l)).

Lemma produces_weaken {L A} (T T' : A -> list event -> Prop) (m : gen L event A) :
  (forall a evs, T a evs -> T' a evs) -> produces T m -> produces T' m.
Proof.
  intros HT Hm h l. destruct (Hm h l) as (a & h' & Ha & Hh & Hq & Ht). exists a, h'. auto.
Qed.

Lemma produces_bind {L A B} (T : A -> list event -> Prop) (U : A -> B -> list event -> Prop)
    (m : gen L event A) (f : A -> gen L event B) :
  produces T m -> (forall a, produces (U a) (f a)) ->
  produces (fun b evs => exists a e1 e2, evs = (e1 ++ e2)%list /\ T a e1 /\ U a b e2) (bind m f).
Proof.
  intros Hm Hf h l. unfold bind. destruct (Hm h l) as (a & h1' & Ha & Hh & Hq & Ht).
  destruct (m h l) as [[[r h1] l1] w1]. cbn in Ha, Hh, Ht. subst r h1.
  destruct (Hf a (h ++ h1')%list l1) as (b & h2' & Hb & Hh2 & Hq2 & Hu).
  destruct (f a (h ++ h1')%list l1) as [[[r2 h2] l2] w2]. cbn in Hb, Hh2, Hu. subst r2 h2.
  exists b, (h1' ++ h2')%list. cbn. rewrite app_assoc.
  split; [reflexivity|]. split; [reflexivity|]. split; [apply Forall_app; auto|].
  exists a, w1, w2. auto.
Qed.

Lemma produces_yield {L} (ev : event) :
  produces (L := L) (fun _ evs => evs = [ev]) (yield ev).
Proof. intros h l. exists tt, []. cbn. rewrite app_nil_r. repeat split. constructor. Qed.

Lemma produces_ret {L A} (a : A) :
  produces (L := L) (fun b evs => b = a /\ evs = []) (ret a).
Proof. intros h l. exists a, []. cbn. rewrite app_nil_r. repeat split. constructor. Qed.

Lemma produces_phase {L A} (P : event -> Prop) (m : gen L event A) :
  total m -> confined no_audit P m ->
  produces (fun _ evs => Forall P evs) m.
Proof.
  intros Ht Hc h l. destruct (Ht h l) as [a Ha]. destruct (Hc h l) as (h' & Hh & Hq & Hp).
  exists a, h'. auto.
Qed.

Ltac phase_auto :=
  repeat first
    [ gen_step
    | exact I
    | left; reflexivity
    | right; reflexivity ].

Section Phases.
Variable w : World.

Lemma total_run_quietly (sql : string) : total (Utilities.run_quietly w sql).
Proof. unfold Utilities.run_quietly. phase_auto. Qed.

Lemma confined_run_quietly (P : event -> Prop) (sql : string) :
  confined no_audit P (Utilities.run_quietly w sql).
Proof. unfold Utilities.run_quietly. phase_auto. Qed.

Lemma total_grant (object_type database schema : string) (object_name : option string)
    (roles : list string) :
  total (Utilities._grant_access_to_object w object_type database schema object_name roles).
Proof.
  unfold Utilities._grant_access_to_object, Utilities._ensure_role_exists.
  repeat first [apply total_run_quietly | gen_step].
Qed.

Lemma confined_grant (P : event -> Prop) (object_type database schema : string)
    (object_name : option string) (roles : list string) :
  confined no_audit P
    (Utilities._grant_access_to_object w object_type database schema object_name roles).
Proof.
  unfold Utilities._grant_access_to_object, Utilities._ensure_role_exists.
  repeat first [apply confined_run_quietly | gen_step].
Qed.

Lemma total_apply_tags (object_type database schema object_name : string)
    (g : Utilities.governance) :
  total (Utilities._apply_tags_to_object w object_type database schema object_name g).
Proof. unfold Utilities._apply_tags_to_object. phase_auto. Qed.

Lemma confined_apply_tags (P : event -> Prop) (object_type database schema object_name : string)
    (g : Utilities.governance) :
  confined no_audit P
    (Utilities._apply_tags_to_object w object_type database schema object_name g).
Proof. unfold Utilities._apply_tags_to_object. phase_auto. Qed.

Lemma total_govern (model_id : string) (blueprint_id : option string)
    (object_type database schema object_name tag_label grant_label what : string)
    (g : Utilities.governance) :
  total (Utilities.govern w model_id blueprint_id object_type database schema object_name
           tag_label grant_label what g).
Proof.
  unfold Utilities.govern.
  repeat first [apply total_apply_tags | apply total_grant | gen_step].
Qed.

Lemma confined_govern (s model_id : string) (blueprint_id : option string)
    (object_type database schema object_name tag_label grant_label what : string)
    (g : Utilities.governance) :
  confined no_audit (only s)
    (Utilities.govern w model_id blueprint_id object_type database schema object_name
       tag_label grant_label what g).
Proof.
  unfold Utilities.govern.
  repeat first [apply confined_apply_tags | apply confined_grant | gen_step
               | right; reflexivity].
Qed.

Lemma total_ensure_tags : total (Utilities._ensure_tags_exist w).
Proof. unfold Utilities._ensure_tags_exist. phase_auto. Qed.

(** A stage loop returns whenever the reports of its failures do. *)
Lemma total_stage_loop (units : list Utilities.bp_info)
    (body : Utilities.bp_info -> gen unit event unit)
    (handler : Utilities.bp_info -> exn -> gen unit event unit) :
  (forall u e, total (handler u e)) -> total (Utilities.stage_loop units body handler).
Proof. intros H. unfold Utilities.stage_loop. repeat first [apply H | gen_step]. Qed.

Lemma confined_stage_loop (P : event -> Prop) (units : list Utilities.bp_info)
    (body : Utilities.bp_info -> gen unit event unit)
    (handler : Utilities.bp_info -> exn -> gen unit event unit) :
  (forall u, confined no_audit P (body u)) ->
  (forall u e, confined no_audit P (handler u e)) ->
  confined no_audit P (Utilities.stage_loop units body handler).
Proof.
  intros Hb Hh. unfold Utilities.stage_loop. repeat first [apply Hb | apply Hh | gen_step].
Qed.

Ltac unit_auto s :=
  repeat first
    [ apply (confined_govern s)
    | apply confined_apply_tags
    | apply confined_grant
    | gen_step
    | exact I
    | left; reflexivity
    | right; reflexivity ].

Lemma staging_phase (model_id : string) (ro : bool) (units : list Utilities.bp_info) :
  produces (fun _ evs => Forall (only "staging") evs)
    (Utilities.stage_loop units (Utilities.staging_unit w ro) (Utilities.staging_failed model_id)).
Proof.
  apply produces_phase.
  - apply total_stage_loop. intros u e. unfold Utilities.staging_failed. phase_auto.
  - apply confined_stage_loop; intros;
      unfold Utilities.staging_unit, Utilities.staging_failed; unit_auto "staging".
Qed.

Lemma data_processing_phase (model_id : string) (ro : bool) (g : Utilities.governance)
    (units : list Utilities.bp_info) :
  produces (fun _ evs => Forall (only "data_processing") evs)
    (Utilities.stage_loop units (Utilities.data_processing_unit w ro g)
       (Utilities.data_processing_failed model_id)).
Proof.
  apply produces_phase.
  - apply total_stage_loop. intros u e. unfold Utilities.data_processing_failed. phase_auto.
  - apply confined_stage_loop; intros;
      unfold Utilities.data_processing_unit, Utilities.data_processing_failed;
      unit_auto "data_processing".
Qed.

Lemma key_storage_phase (model_id : string) (ro : bool) (g : Utilities.governance)
    (units : list Utilities.bp_info) :
  produces (fun _ evs => Forall (only "key_storage") evs)
    (Utilities.stage_loop units (Utilities.key_storage_unit w model_id ro g)
       (Utilities.key_storage_failed model_id)).
Proof.
  apply produces_phase.
  - apply total_stage_loop. intros u e. unfold Utilities.key_storage_failed. phase_auto.
  - apply confined_stage_loop; intros;
      unfold Utilities.key_storage_unit, Utilities.key_storage_failed;
      unit_auto "key_storage".
Qed.

Lemma build_relationships_phase (model_id : string) (ro : bool) (g : Utilities.governance)
    (units : list Utilities.bp_info) :
  produces (fun _ evs => Forall (only "build_relationships") evs)
    (Utilities.stage_loop units (Utilities.build_relationships_unit w model_id ro g)
       (Utilities.build_relationships_failed model_id)).
Proof.
  apply produces_phase.
  - apply total_stage_loop. intros u e. unfold Utilities.build_relationships_failed. phase_auto.
  - apply confined_stage_loop; intros;
      unfold Utilities.build_relationships_unit, Utilities.build_relationships_failed;
      unit_auto "build_relationships".
Qed.

Lemma data_storage_phase (model_id : string) (ro : bool) (g : Utilities.governance)
    (units : list Utilities.bp_info) :
  produces (fun _ evs => Forall (only "data_storage") evs)
    (Utilities.stage_loop units (Utilities.data_storage_unit w model_id ro g)
       (Utilities.data_storage_failed model_id)).
Proof.
  apply produces_phase.
  - apply total_stage_loop. intros u e. unfold Utilities.data_storage_failed. phase_auto.
  - apply confined_stage_loop; intros;
      unfold Utilities.data_storage_unit, Utilities.data_storage_failed;
      unit_auto "data_storage".
Qed.

Lemma seed_load_phase (model_id : string) (ro : bool) (units : list Utilities.bp_info) :
  produces (fun _ evs => Forall (only "seed_load") evs)
    (Utilities.stage_loop units (Utilities.seed_load_unit w model_id ro)
       (Utilities.seed_load_failed model_id)).
Proof.
  apply produces_phase.
  - apply total_stage_loop. intros u e. unfold Utilities.seed_load_failed. phase_auto.
  - apply confined_stage_loop; intros;
      unfold Utilities.seed_load_unit, Utilities.seed_load_failed; unit_auto "seed_load".
Qed.

Lemma total_drive_view (model_type model_id view_name db sc : string)
    (g : Utilities.governance) (items : list sub_item) :
  forall complete,
    total (Utilities.drive_view w model_type model_id view_name db sc g items complete).
Proof.
  induction items as [|[c ok|ev] items IH]; intros complete; cbn [Utilities.drive_view].
  - apply total_ret.
  - apply total_bind; [apply total_log_call | intros _; apply IH].
  - apply total_bind; [apply total_yield | intros _].
    destruct (Utilities.is_complete ev); [|apply IH].
    apply total_bind; [|intros _; apply IH].
    destruct (truthy (Some view_name)); [apply total_govern | apply total_ret].
Qed.

Lemma confined_drive_view (model_type model_id view_name db sc : string)
    (g : Utilities.governance) (items : list sub_item) :
  forall complete,
    confined no_audit (only "model_deployment")
      (Utilities.drive_view w model_type model_id view_name db sc g items complete).
Proof.
  induction items as [|[c ok|ev] items IH]; intros complete; cbn [Utilities.drive_view].
  - apply confined_ret.
  - apply confined_bind; [apply confined_log_call; destruct c; exact I | intros _; apply IH].
  - apply confined_bind; [apply confined_yield; left; reflexivity | intros _].
    destruct (Utilities.is_complete ev); [|apply IH].
    apply confined_bind; [|intros _; apply IH].
    destruct (truthy (Some view_name)); [apply confined_govern | apply confined_ret].
Qed.

Lemma model_deployment_phase (model_id : string) (mc : model_config)
    (model_type db sc : string) (g : Utilities.governance) :
  produces (fun _ evs => Forall (only "model_deployment") evs)
    (Utilities.model_deployment_stage w model_id mc model_type db sc g).
Proof.
  apply produces_phase; unfold Utilities.model_deployment_stage.
  - repeat first [apply total_drive_view | gen_step].
  - repeat first [apply confined_drive_view | gen_step | left; reflexivity].
Qed.

End Phases.

Section PipelineShape.
Variable w : World.

Definition complete_event (model_id : string) (st : steps) : event :=
  mkEvent "SUCCESS" "complete" "complete" (Some model_id) None None
    ("Model " ++ model_id ++ " deployment completed") (Some st).

Lemma produces_opt_yield (s : string) (b : bool) (ev : event) :
  only s ev ->
  produces (L := unit) (fun _ evs => Forall (only s) evs) (if b then yield ev else ret tt).
Proof.
  intros H. destruct b.
  - eapply produces_weaken; [|apply produces_yield]. cbv beta. intros _ evs ->. auto.
  - eapply produces_weaken; [|apply produces_ret]. cbv beta. intros _ evs [_ ->]. auto.
Qed.

Ltac pipeline_step :=
  first
    [ apply staging_phase
    | apply data_processing_phase
    | apply key_storage_phase
    | apply build_relationships_phase
    | apply data_storage_phase
    | apply model_deployment_phase
    | apply seed_load_phase
    | apply produces_opt_yield; left; reflexivity
    | apply produces_yield
    | apply produces_ret
    | eapply produces_bind; [|intros ?] ].

Ltac flatten_hyps :=
  repeat match goal with
         | H : exists _, _ |- _ => destruct H
         | H : _ /\ _ |- _ => destruct H
         end.

Ltac phase_steps :=
  repeat match goal with
         | H : Forall (only ?s) ?e |- _ =>
             let n := fresh "n" in
             let E := fresh "E" in
             destruct (stage_steps_only s e eq_refl H) as [n E]; clear H
         end.

(** The events of the eight stages: every stage that emits events does so in
    its turn, and the final event carries the flags. *)
Lemma staged_pipeline_shape (model_id : string) (mc : model_config) (model_type : string)
    (units : list Utilities.bp_info) (db sc : string) (ro rf : bool) (g : Utilities.governance) :
  produces
    (fun _ evs =>
       stage_sequence evs = emitted_stages rf
       /\ exists front st,
            evs = (front ++ [complete_event model_id st])%list
            /\ st_supporting_artefacts st = true
            /\ (if rf then exists b, st_seed_load st = Some b else st_seed_load st = None))
    (Utilities.staged_pipeline w model_id mc model_type units db sc ro rf g).
Proof.
  unfold Utilities.staged_pipeline. cbv zeta.
  destruct rf.
  - eapply produces_weaken; [|repeat pipeline_step].
    cbv beta. intros [] evs H. flatten_hyps. subst. split.
    + unfold stage_sequence. phase_steps.
      repeat rewrite stage_steps_app.
      repeat match goal with E : stage_steps _ = _ |- _ => rewrite E; clear E end.
      cbn [stage_steps map filter ev_step Utilities.starting Utilities.stage_event
             governance_step negb List.app dedup_from].
      simpl.
      repeat (rewrite ?app_nil_r; rewrite <- ?app_assoc; rewrite ?dedup_from_repeat; simpl).
      reflexivity.
    + eexists. eexists. split; [|split].
      * repeat rewrite app_assoc. reflexivity.
      * reflexivity.
      * eexists. reflexivity.
  - eapply produces_weaken; [|repeat pipeline_step].
    cbv beta. intros [] evs H. flatten_hyps. subst. split.
    + unfold stage_sequence. phase_steps.
      repeat rewrite stage_steps_app.
      repeat match goal with E : stage_steps _ = _ |- _ => rewrite E; clear E end.
      simpl.
      repeat (rewrite ?app_nil_r; rewrite <- ?app_assoc; rewrite ?dedup_from_repeat; simpl).
      reflexivity.
    + eexists. eexists. split; [|split].
      * repeat rewrite app_assoc. reflexivity.
      * reflexivity.
      * reflexivity.
Qed.

End PipelineShape.

(** ** The order of the stages ([_deploy_model_staged_streaming]) *)

Section StageOrder.
Variable w : World.

Lemma governance_tags_silent (mc : model_config) (h : history) (l : unit) :
  yielded (Utilities._get_model_governance_tags w mc h l) = [].
Proof.
  unfold Utilities._get_model_governance_tags. cbv zeta.
  destruct (get (mc_belongs_to mc)) as [b|]; [|reflexivity].
  destruct (negb (truthy (Some b))); [reflexivity|].
  unfold bind, world_call. cbv zeta.
  destruct (load_group_by_id w h b) as [[gi|]|e]; reflexivity.
Qed.

Lemma ensure_tags_silent (h : history) (l : unit) :
  yielded (Utilities._ensure_tags_exist w h l) = [].
Proof.
  assert (H : confined (fun _ => True) (fun _ : event => False)
                (Utilities._ensure_tags_exist w)).
  { unfold Utilities._ensure_tags_exist. phase_auto. }
  destruct (H h l) as (h' & _ & _ & Hy).
  destruct (yielded (Utilities._ensure_tags_exist w h l)) as [|ev evs]; [reflexivity|].
  inversion Hy as [|? ? F _]. destruct F.
Qed.

(** The event of the outer handler of [_deploy_model_staged_streaming]. *)
Definition error_event (model_id : string) (e : exn) : event :=
  Utilities.stage_event "ERROR" "error" model_id None None "failed"
    ("Error deploying model " ++ model_id ++ ": " ++ exn_msg e).

(** The stages proper return, in stage order; only the loading of the
    governance settings before them can raise, and nothing is emitted then. *)
Lemma staged_stages_run (model_id : string) (mc : model_config) (model_type : string)
    (units : list Utilities.bp_info) (db sc : string) (ro rf : bool)
    (h : history) (l : unit) :
  let x := Utilities.staged_stages w model_id mc model_type units db sc ro rf h l in
  match outcome x with
  | Ok _ =>
      stage_sequence (yielded x) = emitted_stages rf
      /\ exists front st,
           yielded x = (front ++ [complete_event model_id st])%list
           /\ st_supporting_artefacts st = true
           /\ (if rf then exists b, st_seed_load st = Some b else st_seed_load st = None)
  | Raise _ => yielded x = []
  end.
Proof.
  cbv zeta. unfold Utilities.staged_stages, bind.
  pose proof (governance_tags_silent mc h l) as Hg.
  destruct (Utilities._get_model_governance_tags w mc h l) as [[[[g|e] h1] l1] w1];
    cbn [yielded snd] in Hg; subst w1; [|reflexivity].
  pose proof (ensure_tags_silent h1 l1) as He.
  destruct (total_ensure_tags w h1 l1) as [u Hu].
  destruct (Utilities._ensure_tags_exist w h1 l1) as [[[r2 h2] l2] w2].
  cbn [yielded snd] in He. cbn [outcome fst] in Hu. subst w2 r2.
  destruct (staged_pipeline_shape w model_id mc model_type units db sc ro rf g h2 l2)
    as (a & h' & Ha & _ & _ & Hseq & Hlast).
  destruct (Utilities.staged_pipeline w model_id mc model_type units db sc ro rf g h2 l2)
    as [[[r3 h3] l3] w3].
  cbn [outcome yielded fst snd] in Ha, Hseq, Hlast. subst r3.
  cbn [outcome yielded fst snd List.app]. split; assumption.
Qed.

(** The run of one staged model deployment from the call log [h]. *)
Definition staged_run (model_id : string) (mc : model_config) (model_type : string)
    (units : list Utilities.bp_info) (db sc : string) (ro rf : bool) (h : history)
  : result unit * history * unit * list event :=
  Utilities._deploy_model_staged_streaming w model_id mc model_type units db sc ro rf h tt.

End StageOrder.

(** C4 as the specification words it: the stage sequence of the events is
    the stated list, [supporting_artefacts] included. *)
Definition stages_as_stated (w : World) (model_id : string) (mc : model_config)
    (model_type : string) (units : list Utilities.bp_info) (db sc : string)
    (ro rf : bool) (h : history) : Prop :=
  stage_sequence (yielded (staged_run w model_id mc model_type units db sc ro rf h))
  = stated_stages rf.

(** C4, counterexample: a dimension over one blueprint deploys without any
    failure, and no event of its run belongs to [supporting_artefacts]; the
    stage sequence of the events is the stated list without that stage. *)
Lemma supporting_artefacts_emits_nothing :
  ~ stages_as_stated plain_world "d1" (Examples.dimension "d1" "a") "dimension"
      [Utilities.mkBpInfo "a" (Some "erp") (Examples.simple "a")]
      "unified_honey" "modelling" true true [].
Proof.
  unfold stages_as_stated. vm_compute. discriminate.
Qed.

(** C4, amended: a staged model deployment that returns has emitted its
    events stage by stage in the order staging, data_processing, key_storage,
    build_relationships, data_storage, model_deployment, seed_load (only when
    a full refresh was requested), complete, each of the stages present and
    none returned to (the events of tagging and granting, which carry their
    own step names inside the stages, set apart); [supporting_artefacts]
    emits no event and is only recorded, as true, in the flags of the final
    event, where [seed_load] is true or false when a full refresh was
    requested and [None] when it was not.  A deployment that raises does so
    while loading the governance settings, before any stage, and has emitted
    the error event alone. *)
Theorem staged_events_follow_stage_order (w : World) (model_id : string)
    (mc : model_config) (model_type : string) (units : list Utilities.bp_info)
    (db sc : string) (ro rf : bool) (h : history) :
  let x := staged_run w model_id mc model_type units db sc ro rf h in
  match outcome x with
  | Ok _ =>
      stage_sequence (yielded x) = emitted_stages rf
      /\ exists front st,
           yielded x = (front ++ [complete_event model_id st])%list
           /\ st_supporting_artefacts st = true
           /\ (if rf then exists b, st_seed_load st = Some b else st_seed_load st = None)
  | Raise e => yielded x = [error_event model_id e]
  end.
Proof.
  cbv zeta. unfold staged_run, Utilities._deploy_model_staged_streaming, try_catch.
  pose proof (staged_stages_run w model_id mc model_type units db sc ro rf h tt) as H.
  destruct (Utilities.staged_stages w model_id mc model_type units db sc ro rf h tt)
    as [[[[a|e] h1] l1] w1]; cbn [outcome yielded fst snd] in H.
  - cbn [outcome yielded fst snd]. exact H.
  - subst w1. reflexivity.
Qed.

(** ** The audit record of a staged run ([event_generator]) *)

Lemma produces_confined {L A} (T : A -> list event -> Prop) (m : gen L event A) :
  produces T m -> confined no_audit (fun _ => True) m.
Proof.
  intros H h l. destruct (H h l) as (a & h' & _ & Hh & Hq & _). exists h'.
  split; [exact Hh|]. split; [exact Hq|]. apply Forall_forall. intros; exact I.
Qed.

Lemma total_run_sub {L L' W W' A} (m : gen L' W' A) (l0 : L') :
  total (@Endpoint.run_sub L L' W W' A m l0).
Proof.
  intros h l. unfold Endpoint.run_sub. destruct (m h l0) as [[[r h1] l1] w1].
  eexists. reflexivity.
Qed.

Lemma confined_run_sub {L L' W W' A} (C : call -> Prop) (P : W -> Prop) (P' : W' -> Prop)
    (m : gen L' W' A) (l0 : L') :
  confined C P' m -> confined C P (@Endpoint.run_sub L L' W W' A m l0).
Proof.
  intros H h l. unfold Endpoint.run_sub. destruct (H h l0) as (h' & Hh & Hc & _).
  destruct (m h l0) as [[[r h1] l1] w1]. cbn in Hh |- *. exists h'. auto.
Qed.

(** Local variables of a computation that only move along a preorder [R]. *)
Section Evolves.
Context {L W : Type}.
Variable R : L -> L -> Prop.
Hypothesis R_refl : forall l, R l l.
Hypothesis R_trans : forall a b c, R a b -> R b c -> R a c.

Definition evolves {A} (m : gen L W A) : Prop :=
  forall h l, R l (final_locals (m h l)).

Lemma evolves_ret {A} (a : A) : evolves (ret a).
Proof. intros h l. apply R_refl. Qed.

Lemma evolves_raise {A} (e : exn) : evolves (@raise L W A e).
Proof. intros h l. apply R_refl. Qed.

Lemma evolves_lift_result {A} (r : result A) : evolves (@lift_result L W A r).
Proof. destruct r; [apply evolves_ret | apply evolves_raise]. Qed.

Lemma evolves_yield (x : W) : evolves (yield x).
Proof. intros h l. apply R_refl. Qed.

Lemma evolves_get_locals : evolves (@get_locals L W).
Proof. intros h l. apply R_refl. Qed.

Lemma evolves_world_call {A} (c : call) (answer : history -> result A) :
  evolves (@world_call L W A c answer).
Proof. intros h l. apply R_refl. Qed.

Lemma evolves_modify (f : L -> L) : (forall l, R l (f l)) -> evolves (modify f).
Proof. intros H h l. apply H. Qed.

Lemma evolves_run_sub {L' W' A} (m : gen L' W' A) (l0 : L') :
  evolves (@Endpoint.run_sub L L' W W' A m l0).
Proof.
  intros h l. unfold Endpoint.run_sub. destruct (m h l0) as [[[r h1] l1] w1]. apply R_refl.
Qed.

Lemma evolves_bind {A B} (m : gen L W A) (f : A -> gen L W B) :
  evolves m -> (forall a, evolves (f a)) -> evolves (bind m f).
Proof.
  intros Hm Hf h l. unfold bind. specialize (Hm h l).
  destruct (m h l) as [[[[a|e] h1] l1] w1]; cbn in Hm |- *; [|exact Hm].
  specialize (Hf a h1 l1). destruct (f a h1 l1) as [[[r2 h2] l2] w2]. cbn in Hf |- *.
  eapply R_trans; eassumption.
Qed.

Lemma evolves_try_catch {A} (m : gen L W A) (handler : exn -> gen L W A) :
  evolves m -> (forall e, evolves (handler e)) -> evolves (try_catch m handler).
Proof.
  intros Hm Hf h l. unfold try_catch. specialize (Hm h l).
  destruct (m h l) as [[[[a|e] h1] l1] w1]; cbn in Hm |- *; [exact Hm|].
  specialize (Hf e h1 l1). destruct (handler e h1 l1) as [[[r2 h2] l2] w2]. cbn in Hf |- *.
  eapply R_trans; eassumption.
Qed.

Lemma evolves_for_each {X} (xs : list X) (body : X -> gen L W unit) :
  (forall x, evolves (body x)) -> evolves (for_each xs body).
Proof.
  intros Hb. induction xs as [|x xs IH]; cbn [for_each].
  - apply evolves_ret.
  - apply evolves_bind; [apply Hb | intros _; exact IH].
Qed.

End Evolves.

Ltac evolves_auto :=
  repeat
    (first
       [ apply evolves_bind
       | apply evolves_try_catch
       | apply evolves_for_each
       | apply evolves_ret
       | apply evolves_raise
       | apply evolves_lift_result
       | apply evolves_yield
       | apply evolves_get_locals
       | apply evolves_world_call
       | apply evolves_run_sub
       | apply evolves_modify
       | match goal with
         | |- evolves _ (if ?b then _ else _) => destruct b
         | |- evolves _ (match ?x with _ => _ end) => destruct x
         | |- evolves _ (let _ := _ in _) => cbv zeta
         end ];
     try assumption; intros).

Section AuditRecord.
Variable w : World.
Variable req : Endpoint.request.

Lemma total_send_event (event_type : string) (data : payload) :
  total (Endpoint.send_event event_type data).
Proof. unfold Endpoint.send_event. phase_auto. Qed.

Lemma confined_send_event (C : call -> Prop) (event_type : string) (data : payload) :
  confined C (fun _ => True) (Endpoint.send_event event_type data).
Proof. unfold Endpoint.send_event. phase_auto. Qed.

Lemma confined_governance_tags (P : event -> Prop) (mc : model_config) :
  confined no_audit P (Utilities._get_model_governance_tags w mc).
Proof. unfold Utilities._get_model_governance_tags. phase_auto. Qed.

Lemma confined_ensure_tags (P : event -> Prop) :
  confined no_audit P (Utilities._ensure_tags_exist w).
Proof. unfold Utilities._ensure_tags_exist. phase_auto. Qed.

(** A staged model deployment writes no audit record. *)
Lemma staged_confined (model_id : string) (mc : model_config) (model_type : string)
    (units : list Utilities.bp_info) (db sc : string) (ro rf : bool) :
  confined no_audit (fun _ => True)
    (Utilities._deploy_model_staged_streaming w model_id mc model_type units db sc ro rf).
Proof.
  unfold Utilities._deploy_model_staged_streaming, Utilities.staged_stages.
  apply confined_try_catch; [|intros e; phase_auto].
  apply confined_bind; [apply confined_governance_tags | intros g].
  apply confined_bind; [apply confined_ensure_tags | intros _].
  eapply produces_confined. apply staged_pipeline_shape.
Qed.

Lemma confined_deploy_one (model_id : string) (mc : model_config) (model_type : string)
    (units : list Utilities.bp_info) (db sc : string) :
  confined no_audit (fun _ => True)
    (Endpoint.deploy_one w req model_id mc model_type units db sc).
Proof.
  unfold Endpoint.deploy_one, Endpoint.add_successful, Endpoint.add_failed.
  repeat first
    [ apply confined_send_event
    | eapply confined_run_sub; apply staged_confined
    | gen_step ].
Qed.

Lemma confined_process_models (dc : dim_config) (sources : list source_entry)
    (db sc : string) (ids : list string) :
  forall current,
    confined no_audit (fun _ => True)
      (Endpoint.process_models w req dc sources db sc current ids).
Proof.
  induction ids as [|model_id ids IH]; intros current; cbn [Endpoint.process_models].
  - apply confined_ret.
  - apply confined_bind; [|intros _; apply IH].
    unfold Endpoint.process_model, Endpoint.add_failed.
    repeat first
      [ apply confined_send_event
      | apply confined_deploy_one
      | gen_step ].
Qed.

Lemma confined_run_body : confined no_audit (fun _ => True) (Endpoint.run_body w req).
Proof.
  unfold Endpoint.run_body, Endpoint.set_final_summary.
  repeat first
    [ apply confined_send_event
    | apply confined_process_models
    | gen_step
    | exact I ].
Qed.

(** The error message is assigned by the handler of the outer [try] only. *)
Definition same_error (l l' : Endpoint.locals) : Prop :=
  Endpoint.error_message l' = Endpoint.error_message l.

Lemma same_error_refl (l : Endpoint.locals) : same_error l l.
Proof. reflexivity. Qed.

Lemma same_error_trans (a b c : Endpoint.locals) :
  same_error a b -> same_error b c -> same_error a c.
Proof. unfold same_error. congruence. Qed.

Lemma run_body_same_error : evolves same_error (Endpoint.run_body w req).
Proof.
  pose proof same_error_refl as Hr. pose proof same_error_trans as Ht.
  assert (Hm : forall dc sources db sc ids current,
             evolves same_error (Endpoint.process_models w req dc sources db sc current ids)).
  { intros dc sources db sc ids. induction ids as [|model_id ids IH]; intros current;
      cbn [Endpoint.process_models].
    - apply evolves_ret, Hr.
    - apply evolves_bind; [exact Ht| |intros _; apply IH].
      unfold Endpoint.process_model, Endpoint.deploy_one, Endpoint.send_event,
        Endpoint.add_failed, Endpoint.add_successful.
      evolves_auto; reflexivity. }
  unfold Endpoint.run_body, Endpoint.send_event, Endpoint.set_final_summary.
  evolves_auto; try apply Hm; reflexivity.
Qed.

(** The calls of the recording step: nothing without a configured table;
    otherwise the connection and, when it opened, the insert. *)
Definition audit_calls (h : history) (record : audit_record) : history :=
  match DeploymentLogs._get_deployment_logs_table_name w with
  | None => []
  | Some table_name =>
      match connect w h with
      | Raise _ => [mkEntry CConnect false]
      | Ok _ =>
          [mkEntry CConnect true;
           mkEntry (CAudit table_name record)
             (is_ok (insert_log w (h ++ [mkEntry CConnect true])%list table_name record))]
      end
  end.

(** The record is written when the table is configured, the connection opens
    and the warehouse accepts the insert. *)
Definition audit_accepted (h : history) (record : audit_record) : bool :=
  match DeploymentLogs._get_deployment_logs_table_name w with
  | None => false
  | Some table_name =>
      is_ok (connect w h)
      && is_ok (insert_log w (h ++ [mkEntry CConnect true])%list table_name record)
  end.

Lemma persisted_audit_calls (h : history) (record : audit_record) :
  DeploymentLogs.persisted (audit_calls h record)
  = if audit_accepted h record then [record] else [].
Proof.
  unfold audit_calls, audit_accepted.
  destruct (DeploymentLogs._get_deployment_logs_table_name w) as [t|]; [|reflexivity].
  destruct (connect w h) as [[]|e]; [|reflexivity]. cbn [is_ok andb].
  destruct (insert_log w (h ++ [mkEntry CConnect true])%list t record); reflexivity.
Qed.

(** [persist_deployment_log] never raises and makes exactly these calls. *)
Lemma persist_run {L W} (record : audit_record) (h : history) (l : L) :
  @DeploymentLogs.persist_deployment_log w L W record h l
  = (Ok tt, (h ++ audit_calls h record)%list, l, []).
Proof.
  unfold DeploymentLogs.persist_deployment_log, audit_calls.
  destruct (DeploymentLogs._get_deployment_logs_table_name w) as [t|];
    [|unfold ret; rewrite app_nil_r; reflexivity].
  unfold try_catch, bind, world_call, ret. cbv zeta.
  destruct (connect w h) as [[]|e]; cbn [is_ok].
  - destruct (insert_log w (h ++ [mkEntry CConnect true])%list t record) as [rs|e];
      cbn [is_ok List.app]; rewrite <- app_assoc; reflexivity.
  - reflexivity.
Qed.

(** The status rule in the words of the specification. *)
Definition stated_status (success_count failure_count : nat) : string :=
  if (failure_count =? 0)%nat then "success"
  else if (success_count =? 0)%nat then "failed"
  else "partial".

Lemma aggregate_status_without_error (m : option string) (s f : nat) :
  truthy m = false -> Endpoint.aggregate_status m s f = stated_status s f.
Proof.
  intros Hm. unfold Endpoint.aggregate_status, stated_status. rewrite Hm. cbn [orb].
  destruct f; reflexivity.
Qed.

Lemma aggregate_status_with_error (m : option string) (s f : nat) :
  truthy m = true ->
  Endpoint.aggregate_status m s f = if (s =? 0)%nat then "failed" else "partial".
Proof. intros Hm. unfold Endpoint.aggregate_status. rewrite Hm. reflexivity. Qed.

(** The part of [event_generator] before the recording step. *)
Definition until_close : gen Endpoint.locals sse unit :=
  try_catch (Endpoint.run_body w req)
    (fun e =>
       Endpoint.set_error_message (exn_msg e) ;;
       Endpoint.send_event "error" (PError (exn_msg e))) ;;
  Endpoint.send_event "close" PClose.

Lemma total_until_close : total until_close.
Proof.
  unfold until_close, Endpoint.set_error_message.
  repeat first [apply total_send_event | gen_step].
Qed.

Lemma confined_until_close : confined no_audit (fun _ => True) until_close.
Proof.
  unfold until_close, Endpoint.set_error_message.
  repeat first [apply confined_send_event | apply confined_run_body | gen_step].
Qed.

(** The error message at the end is the one of the exception that left the
    body, if any. *)
Lemma until_close_error (h : history) :
  Endpoint.error_message (final_locals (until_close h Endpoint.init_locals))
  = match outcome (Endpoint.run_body w req h Endpoint.init_locals) with
    | Ok _ => None
    | Raise e => Some (exn_msg e)
    end.
Proof.
  unfold until_close, bind, try_catch.
  pose proof (run_body_same_error h Endpoint.init_locals) as Hb.
  destruct (Endpoint.run_body w req h Endpoint.init_locals) as [[[[a|e] h1] l1] w1];
    cbn [final_locals outcome fst snd] in Hb |- *; unfold same_error in Hb.
  - unfold Endpoint.send_event, bind, modify, yield. cbn. exact Hb.
  - unfold Endpoint.set_error_message, Endpoint.send_event, bind, modify, yield. reflexivity.
Qed.

Lemma event_generator_run (h : history) :
  let front := until_close h Endpoint.init_locals in
  outcome front = Ok tt
  /\ Endpoint.run_endpoint w req h
     = (Ok tt,
        (final_history front
           ++ audit_calls (final_history front)
                (Endpoint.audit_of req (final_locals front)))%list,
        final_locals front,
        yielded front).
Proof.
  cbv zeta. destruct (total_until_close h Endpoint.init_locals) as [[] Hok].
  split; [exact Hok|]. revert Hok.
  unfold Endpoint.run_endpoint, Endpoint.event_generator, until_close.
  unfold Endpoint.send_event, bind, modify, yield, get_locals. cbv zeta.
  match goal with
  | |- context [try_catch ?m ?f h Endpoint.init_locals] =>
      destruct (try_catch m f h Endpoint.init_locals) as [[[[[]|e] h1] l1] w1]
  end.
  - intros _. rewrite persist_run. cbn [final_history final_locals yielded fst snd List.app].
    rewrite ?app_nil_r. reflexivity.
  - cbn [outcome fst]. discriminate.
Qed.

End AuditRecord.

(** C1 as the specification words it: the run writes exactly one audit
    record, whose status follows the stated rule on the two counts. *)
Definition audit_as_stated (w : World) (req : Endpoint.request) (h : history) : Prop :=
  let x := Endpoint.run_endpoint w req h in
  exists record,
    DeploymentLogs.persisted (final_history x) = (DeploymentLogs.persisted h ++ [record])%list
    /\ au_status record
       = stated_status (List.length (Endpoint.successful (final_locals x)))
           (List.length (Endpoint.failed (final_locals x))).

(** The configuration of [plain_world] with the schema of the log table set
    to the empty text (the environment variable is set and empty). *)
Definition unlogged_world : World :=
  let w := plain_world in
  {| jinja := jinja w;
     metadata := metadata w;
     logs_database := logs_database w;
     logs_schema := Some EmptyString;
     logs_table := logs_table w;
     config_database_name := config_database_name w;
     config_schema_name := config_schema_name w;
     lookup_blueprint := lookup_blueprint w;
     load_group_by_id := load_group_by_id w;
     dimensional_models_get_all := dimensional_models_get_all w;
     blueprints_get_all := blueprints_get_all w;
     connect := connect w;
     client_run := client_run w;
     insert_log := insert_log w;
     view_deploy := view_deploy w |}.

Definition one_model : Endpoint.request :=
  Endpoint.mkRequest ["d1"] true false None None.

(** C1, counterexample: the model deploys without any failure, the recording
    step finds the name of the log table incomplete and returns; the run has
    written no audit record. *)
Lemma unconfigured_log_table_writes_nothing :
  ~ audit_as_stated unlogged_world one_model [].
Proof.
  unfold audit_as_stated. cbv zeta. intros [record [Hp _]].
  vm_compute in Hp. discriminate Hp.
Qed.

(** A configuration whose second dimension names a blueprint that the
    blueprint store does not have. *)
Definition dangling_world : World :=
  Examples.world [Examples.simple "a"]
    [Examples.dimension "d1" "a"; Examples.dimension "d9" "zz"]
    Examples.nothing_refused true.

Definition dangling_request : Endpoint.request :=
  Endpoint.mkRequest ["d1"; "d9"] true false None None.

(** The status also counts an exception that left the loop: the first model
    deploys, the second raises (none of its blueprints is found), the failed
    list is empty; the one record written has status [partial], not the
    [success] of the rule on the two counts. *)
Lemma status_counts_top_level_error :
  ~ audit_as_stated dangling_world dangling_request [].
Proof.
  unfold audit_as_stated. cbv zeta. intros [record [Hp Hs]].
  vm_compute in Hp. injection Hp as <-. vm_compute in Hs. discriminate Hs.
Qed.

(** C1, amended: a staged run never raises past the recording step and makes
    no audit insert before it; the recording step, run once after the close
    event, writes the one record when the log table is configured, the
    connection opens and the warehouse accepts the insert, and writes nothing
    otherwise.  The error message is the message of the exception that left
    the body, if any; with a non-empty one the status is [failed] for zero
    successful units and [partial] otherwise, and without one it follows the
    stated rule on the counts of failed and successful units. *)
Theorem audit_record_written_at_most_once (w : World) (req : Endpoint.request) (h : history) :
  let x := Endpoint.run_endpoint w req h in
  let l := final_locals x in
  let record := Endpoint.audit_of req l in
  outcome x = Ok tt
  /\ (exists calls,
        quiet calls
        /\ final_history x = ((h ++ calls) ++ audit_calls w (h ++ calls) record)%list
        /\ DeploymentLogs.persisted (final_history x)
           = (DeploymentLogs.persisted h
                ++ (if audit_accepted w (h ++ calls) record then [record] else []))%list)
  /\ Endpoint.error_message l
     = match outcome (Endpoint.run_body w req h Endpoint.init_locals) with
       | Ok _ => None
       | Raise e => Some (exn_msg e)
       end
  /\ au_status record
     = if truthy (Endpoint.error_message l)
       then (if (List.length (Endpoint.successful l) =? 0)%nat then "failed" else "partial")
       else stated_status (List.length (Endpoint.successful l))
              (List.length (Endpoint.failed l)).
Proof.
  cbv zeta. destruct (event_generator_run w req h) as [_ Hrun]. rewrite Hrun.
  cbn [outcome final_history final_locals fst snd].
  destruct (confined_until_close w req h Endpoint.init_locals) as (calls & Hh & Hq & _).
  split; [reflexivity|]. split; [|split].
  - exists calls. rewrite Hh. split; [exact Hq|]. split; [reflexivity|].
    rewrite !persisted_app, persisted_audit_calls, (quiet_persisted calls Hq), app_nil_r.
    reflexivity.
  - apply until_close_error.
  - cbn [Endpoint.audit_of au_status].
    destruct (truthy (Endpoint.error_message (final_locals (until_close w req h Endpoint.init_locals))))
      eqn:Em.
    + apply aggregate_status_with_error, Em.
    + apply aggregate_status_without_error, Em.
Qed.

(** ** Failures inside a stage and the status of the run *)

Section Counting.
Variable w : World.
Variable req : Endpoint.request.

Abbreviation EG := (gen Endpoint.locals sse).

(** A computation that returns a value in [Q], has counted the models [ids]
    as successful and has left the failed list alone. *)
Definition adding {A} (ids : list string) (Q : A -> Prop) (m : EG A) : Prop :=
  forall h l, exists a,
    outcome (m h l) = Ok a /\ Q a
    /\ map uo_id (Endpoint.successful (final_locals (m h l)))
       = (map uo_id (Endpoint.successful l) ++ ids)%list
    /\ Endpoint.failed (final_locals (m h l)) = Endpoint.failed l.

Definition same_counts (l l' : Endpoint.locals) : Prop :=
  Endpoint.successful l' = Endpoint.successful l /\ Endpoint.failed l' = Endpoint.failed l.

Lemma same_counts_refl (l : Endpoint.locals) : same_counts l l.
Proof. split; reflexivity. Qed.

Lemma same_counts_trans (a b c : Endpoint.locals) :
  same_counts a b -> same_counts b c -> same_counts a c.
Proof. unfold same_counts. intros [? ?] [? ?]. split; congruence. Qed.

Lemma adding_weaken {A} (ids : list string) (Q Q' : A -> Prop) (m : EG A) :
  (forall a, Q a -> Q' a) -> adding ids Q m -> adding ids Q' m.
Proof.
  intros HQ Hm h l. destruct (Hm h l) as (a & Ha & Hq & Hs & Hf). exists a. auto.
Qed.

Lemma adding_bind {A B} (ids1 ids2 : list string) (Q : A -> Prop) (Q' : B -> Prop)
    (m : EG A) (f : A -> EG B) :
  adding ids1 Q m -> (forall a, Q a -> adding ids2 Q' (f a)) ->
  adding (ids1 ++ ids2) Q' (bind m f).
Proof.
  intros Hm Hf h l. unfold bind. destruct (Hm h l) as (a & Ha & Hq & Hs & Hfl).
  destruct (m h l) as [[[r h1] l1] w1]. cbn in Ha, Hs, Hfl. subst r.
  destruct (Hf a Hq h1 l1) as (b & Hb & Hq' & Hs' & Hfl').
  destruct (f a h1 l1) as [[[r2 h2] l2] w2]. cbn in Hb, Hs', Hfl' |- *. subst r2.
  exists b. rewrite Hs', Hs, Hfl', Hfl, app_assoc. auto.
Qed.

Lemma adding_quiet {A} (m : EG A) :
  total m -> evolves same_counts m -> adding [] (fun _ => True) m.
Proof.
  intros Ht He h l. destruct (Ht h l) as [a Ha]. destruct (He h l) as [Hs Hf].
  exists a. rewrite Hs, Hf, app_nil_r. auto.
Qed.

Lemma adding_ret {A} (a : A) : adding [] (fun x => x = a) (ret a).
Proof. intros h l. exists a. cbn. rewrite app_nil_r. auto. Qed.

Lemma adding_world_call {A} (c : call) (answer : history -> result A) (a : A) :
  (forall h, answer h = Ok a) -> adding [] (fun x => x = a) (world_call c answer).
Proof.
  intros H h l. exists a. unfold world_call. cbv zeta. rewrite H. cbn.
  rewrite app_nil_r. auto.
Qed.

Lemma adding_try_catch {A} (ids : list string) (Q : A -> Prop) (m : EG A)
    (handler : exn -> EG A) :
  adding ids Q m -> adding ids Q (try_catch m handler).
Proof.
  intros Hm h l. unfold try_catch. destruct (Hm h l) as (a & Ha & Hq & Hs & Hf).
  destruct (m h l) as [[[r h1] l1] w1]. cbn in Ha, Hs, Hf. subst r.
  exists a. auto.
Qed.

Lemma adding_send_event (event_type : string) (data : payload) :
  adding [] (fun _ => True) (Endpoint.send_event event_type data).
Proof.
  intros h l. exists tt. cbn. rewrite app_nil_r. auto.
Qed.

Lemma adding_add_successful (model_type model_id : string) :
  adding [model_id] (fun _ => True)
    (Endpoint.add_successful (mkUnitOk model_type model_id)).
Proof.
  intros h l. exists tt. cbn. rewrite map_app. auto.
Qed.

Lemma adding_for_each {X} (xs : list X) (body : X -> EG unit) :
  (forall x, adding [] (fun _ => True) (body x)) ->
  adding [] (fun _ => True) (for_each xs body).
Proof.
  intros Hb. induction xs as [|x xs IH]; cbn [for_each].
  - eapply adding_weaken; [|apply adding_ret]. auto.
  - change (@nil string) with (@nil string ++ [])%list.
    eapply adding_bind; [apply Hb | intros _ _; exact IH].
Qed.

Lemma adding_bind_l {A B} (ids : list string) (Q : A -> Prop) (Q' : B -> Prop)
    (m : EG A) (f : A -> EG B) :
  adding [] Q m -> (forall a, Q a -> adding ids Q' (f a)) -> adding ids Q' (bind m f).
Proof. intros Hm Hf. exact (adding_bind [] ids Q Q' m f Hm Hf). Qed.

Lemma adding_bind_r {A B} (ids : list string) (Q : A -> Prop) (Q' : B -> Prop)
    (m : EG A) (f : A -> EG B) :
  adding ids Q m -> (forall a, Q a -> adding [] Q' (f a)) -> adding ids Q' (bind m f).
Proof.
  intros Hm Hf. pose proof (adding_bind ids [] Q Q' m f Hm Hf) as H.
  rewrite app_nil_r in H. exact H.
Qed.

Lemma produces_total {L A} (T : A -> list event -> Prop) (m : gen L event A) :
  produces T m -> total m.
Proof. intros H h l. destruct (H h l) as (a & _ & Ha & _). exists a. exact Ha. Qed.

(** The configuration store answers every read of a governance group. *)
Definition groups_load : Prop := forall h b, is_ok (load_group_by_id w h b) = true.

Lemma total_governance_tags (mc : model_config) :
  groups_load -> total (Utilities._get_model_governance_tags w mc).
Proof.
  intros Hg h l. unfold Utilities._get_model_governance_tags. cbv zeta.
  destruct (get (mc_belongs_to mc)) as [b|]; [|eexists; reflexivity].
  destruct (negb (truthy (Some b))); [eexists; reflexivity|].
  unfold bind, world_call. cbv zeta. specialize (Hg h b).
  destruct (load_group_by_id w h b) as [[gi|]|e]; try discriminate; eexists; reflexivity.
Qed.

(** With the governance settings loaded, a staged model deployment returns,
    and its last event is the one the endpoint takes for success, whatever
    the statements of its stages did. *)
Lemma staged_returns (model_id : string) (mc : model_config) (model_type : string)
    (units : list Utilities.bp_info) (db sc : string) (ro rf : bool) (h : history) :
  groups_load ->
  let x := Utilities._deploy_model_staged_streaming w model_id mc model_type units db sc ro rf
             h tt in
  outcome x = Ok tt /\ existsb Utilities.is_complete (yielded x) = true.
Proof.
  intros Hg. cbv zeta. unfold Utilities._deploy_model_staged_streaming, try_catch.
  pose proof (staged_stages_run w model_id mc model_type units db sc ro rf h tt) as Hrun.
  assert (Ht : total (Utilities.staged_stages w model_id mc model_type units db sc ro rf)).
  { unfold Utilities.staged_stages.
    apply total_bind; [apply total_governance_tags, Hg | intros g].
    apply total_bind; [apply total_ensure_tags | intros _].
    eapply produces_total. apply staged_pipeline_shape. }
  destruct (Ht h tt) as [[] Hok]. cbv zeta in Hrun. rewrite Hok in Hrun.
  destruct (Utilities.staged_stages w model_id mc model_type units db sc ro rf h tt)
    as [[[r h1] l1] w1].
  cbn [outcome yielded fst snd] in Hok, Hrun |- *. subst r.
  cbn [outcome yielded fst snd]. split; [reflexivity|].
  destruct Hrun as (_ & front & st & -> & _).
  rewrite existsb_app. cbn. apply orb_true_r.
Qed.

Lemma adding_staged (model_id : string) (mc : model_config) (model_type : string)
    (units : list Utilities.bp_info) (db sc : string) (ro rf : bool) :
  groups_load ->
  adding [] (fun sub => fst sub = Ok tt /\ existsb Utilities.is_complete (snd sub) = true)
    (Endpoint.run_sub
       (Utilities._deploy_model_staged_streaming w model_id mc model_type units db sc ro rf) tt).
Proof.
  intros Hg h l. unfold Endpoint.run_sub.
  destruct (staged_returns model_id mc model_type units db sc ro rf h Hg) as [Hok Hc].
  destruct (Utilities._deploy_model_staged_streaming w model_id mc model_type units db sc ro rf
              h tt) as [[[r h1] l1] w1].
  cbn [outcome yielded fst snd] in Hok, Hc. subst r.
  eexists. cbn [outcome final_locals fst snd]. rewrite app_nil_r. auto.
Qed.

(** Every model whose staged deployment returns is counted as successful. *)
Lemma adding_deploy_one (model_id : string) (mc : model_config) (model_type : string)
    (units : list Utilities.bp_info) (db sc : string) :
  groups_load ->
  adding [model_id] (fun _ => True)
    (Endpoint.deploy_one w req model_id mc model_type units db sc).
Proof.
  intros Hg. unfold Endpoint.deploy_one. apply adding_try_catch.
  eapply adding_bind_l; [apply adding_staged, Hg|]. intros sub [Hr Hc]. cbv zeta.
  eapply adding_bind_l; [apply adding_for_each; intros; apply adding_send_event|].
  intros _ _. rewrite Hr, Hc. cbn [lift_result].
  eapply adding_bind_l; [apply adding_ret|]. intros _ _.
  eapply adding_bind_r; [apply adding_add_successful|]. intros _ _.
  apply adding_send_event.
Qed.

(** A requested model that the configuration has, with at least one of its
    blueprints in the blueprint store. *)
Definition deployable (dc : dim_config) (sources : list source_entry) (model_id : string)
  : Prop :=
  exists mc,
    (Endpoint.find_model (dc_dimensions dc) (PyStr.lower model_id) = Ok (Some mc)
     \/ (Endpoint.find_model (dc_dimensions dc) (PyStr.lower model_id) = Ok None
         /\ Endpoint.find_model (dc_facts dc) (PyStr.lower model_id) = Ok (Some mc)))
    /\ Endpoint.blueprints_to_deploy (Endpoint.blueprint_keys mc) sources <> [].

Lemma adding_process_model (dc : dim_config) (sources : list source_entry) (db sc : string)
    (current : nat) (model_id : string) :
  groups_load -> deployable dc sources model_id ->
  adding [model_id] (fun _ => True)
    (Endpoint.process_model w req dc sources db sc current model_id).
Proof.
  intros Hg (mc & Hfound & Hunits). unfold Endpoint.process_model. cbv zeta.
  destruct Hfound as [Hd | [Hd Hf]]; rewrite Hd; cbn [lift_result].
  - eapply adding_bind_l; [apply adding_ret|]. intros a ->.
    eapply adding_bind_l; [apply adding_ret|]. intros a ->. cbv beta iota.
    destruct (Endpoint.blueprints_to_deploy (Endpoint.blueprint_keys mc) sources) as [|u us];
      [contradiction|].
    eapply adding_bind_l; [apply adding_send_event|]. intros _ _.
    apply adding_deploy_one, Hg.
  - eapply adding_bind_l; [apply adding_ret|]. intros a ->.
    rewrite Hf. cbn [lift_result].
    eapply adding_bind_l.
    { eapply adding_bind_l; [apply adding_ret|]. intros a ->. apply adding_ret. }
    intros a ->. cbv beta iota.
    destruct (Endpoint.blueprints_to_deploy (Endpoint.blueprint_keys mc) sources) as [|u us];
      [contradiction|].
    eapply adding_bind_l; [apply adding_send_event|]. intros _ _.
    apply adding_deploy_one, Hg.
Qed.

Lemma adding_process_models (dc : dim_config) (sources : list source_entry) (db sc : string)
    (ids : list string) :
  groups_load -> Forall (deployable dc sources) ids ->
  forall current,
    adding ids (fun _ => True) (Endpoint.process_models w req dc sources db sc current ids).
Proof.
  intros Hg Hids. induction Hids as [|model_id ids Hid _ IH]; intros current;
    cbn [Endpoint.process_models].
  - eapply adding_weaken; [|apply adding_ret]. auto.
  - change (model_id :: ids) with ([model_id] ++ ids)%list.
    eapply adding_bind; [apply adding_process_model; assumption|]. intros _ _. apply IH.
Qed.

Lemma adding_get_locals : adding [] (fun _ => True) (@get_locals Endpoint.locals sse).
Proof. intros h l. exists l. cbn. rewrite app_nil_r. auto. Qed.

Lemma adding_set_final_summary (s : summary) :
  adding [] (fun _ => True) (Endpoint.set_final_summary s).
Proof. intros h l. exists tt. cbn. rewrite app_nil_r. auto. Qed.

(** The configuration store and the warehouse connection answer: the
    dimensional models are [dc], with a database and a schema for the models,
    the blueprint store is [sources], the connection opens and the governance
    groups load.  Nothing is assumed of the statements sent to the warehouse. *)
Definition store_answers (dc : dim_config) (sources : list source_entry) : Prop :=
  (forall h, dimensional_models_get_all w h = Ok dc)
  /\ truthy (por (Endpoint.model_database req) (dc_model_database dc)) = true
  /\ truthy (por (Endpoint.model_schema req) (dc_model_schema dc)) = true
  /\ (forall h, blueprints_get_all w h = Ok sources)
  /\ (forall h, connect w h = Ok tt)
  /\ groups_load.

Lemma adding_run_body (dc : dim_config) (sources : list source_entry) :
  store_answers dc sources ->
  Forall (deployable dc sources) (Endpoint.model_ids req) ->
  adding (Endpoint.model_ids req) (fun _ => True) (Endpoint.run_body w req).
Proof.
  intros (Hdc & Hdb & Hsc & Hsrc & Hcon & Hg) Hids. unfold Endpoint.run_body.
  eapply adding_bind_l; [apply adding_world_call, Hdc|]. intros a ->. cbv zeta.
  rewrite Hdb, Hsc. cbn [negb orb].
  eapply adding_bind_l; [apply adding_world_call, Hsrc|]. intros a ->.
  eapply adding_bind_l; [apply adding_send_event|]. intros _ _.
  eapply adding_bind_l; [apply adding_world_call, Hcon|]. intros _ _.
  eapply adding_bind_l; [apply adding_send_event|]. intros _ _.
  eapply adding_bind_r; [apply adding_process_models; assumption|]. intros _ _.
  eapply adding_bind_l; [apply adding_get_locals|]. intros l _.
  eapply adding_bind_l; [apply adding_set_final_summary|]. intros _ _.
  apply adding_send_event.
Qed.

(** With the store answering and every requested model deployable, every
    model is counted as successful and the status is [success], whatever
    failed inside the stages. *)
Lemma run_counts_every_model (dc : dim_config) (sources : list source_entry) (h : history) :
  store_answers dc sources ->
  Forall (deployable dc sources) (Endpoint.model_ids req) ->
  let l := final_locals (Endpoint.run_endpoint w req h) in
  map uo_id (Endpoint.successful l) = Endpoint.model_ids req
  /\ Endpoint.failed l = []
  /\ au_status (Endpoint.audit_of req l) = "success".
Proof.
  intros Hst Hids. cbv zeta.
  destruct (event_generator_run w req h) as [_ Hrun]. rewrite Hrun.
  cbn [final_locals fst snd].
  pose proof (until_close_error w req h) as Herr.
  assert (Hfront : adding (Endpoint.model_ids req) (fun _ => True) (until_close w req)).
  { unfold until_close.
    eapply adding_bind_r; [apply adding_try_catch, (adding_run_body dc sources Hst Hids)|].
    intros _ _. apply adding_send_event. }
  destruct (adding_run_body dc sources Hst Hids h Endpoint.init_locals) as (a & Hok & _).
  rewrite Hok in Herr.
  destruct (Hfront h Endpoint.init_locals) as (a' & _ & _ & Hs & Hf).
  cbn [Endpoint.init_locals Endpoint.successful Endpoint.failed map List.app] in Hs, Hf.
  split; [exact Hs|]. split; [exact Hf|].
  cbn [Endpoint.audit_of au_status]. rewrite Herr, Hf. reflexivity.
Qed.

End Counting.

(** *** One unit failing inside a stage *)

Section Isolation.

Abbreviation SG := (gen unit event).

Variable body : Utilities.bp_info -> SG unit.
Variable handler : Utilities.bp_info -> exn -> SG unit.
Hypothesis handler_total : forall u e, total (handler u e).

(** One turn of a stage loop. *)
Definition guarded (complete : bool) (u : Utilities.bp_info) : SG bool :=
  try_catch (body u ;; ret complete) (fun e => handler u e ;; ret false).

Lemma stage_loop_fold (units : list Utilities.bp_info) :
  Utilities.stage_loop units body handler = fold_gen units true guarded.
Proof. reflexivity. Qed.

Lemma guarded_ok (c : bool) (u : Utilities.bp_info) (h : history) (l : unit)
    (a : unit) (hb : history) (lb : unit) (wb : list event) :
  body u h l = (Ok a, hb, lb, wb) -> guarded c u h l = (Ok c, hb, lb, wb).
Proof.
  intros E. unfold guarded, try_catch, bind, ret. rewrite E. rewrite app_nil_r. reflexivity.
Qed.

Lemma guarded_raise (c : bool) (u : Utilities.bp_info) (h : history) (l : unit)
    (e : exn) (hb : history) (lb : unit) (wb : list event) :
  body u h l = (Raise e, hb, lb, wb) ->
  exists hh lh wh,
    handler u e hb lb = (Ok tt, hh, lh, wh)
    /\ guarded c u h l = (Ok false, hh, lh, (wb ++ wh)%list).
Proof.
  intros E. destruct (handler_total u e hb lb) as [[] Hok].
  unfold guarded, try_catch, bind, ret. rewrite E.
  destruct (handler u e hb lb) as [[[r hh] lh] wh]. cbn [outcome fst] in Hok. subst r.
  exists hh, lh, wh. rewrite app_nil_r. auto.
Qed.

Lemma fold_cons (u : Utilities.bp_info) (units : list Utilities.bp_info) (c : bool)
    (h : history) (l : unit) :
  fold_gen (u :: units) c guarded h l
  = match guarded c u h l with
    | (Ok c', h1, l1, w1) =>
        let '(r, h2, l2, w2) := fold_gen units c' guarded h1 l1 in
        (r, h2, l2, (w1 ++ w2)%list)
    | (Raise e, h1, l1, w1) => (Raise e, h1, l1, w1)
    end.
Proof. reflexivity. Qed.

(** The flag a loop starts from changes nothing but the flag it ends with. *)
Lemma fold_flag (units : list Utilities.bp_info) :
  forall h l, exists b h' l' evs,
    forall c, fold_gen units c guarded h l = (Ok (c && b), h', l', evs).
Proof.
  induction units as [|u units IH]; intros h l.
  - exists true, h, l, []. intros c. cbn. rewrite andb_true_r. reflexivity.
  - destruct (body u h l) as [[[[a|e] hb] lb] wb] eqn:E.
    + destruct (IH hb lb) as (b & h' & l' & evs & Hrest).
      exists b, h', l', (wb ++ evs)%list. intros c.
      rewrite fold_cons, (guarded_ok c u h l a hb lb wb E), Hrest. reflexivity.
    + destruct (guarded_raise true u h l e hb lb wb E) as (hh & lh & wh & Hh & _).
      destruct (IH hh lh) as (b & h' & l' & evs & Hrest).
      exists false, h', l', ((wb ++ wh) ++ evs)%list. intros c.
      destruct (guarded_raise c u h l e hb lb wb E) as (hh2 & lh2 & wh2 & Hh2 & Hg).
      rewrite Hh in Hh2. injection Hh2 as <- <- <-.
      rewrite fold_cons, Hg, Hrest, andb_false_r. reflexivity.
Qed.

(** A unit that raises has its failure reported by the handler, the flag of
    the stage ends false, and the loop goes on with the units after it. *)
Lemma fold_isolates (units1 : list Utilities.bp_info) (u : Utilities.bp_info)
    (units2 : list Utilities.bp_info) (e : exn) :
  forall c h l,
    let x1 := fold_gen units1 c guarded h l in
    let xu := body u (final_history x1) (final_locals x1) in
    outcome xu = Raise e ->
    let xh := handler u e (final_history xu) (final_locals xu) in
    let x2 := fold_gen units2 true guarded (final_history xh) (final_locals xh) in
    let x := fold_gen (units1 ++ u :: units2) c guarded h l in
    outcome x = Ok false
    /\ yielded x = (yielded x1 ++ yielded xu ++ yielded xh ++ yielded x2)%list
    /\ final_history x = final_history x2.
Proof.
  induction units1 as [|v units1 IH]; intros c h l; cbv zeta.
  - cbn [List.app fold_gen ret final_history final_locals yielded fst snd]. intros Hu.
    destruct (body u h l) as [[[[a|e'] hb] lb] wb] eqn:E;
      cbn [outcome fst] in Hu; [discriminate|]. injection Hu as ->.
    destruct (guarded_raise c u h l e hb lb wb E) as (hh & lh & wh & Hh & Hg).
    change (bind (guarded c u) (fun c' => fold_gen units2 c' guarded) h l)
      with (fold_gen (u :: units2) c guarded h l).
    rewrite fold_cons, Hg. cbn [final_history final_locals yielded fst snd].
    rewrite Hh. cbn [final_history final_locals yielded fst snd].
    destruct (fold_flag units2 hh lh) as (b & h' & l' & evs & Hrest).
    rewrite (Hrest false), (Hrest true).
    cbn [outcome final_history yielded fst snd andb List.app].
    rewrite <- app_assoc. auto.
  - cbn [List.app]. rewrite !fold_cons.
    destruct (fold_flag [v] h l) as (b & h' & l' & evs & Hv).
    specialize (Hv c). rewrite fold_cons in Hv.
    destruct (guarded c v h l) as [[[[c'|e'] h1] l1] w1]; [|discriminate Hv].
    clear Hv. specialize (IH c' h1 l1). cbv zeta in IH.
    destruct (fold_gen units1 c' guarded h1 l1) as [[[r1 hx] lx] wx].
    cbn [final_history final_locals yielded fst snd] in IH |- *.
    intros Hu. specialize (IH Hu).
    destruct (fold_gen (units1 ++ u :: units2) c' guarded h1 l1) as [[[r hy] ly] wy].
    cbn [outcome final_history final_locals yielded fst snd] in IH |- *.
    destruct IH as (-> & -> & ->). rewrite <- !app_assoc. auto.
Qed.

End Isolation.

(** The six stages that loop over the units, with the body and the failure
    report [_deploy_model_staged_streaming] gives each of them. *)
Inductive stage : Type :=
| Staging | DataProcessing | KeyStorage | BuildRelationships | DataStorage | SeedLoad.

Definition stage_name (s : stage) : string :=
  match s with
  | Staging => "staging"
  | DataProcessing => "data_processing"
  | KeyStorage => "key_storage"
  | BuildRelationships => "build_relationships"
  | DataStorage => "data_storage"
  | SeedLoad => "seed_load"
  end.

Definition stage_unit (w : World) (model_id : string) (ro : bool) (g : Utilities.governance)
    (s : stage) : Utilities.bp_info -> gen unit event unit :=
  match s with
  | Staging => Utilities.staging_unit w ro
  | DataProcessing => Utilities.data_processing_unit w ro g
  | KeyStorage => Utilities.key_storage_unit w model_id ro g
  | BuildRelationships => Utilities.build_relationships_unit w model_id ro g
  | DataStorage => Utilities.data_storage_unit w model_id ro g
  | SeedLoad => Utilities.seed_load_unit w model_id ro
  end.

Definition stage_failed (model_id : string) (s : stage)
  : Utilities.bp_info -> exn -> gen unit event unit :=
  match s with
  | Staging => Utilities.staging_failed model_id
  | DataProcessing => Utilities.data_processing_failed model_id
  | KeyStorage => Utilities.key_storage_failed model_id
  | BuildRelationships => Utilities.build_relationships_failed model_id
  | DataStorage => Utilities.data_storage_failed model_id
  | SeedLoad => Utilities.seed_load_failed model_id
  end.

(** The loop of stage [s] over [units], from the call log [h]. *)
Definition stage_run (w : World) (model_id : string) (ro : bool) (g : Utilities.governance)
    (s : stage) (units : list Utilities.bp_info) (h : history)
  : result bool * history * unit * list event :=
  Utilities.stage_loop units (stage_unit w model_id ro g s) (stage_failed model_id s) h tt.

(** A failure event of stage [s] for the unit [u]. *)
Definition failure_of (s : stage) (model_id : string) (u : Utilities.bp_info) (ev : event)
  : Prop :=
  ev_level ev = "ERROR" /\ ev_step ev = stage_name s /\ ev_status ev = "failed"
  /\ ev_model_id ev = Some model_id
  /\ ev_blueprint_id ev = Some (Utilities.bi_blueprint_id u).

(** How many failure events a failing unit gets: one per node or edge name in
    the two stages that report by object, one otherwise. *)
Definition failure_reports (s : stage) (u : Utilities.bp_info) : nat :=
  match s with
  | KeyStorage => List.length (Utilities.node_names (Utilities.bi_blueprint u))
  | BuildRelationships => List.length (Utilities.edge_names (Utilities.bi_blueprint u))
  | _ => 1
  end.

Lemma for_each_yield {L W X} (f : X -> W) (xs : list X) (h : history) (l : L) :
  for_each xs (fun x => yield (f x)) h l = (Ok tt, h, l, map f xs).
Proof.
  induction xs as [|x xs IH]; [reflexivity|].
  cbn [for_each map]. unfold bind, yield at 1. rewrite IH. reflexivity.
Qed.

(** The failure report of a stage makes no call and never raises. *)
Lemma stage_failed_run (model_id : string) (s : stage) (u : Utilities.bp_info) (e : exn)
    (h : history) (l : unit) :
  exists evs,
    stage_failed model_id s u e h l = (Ok tt, h, l, evs)
    /\ Forall (failure_of s model_id u) evs
    /\ List.length evs = failure_reports s u.
Proof.
  destruct s; cbn [stage_failed failure_reports];
    unfold Utilities.staging_failed, Utilities.data_processing_failed,
      Utilities.key_storage_failed, Utilities.build_relationships_failed,
      Utilities.data_storage_failed, Utilities.seed_load_failed;
    cbv zeta; rewrite ?for_each_yield;
    eexists; (split; [reflexivity|]);
    (split; [|rewrite ?length_map; reflexivity]);
    try (apply Forall_forall; intros ev Hin; apply in_map_iff in Hin;
         destruct Hin as (name & <- & _));
    repeat constructor.
Qed.

Lemma stage_failed_total (model_id : string) (s : stage) (u : Utilities.bp_info) (e : exn) :
  total (stage_failed model_id s u e).
Proof.
  intros h l. destruct (stage_failed_run model_id s u e h l) as (evs & E & _).
  rewrite E. exists tt. reflexivity.
Qed.

(** The stage events with status [failed] among the events sent to the
    client. *)
Definition failed_stage_events (evs : list sse) : list event :=
  flat_map
    (fun e =>
       match sse_data e with
       | PStage ev => if String.eqb (ev_status ev) "failed" then [ev] else []
       | _ => []
       end)
    evs.

(** C3 as the specification words it: a run with exactly one failure event
    has status [partial]. *)
Definition partial_as_stated (w : World) (req : Endpoint.request) (h : history) : Prop :=
  let x := Endpoint.run_endpoint w req h in
  List.length (failed_stage_events (yielded x)) = 1 ->
  au_status (Endpoint.audit_of req (final_locals x)) = "partial".

(** A world whose warehouse refuses the node table of blueprint [b]. *)
Definition node_refusing_world : World :=
  Examples.world [Examples.assets; Examples.simple "a"; Examples.simple "b"; Examples.simple "c"]
    [Examples.dimension "d1" "a"; Examples.dimension "d2" "b"; Examples.dimension "d3" "c"]
    (String.eqb "create_node.sql NODE_B") true.

Definition three_models : Endpoint.request :=
  Endpoint.mkRequest ["d1"; "d2"; "d3"] true false None None.

(** C3, counterexample: three models over one blueprint each, the node table
    of the second refused.  The run has exactly one failure event (stage
    [key_storage], blueprint [b]), the three models are counted as
    successful, and the status of the audit record is [success]. *)
Lemma one_stage_failure_is_success :
  ~ partial_as_stated node_refusing_world three_models [].
Proof.
  unfold partial_as_stated. cbv zeta. intros H.
  assert (Hone : List.length
                   (failed_stage_events
                      (yielded (Endpoint.run_endpoint node_refusing_world three_models [])))
                 = 1) by (vm_compute; reflexivity).
  specialize (H Hone). vm_compute in H. discriminate H.
Qed.

(** C3, amended: in each of the six stages that loop over the units, a unit
    whose statements raise has its failure reported (one failure event of
    that stage and unit; one per node or edge name in [key_storage] and
    [build_relationships]) without any further call, the flag of the stage
    ends false, and the loop goes on with the units after it from the call
    log the failure left.  The failure does not reach the status of the run:
    when the configuration store answers and every requested model is found
    with a blueprint of the store, every model is counted as successful, no
    unit is in the failed list, and the status is [success], whatever the
    warehouse did with the statements of the stages. *)
Theorem stage_failure_isolated_and_uncounted (w : World) :
  (forall (s : stage) (model_id : string) (ro : bool) (g : Utilities.governance)
          (units1 : list Utilities.bp_info) (u : Utilities.bp_info)
          (units2 : list Utilities.bp_info) (e : exn) (h : history),
      let x1 := stage_run w model_id ro g s units1 h in
      let xu := stage_unit w model_id ro g s u (final_history x1) tt in
      outcome xu = Raise e ->
      let xh := stage_failed model_id s u e (final_history xu) tt in
      let x2 := stage_run w model_id ro g s units2 (final_history xh) in
      let x := stage_run w model_id ro g s (units1 ++ u :: units2)%list h in
      outcome x = Ok false
      /\ yielded x = (yielded x1 ++ yielded xu ++ yielded xh ++ yielded x2)%list
      /\ Forall (failure_of s model_id u) (yielded xh)
      /\ List.length (yielded xh) = failure_reports s u
      /\ final_history xh = final_history xu)
  /\ (forall (req : Endpoint.request) (dc : dim_config) (sources : list source_entry)
             (h : history),
        store_answers w req dc sources ->
        Forall (deployable dc sources) (Endpoint.model_ids req) ->
        let l := final_locals (Endpoint.run_endpoint w req h) in
        map uo_id (Endpoint.successful l) = Endpoint.model_ids req
        /\ Endpoint.failed l = []
        /\ au_status (Endpoint.audit_of req l) = "success").
Proof.
  split.
  - intros s model_id ro g units1 u units2 e h. cbv zeta. unfold stage_run. intros Hu.
    rewrite !stage_loop_fold.
    pose proof (fold_isolates (stage_unit w model_id ro g s) (stage_failed model_id s)
                  (stage_failed_total model_id s) units1 u units2 e true h tt) as Hiso.
    cbv zeta in Hiso. rewrite stage_loop_fold in Hu.
    assert (Hl : forall x : unit, x = tt) by (intros []; reflexivity).
    rewrite (Hl (final_locals (fold_gen units1 true
                                 (guarded (stage_unit w model_id ro g s)
                                    (stage_failed model_id s)) h tt))) in Hiso.
    specialize (Hiso Hu).
    rewrite (Hl (final_locals (stage_unit w model_id ro g s u _ tt))) in Hiso.
    destruct (stage_failed_run model_id s u e
                (final_history
                   (stage_unit w model_id ro g s u
                      (final_history
                         (fold_gen units1 true
                            (guarded (stage_unit w model_id ro g s)
                               (stage_failed model_id s)) h tt)) tt)) tt)
      as (evs & Eh & Hev & Hlen).
    rewrite Eh in Hiso |- *. cbn [final_history final_locals yielded fst snd] in Hiso |- *.
    destruct Hiso as (Hok & Hy & _). auto.
  - intros req dc sources h Hst Hids. exact (run_counts_every_model w req dc sources h Hst Hids).
Qed.

Definition unit_of (id : string) : Utilities.bp_info :=
  Utilities.mkBpInfo id (Some "erp") (Examples.simple id).

(** C3 where the node table of [b] is refused: the loop of [key_storage]
    over [a], [b], [c] ends with its flag false after going through the three
    units, and the run over the three models has status [success]. *)
Lemma stage_failure_isolated_and_uncounted_witness :
  outcome (stage_run node_refusing_world "m" true (Utilities.mkGovernance None None None [])
             KeyStorage [unit_of "a"; unit_of "b"; unit_of "c"] [])
  = Ok false
  /\ au_status
       (Endpoint.audit_of three_models
          (final_locals (Endpoint.run_endpoint node_refusing_world three_models [])))
     = "success".
Proof.
  destruct (stage_failure_isolated_and_uncounted node_refusing_world) as [Hiso Hcount].
  split.
  - refine (proj1 (Hiso KeyStorage "m" true (Utilities.mkGovernance None None None [])
                     [unit_of "a"] (unit_of "b") [unit_of "c"]
                     (mkExn OtherError "SQL compilation error") [] _)).
    vm_compute. reflexivity.
  - refine (proj2 (proj2 (Hcount three_models
                            (mkDimConfig
                               [Examples.dimension "d1" "a"; Examples.dimension "d2" "b";
                                Examples.dimension "d3" "c"] []
                               (Some "unified_honey") (Some "modelling"))
                            [mkSourceEntry (Some "erp")
                               [Examples.assets; Examples.simple "a"; Examples.simple "b";
                                Examples.simple "c"]]
                            [] _ _))).
    + repeat split; intros; reflexivity.
    + repeat constructor;
        (eexists; split; [left; vm_compute; reflexivity | vm_compute; discriminate]).
Defined.

(** * Further properties of the code *)

(** ** Texts *)


Lemma map_chars_append (f : ascii -> ascii) (a b : string) :
  PyStr.map_chars f (a ++ b) = PyStr.map_chars f a ++ PyStr.map_chars f b.
Proof. induction a as [|c a IH]; cbn; [reflexivity | rewrite IH; reflexivity]. Qed.

Lemma rev_onto_append (s acc : string) :
  PyStr.rev_string_onto s acc = PyStr.rev_string s ++ acc.
Proof.
  unfold PyStr.rev_string. revert acc. induction s as [|c s IH]; intros acc; cbn.
  - reflexivity.
  - rewrite (IH (String c acc)), (IH (String c EmptyString)), string_append_assoc. reflexivity.
Qed.

Lemma rev_string_cons (c : ascii) (s : string) :
  PyStr.rev_string (String c s) = PyStr.rev_string s ++ String c EmptyString.
Proof. unfold PyStr.rev_string at 1. cbn. apply rev_onto_append. Qed.

Lemma append_nil_r (s : string) : s ++ EmptyString = s.
Proof. induction s as [|c s IH]; cbn; [reflexivity | rewrite IH; reflexivity]. Qed.

Lemma rev_string_append (a b : string) :
  PyStr.rev_string (a ++ b) = PyStr.rev_string b ++ PyStr.rev_string a.
Proof.
  induction a as [|c a IH]; cbn [append].
  - cbn. rewrite append_nil_r. reflexivity.
  - rewrite !rev_string_cons, IH, string_append_assoc. reflexivity.
Qed.

Lemma rev_string_involutive (s : string) : PyStr.rev_string (PyStr.rev_string s) = s.
Proof.
  induction s as [|c s IH]; [reflexivity|].
  rewrite rev_string_cons, rev_string_append, IH. reflexivity.
Qed.

(** [lstrip] of a text followed by one more character. *)
Lemma lstrip_snoc (s : string) (c : ascii) :
  PyStr.lstrip (s ++ String c EmptyString)
  = match PyStr.lstrip s with
    | EmptyString => if PyStr.is_space c then EmptyString else String c EmptyString
    | t => t ++ String c EmptyString
    end.
Proof.
  induction s as [|d s IH]; cbn [append PyStr.lstrip].
  - destruct (PyStr.is_space c); reflexivity.
  - destruct (PyStr.is_space d); [exact IH | reflexivity].
Qed.

(** [rstrip] read from the left. *)
Lemma rstrip_cons (c : ascii) (s : string) :
  PyStr.rstrip (String c s)
  = match PyStr.rstrip s with
    | EmptyString => if PyStr.is_space c then EmptyString else String c EmptyString
    | t => String c t
    end.
Proof.
  unfold PyStr.rstrip. rewrite rev_string_cons, lstrip_snoc.
  destruct (PyStr.lstrip (PyStr.rev_string s)) as [|d t].
  - destruct (PyStr.is_space c); reflexivity.
  - rewrite rev_string_append.
    destruct (PyStr.rev_string (String d t)) as [|x y] eqn:E.
    + apply (f_equal PyStr.rev_string) in E. rewrite rev_string_involutive in E. discriminate E.
    + reflexivity.
Qed.

(** A text that is empty or starts with a character that is not white space. *)
Definition starts_clean (s : string) : Prop :=
  match s with
  | EmptyString => True
  | String c _ => PyStr.is_space c = false
  end.

Lemma lstrip_starts_clean (s : string) : starts_clean (PyStr.lstrip s).
Proof.
  induction s as [|c s IH]; cbn [PyStr.lstrip]; [exact I|].
  destruct (PyStr.is_space c) eqn:E; [exact IH | exact E].
Qed.

Lemma lstrip_clean (s : string) : starts_clean s -> PyStr.lstrip s = s.
Proof. destruct s as [|c s]; cbn; [reflexivity|]. intros ->. reflexivity. Qed.

Lemma rstrip_starts_clean (s : string) : starts_clean s -> starts_clean (PyStr.rstrip s).
Proof.
  destruct s as [|c s]; [intros _; exact I|]. cbn [starts_clean]. intros E.
  rewrite rstrip_cons. destruct (PyStr.rstrip s); [rewrite E|]; exact E.
Qed.

Lemma rstrip_idempotent (s : string) : PyStr.rstrip (PyStr.rstrip s) = PyStr.rstrip s.
Proof.
  induction s as [|c s IH]; [reflexivity|].
  rewrite rstrip_cons. destruct (PyStr.rstrip s) as [|d t] eqn:E.
  - destruct (PyStr.is_space c) eqn:Ec; [reflexivity|].
    rewrite rstrip_cons. change (PyStr.rstrip EmptyString) with EmptyString. rewrite Ec.
    reflexivity.
  - rewrite rstrip_cons, IH. reflexivity.
Qed.

(** [strip] is idempotent. *)
Lemma strip_idempotent (s : string) : PyStr.strip (PyStr.strip s) = PyStr.strip s.
Proof.
  unfold PyStr.strip.
  rewrite (lstrip_clean (PyStr.rstrip (PyStr.lstrip s))).
  - apply rstrip_idempotent.
  - apply rstrip_starts_clean, lstrip_starts_clean.
Qed.

(** All characters of a text satisfy [p]. *)
Fixpoint all_chars (p : ascii -> bool) (s : string) : bool :=
  match s with
  | EmptyString => true
  | String c s' => p c && all_chars p s'
  end.

Lemma all_chars_append (p : ascii -> bool) (a b : string) :
  all_chars p (a ++ b) = all_chars p a && all_chars p b.
Proof.
  induction a as [|c a IH]; cbn; [reflexivity|]. rewrite IH, andb_assoc. reflexivity.
Qed.

Lemma all_chars_impl (p q : ascii -> bool) (s : string) :
  (forall c, p c = true -> q c = true) -> all_chars p s = true -> all_chars q s = true.
Proof.
  intros H. induction s as [|c s IH]; cbn; [reflexivity|].
  intros E. apply andb_true_iff in E. destruct E as [Ec Es].
  rewrite (H c Ec), (IH Es). reflexivity.
Qed.

Definition not_space (c : ascii) : bool := negb (PyStr.is_space c).

Lemma rstrip_no_space (s : string) : all_chars not_space s = true -> PyStr.rstrip s = s.
Proof.
  induction s as [|c s IH]; [reflexivity|]. cbn [all_chars]. intros E.
  apply andb_true_iff in E. destruct E as [Ec Es]. unfold not_space in Ec.
  apply negb_true_iff in Ec. rewrite rstrip_cons, (IH Es).
  destruct s; [rewrite Ec|]; reflexivity.
Qed.

Lemma strip_no_space (s : string) : all_chars not_space s = true -> PyStr.strip s = s.
Proof.
  intros E. unfold PyStr.strip. rewrite lstrip_clean; [apply rstrip_no_space, E|].
  destruct s as [|c s]; [exact I|]. cbn in E |- *. apply andb_true_iff in E.
  destruct E as [Ec _]. apply negb_true_iff in Ec. exact Ec.
Qed.

(** A text without white space in front of another one. *)
Lemma rstrip_after_no_space (p rest : string) :
  all_chars not_space p = true -> PyStr.rstrip (p ++ rest) = p ++ PyStr.rstrip rest.
Proof.
  induction p as [|c p IH]; [reflexivity|]. cbn [all_chars append]. intros E.
  apply andb_true_iff in E. destruct E as [Ec Ep]. apply negb_true_iff in Ec.
  rewrite rstrip_cons, (IH Ep). destruct (p ++ PyStr.rstrip rest); [rewrite Ec|]; reflexivity.
Qed.

Lemma rstrip_first (c : ascii) (s : string) :
  PyStr.rstrip (String c s) = EmptyString \/ exists t, PyStr.rstrip (String c s) = String c t.
Proof.
  rewrite rstrip_cons. destruct (PyStr.rstrip s) as [|d t].
  - destruct (PyStr.is_space c); [left; reflexivity | right; eexists; reflexivity].
  - right. eexists. reflexivity.
Qed.

Definition not_lower (c : ascii) : bool := negb (PyStr.is_lower c).

Lemma upper_not_lower (s : string) : all_chars not_lower s = true -> PyStr.upper s = s.
Proof.
  induction s as [|c s IH]; [reflexivity|]. cbn [all_chars]. intros E.
  apply andb_true_iff in E. destruct E as [Ec Es]. apply negb_true_iff in Ec.
  unfold PyStr.upper in *. cbn [PyStr.map_chars]. rewrite (IH Es).
  unfold PyStr.upper_char. rewrite Ec. reflexivity.
Qed.

Lemma substring_length (n : nat) (s : string) :
  String.length (substring 0 n s) = Nat.min n (String.length s).
Proof.
  revert s. induction n as [|n IH]; intros [|c s]; cbn; try reflexivity.
  rewrite IH. reflexivity.
Qed.

Lemma substring_all_chars (p : ascii -> bool) (n : nat) (s : string) :
  all_chars p s = true -> all_chars p (substring 0 n s) = true.
Proof.
  revert s. induction n as [|n IH]; intros [|c s]; cbn; try reflexivity.
  intros E. apply andb_true_iff in E. destruct E as [Ec Es]. rewrite Ec, (IH s Es). reflexivity.
Qed.

(** ** Column data types ([normalize_data_type]) *)

Lemma type_char_not_space (c : ascii) : ConfigLoader.is_type_char c = true -> not_space c = true.
Proof.
  destruct c as [[] [] [] [] [] [] [] []]; vm_compute; intros H;
    first [reflexivity | discriminate H].
Qed.

Lemma type_char_not_lower (c : ascii) : ConfigLoader.is_type_char c = true -> not_lower c = true.
Proof.
  destruct c as [[] [] [] [] [] [] [] []]; vm_compute; intros H;
    first [reflexivity | discriminate H].
Qed.

Lemma leading_all (s : string) :
  all_chars ConfigLoader.is_type_char (ConfigLoader.leading_type_chars s) = true.
Proof.
  induction s as [|c s IH]; [reflexivity|]. cbn [ConfigLoader.leading_type_chars].
  destruct (ConfigLoader.is_type_char c) eqn:E; [|reflexivity]. cbn. rewrite E, IH. reflexivity.
Qed.

Lemma leading_of_all (s : string) :
  all_chars ConfigLoader.is_type_char s = true -> ConfigLoader.leading_type_chars s = s.
Proof.
  induction s as [|c s IH]; [reflexivity|]. cbn. intros E. apply andb_true_iff in E.
  destruct E as [Ec Es]. rewrite Ec, (IH Es). reflexivity.
Qed.

(** The leading run of [p ++ r] is [p] when [r] does not go on with it. *)
Lemma leading_prefix (p r : string) :
  all_chars ConfigLoader.is_type_char p = true ->
  ConfigLoader.leading_type_chars r = EmptyString ->
  ConfigLoader.leading_type_chars (p ++ r) = p.
Proof.
  induction p as [|c p IH]; cbn; [intros _ E; exact E|]. intros E Er.
  apply andb_true_iff in E. destruct E as [Ec Ep]. rewrite Ec, (IH Ep Er). reflexivity.
Qed.

(** A type text made of capital letters and underscores is what [strip],
    [upper] and the pattern leave of it. *)
Lemma type_text_fixed (s : string) :
  all_chars ConfigLoader.is_type_char s = true ->
  PyStr.upper (PyStr.strip s) = s /\ ConfigLoader.leading_type_chars s = s.
Proof.
  intros E. split; [|apply leading_of_all, E].
  rewrite strip_no_space by (eapply all_chars_impl; [apply type_char_not_space | exact E]).
  apply upper_not_lower. eapply all_chars_impl; [apply type_char_not_lower | exact E].
Qed.

Lemma dict_get_in (k v : string) (d : list (string * string)) :
  ConfigLoader.dict_get k d = Some v -> In (k, v) d.
Proof.
  induction d as [|[k' v'] d IH]; cbn; [discriminate|].
  destruct (String.eqb k k') eqn:E.
  - intros [= ->]. apply String.eqb_eq in E. subst. left. reflexivity.
  - intros H. right. apply IH, H.
Qed.

(** Every key of the mapping is short; every value is a key mapped to itself,
    made of capital letters. *)
Lemma type_mapping_entries :
  Forall (fun kv =>
            (String.length (fst kv) <= 13)%nat
            /\ ConfigLoader.dict_get (snd kv) ConfigLoader.type_mapping = Some (snd kv)
            /\ all_chars ConfigLoader.is_type_char (snd kv) = true
            /\ (String.length (snd kv) <= 9)%nat)
    ConfigLoader.type_mapping.
Proof. unfold ConfigLoader.type_mapping. repeat constructor. Qed.

Lemma type_mapping_hit (k v : string) :
  ConfigLoader.dict_get k ConfigLoader.type_mapping = Some v ->
  (String.length k <= 13)%nat
  /\ ConfigLoader.dict_get v ConfigLoader.type_mapping = Some v
  /\ all_chars ConfigLoader.is_type_char v = true
  /\ (String.length v <= 9)%nat.
Proof.
  intros H. apply dict_get_in in H.
  exact (proj1 (Forall_forall _ _) type_mapping_entries (k, v) H).
Qed.

(** The text [normalize_data_type] gives for a text whose pattern matched
    [base]. *)
Definition normalized_of (base : string) : string :=
  let normalized :=
    match ConfigLoader.dict_get base ConfigLoader.type_mapping with
    | Some v => v
    | None => base
    end in
  if (50 <? String.length normalized)%nat then Blueprints.take 50 normalized else normalized.

Lemma normalize_unfold (s : string) :
  s <> EmptyString ->
  ConfigLoader.normalize_data_type (Some s)
  = normalized_of
      (match ConfigLoader.leading_type_chars (PyStr.upper (PyStr.strip s)) with
       | EmptyString => PyStr.upper (PyStr.strip s)
       | matched => matched
       end).
Proof.
  intros Hs. unfold ConfigLoader.normalize_data_type.
  destruct (String.eqb s EmptyString) eqn:E; [apply String.eqb_eq in E; contradiction|].
  reflexivity.
Qed.

Lemma normalized_of_length (base : string) : (String.length (normalized_of base) <= 50)%nat.
Proof.
  unfold normalized_of. cbv zeta.
  destruct (50 <? _)%nat eqn:E.
  - unfold Blueprints.take. rewrite substring_length. apply Nat.le_min_l.
  - apply Nat.ltb_ge in E. exact E.
Qed.

(** X1: the normalized data type fits the 50 characters of its column. *)
Theorem normalize_data_type_fits (data_type : option string) :
  (String.length (ConfigLoader.normalize_data_type data_type) <= 50)%nat.
Proof.
  destruct data_type as [s|]; [|cbn; lia].
  destruct (string_dec s EmptyString) as [->|Hs]; [cbn; lia|].
  rewrite (normalize_unfold s Hs). apply normalized_of_length.
Qed.

Lemma normalized_of_hit (base v : string) :
  ConfigLoader.dict_get base ConfigLoader.type_mapping = Some v -> normalized_of base = v.
Proof.
  intros E. destruct (type_mapping_hit base v E) as (_ & _ & _ & Hlen).
  unfold normalized_of. cbv zeta. rewrite E.
  assert (E50 : (50 <? String.length v)%nat = false) by (apply Nat.ltb_ge; lia).
  rewrite E50. reflexivity.
Qed.

Lemma normalized_of_miss (base : string) :
  ConfigLoader.dict_get base ConfigLoader.type_mapping = None ->
  normalized_of base
  = if (50 <? String.length base)%nat then Blueprints.take 50 base else base.
Proof. intros E. unfold normalized_of. cbv zeta. rewrite E. reflexivity. Qed.

Lemma normalized_of_type_text (base : string) :
  all_chars ConfigLoader.is_type_char base = true ->
  all_chars ConfigLoader.is_type_char (normalized_of base) = true
  /\ normalized_of (normalized_of base) = normalized_of base.
Proof.
  intros Hb.
  destruct (ConfigLoader.dict_get base ConfigLoader.type_mapping) as [v|] eqn:E.
  - destruct (type_mapping_hit base v E) as (_ & Hv & Hall & _).
    rewrite (normalized_of_hit base v E). split; [exact Hall|].
    apply normalized_of_hit, Hv.
  - rewrite (normalized_of_miss base E).
    destruct (50 <? String.length base)%nat eqn:E50.
    + split; [apply substring_all_chars, Hb|].
      apply Nat.ltb_lt in E50.
      assert (Hlen : String.length (Blueprints.take 50 base) = 50).
      { unfold Blueprints.take. rewrite substring_length. lia. }
      destruct (ConfigLoader.dict_get (Blueprints.take 50 base) ConfigLoader.type_mapping)
        as [v|] eqn:Ev.
      * destruct (type_mapping_hit _ v Ev) as (Hk & _). lia.
      * rewrite (normalized_of_miss _ Ev), Hlen. reflexivity.
    + split; [exact Hb|]. rewrite (normalized_of_miss base E), E50. reflexivity.
Qed.

(** X2: normalizing is idempotent on every data type that starts, after its
    leading blanks, with a letter or an underscore. *)
Theorem normalize_data_type_idempotent (s : string) :
  ConfigLoader.leading_type_chars (PyStr.upper (PyStr.strip s)) <> EmptyString ->
  ConfigLoader.normalize_data_type (Some (ConfigLoader.normalize_data_type (Some s)))
  = ConfigLoader.normalize_data_type (Some s).
Proof.
  intros Hm.
  destruct (string_dec s EmptyString) as [->|Hs]; [reflexivity|].
  rewrite (normalize_unfold s Hs).
  pose proof (leading_all (PyStr.upper (PyStr.strip s))) as Hall.
  destruct (ConfigLoader.leading_type_chars (PyStr.upper (PyStr.strip s))) as [|c m] eqn:E;
    [contradiction|].
  destruct (normalized_of_type_text (String c m) Hall) as [Hr Hidem].
  set (r := normalized_of (String c m)) in *.
  destruct (string_dec r EmptyString) as [Er|Hne]; [rewrite Er; reflexivity|].
  rewrite (normalize_unfold r Hne).
  destruct (type_text_fixed r Hr) as [-> ->].
  destruct r as [|d r']; [contradiction|]. exact Hidem.
Qed.

Lemma normalize_data_type_idempotent_witness :
  ConfigLoader.normalize_data_type (Some (ConfigLoader.normalize_data_type (Some " varchar(16777216) ")))
  = ConfigLoader.normalize_data_type (Some " varchar(16777216) ")
  /\ ConfigLoader.normalize_data_type (Some " varchar(16777216) ") = "STRING".
Proof.
  split; [|reflexivity].
  apply (normalize_data_type_idempotent " varchar(16777216) "). vm_compute. discriminate.
Defined.

(** X3: what follows the leading letters and underscores of a data type (a
    size, a precision, blanks) does not change its normalized form. *)
Theorem normalize_data_type_ignores_size (base rest : string) :
  base <> EmptyString ->
  all_chars ConfigLoader.is_type_char base = true ->
  match rest with
  | EmptyString => True
  | String c _ => ConfigLoader.is_type_char (PyStr.upper_char c) = false
  end ->
  ConfigLoader.normalize_data_type (Some (base ++ rest))
  = ConfigLoader.normalize_data_type (Some base).
Proof.
  intros Hne Hb Hrest.
  assert (Hns : all_chars not_space base = true)
    by (eapply all_chars_impl; [apply type_char_not_space | exact Hb]).
  assert (Hnl : all_chars not_lower base = true)
    by (eapply all_chars_impl; [apply type_char_not_lower | exact Hb]).
  assert (Hne2 : base ++ rest <> EmptyString) by (destruct base; [contradiction | discriminate]).
  rewrite (normalize_unfold _ Hne2), (normalize_unfold _ Hne).
  destruct (type_text_fixed base Hb) as [-> ->].
  assert (Hstrip : PyStr.strip (base ++ rest) = base ++ PyStr.rstrip rest).
  { unfold PyStr.strip. rewrite lstrip_clean; [apply rstrip_after_no_space, Hns|].
    destruct base as [|c b]; [contradiction|]. cbn in Hns |- *.
    apply andb_true_iff in Hns. destruct Hns as [Hc _]. apply negb_true_iff in Hc. exact Hc. }
  rewrite Hstrip. unfold PyStr.upper. rewrite map_chars_append.
  fold PyStr.upper. rewrite (upper_not_lower base Hnl).
  rewrite (leading_prefix base (PyStr.upper (PyStr.rstrip rest)) Hb).
  - destruct base; [contradiction | reflexivity].
  - destruct rest as [|c rest']; [reflexivity|].
    destruct (rstrip_first c rest') as [->|[t ->]]; [reflexivity|].
    unfold PyStr.upper. cbn [PyStr.map_chars ConfigLoader.leading_type_chars].
    rewrite Hrest. reflexivity.
Qed.

Lemma normalize_data_type_ignores_size_witness :
  ConfigLoader.normalize_data_type (Some "NUMBER(10,2)")
  = ConfigLoader.normalize_data_type (Some "NUMBER")
  /\ ConfigLoader.normalize_data_type (Some "NUMBER") = "NUMBER".
Proof.
  split; [|reflexivity].
  apply (normalize_data_type_ignores_size "NUMBER" "(10,2)");
    [discriminate | reflexivity | reflexivity].
Defined.

(** ** Quoted identifiers ([_format_identifier]) *)

Lemma append_char_inj (a b : string) (c : ascii) :
  a ++ String c EmptyString = b ++ String c EmptyString -> a = b.
Proof.
  revert b. induction a as [|x a IH]; intros [|y b]; cbn; intros H.
  - reflexivity.
  - injection H as _ H. destruct b; discriminate H.
  - injection H as _ H. destruct a; discriminate H.
  - injection H as -> H. rewrite (IH b H). reflexivity.
Qed.

Lemma double_char_inj (q : ascii) (a b : string) :
  Utilities.double_char q a = Utilities.double_char q b -> a = b.
Proof.
  revert b. induction a as [|x a IH]; intros [|y b]; cbn [Utilities.double_char].
  - reflexivity.
  - destruct (Ascii.eqb y q); discriminate.
  - destruct (Ascii.eqb x q); discriminate.
  - destruct (Ascii.eqb x q) eqn:Ex, (Ascii.eqb y q) eqn:Ey; intros H;
      inversion H; subst; try congruence; f_equal; apply IH; assumption.
Qed.

(** Number of occurrences of a character. *)
Fixpoint count_char (q : ascii) (s : string) : nat :=
  match s with
  | EmptyString => 0
  | String c s' => (if Ascii.eqb c q then 1 else 0) + count_char q s'
  end.

Lemma count_char_append (q : ascii) (a b : string) :
  count_char q (a ++ b) = count_char q a + count_char q b.
Proof. induction a as [|c a IH]; cbn; [reflexivity | rewrite IH; lia]. Qed.

Lemma double_char_count (q : ascii) (s : string) :
  count_char q (Utilities.double_char q s) = 2 * count_char q s.
Proof.
  induction s as [|c s IH]; [reflexivity|]. cbn [Utilities.double_char count_char].
  destruct (Ascii.eqb c q) eqn:E; cbn [count_char]; rewrite ?E, IH; lia.
Qed.

(** X4: quoting an identifier loses nothing (two identifiers with the same
    quoted text are the same), and the quoted text holds an even number of
    double quotes: the two outer ones and two for each one of the identifier. *)
Theorem format_identifier_faithful (a b : string) :
  (Utilities._format_identifier a = Utilities._format_identifier b -> a = b)
  /\ count_char Blueprints.dquote (Utilities._format_identifier a)
     = 2 + 2 * count_char Blueprints.dquote a.
Proof.
  unfold Utilities._format_identifier. split.
  - intros H. injection H as H. apply append_char_inj in H.
    exact (double_char_inj _ a b H).
  - cbn [count_char]. rewrite Ascii.eqb_refl, count_char_append, double_char_count.
    cbn [count_char]. rewrite Ascii.eqb_refl. lia.
Qed.

(** ** Clean names ([upper_clean], [lower_clean]) *)







(** ** What a constructed renderer guarantees ([SQLRenderer.__init__]) *)

Lemma missing_columns_none (cs : list column) :
  Validator.missing_columns cs = [] -> Forall (fun c => truthy (col_binding c) = true) cs.
Proof.
  induction cs as [|c cs IH]; cbn [Validator.missing_columns]; [constructor|].
  destruct (truthy (col_binding c)) eqn:E; [|discriminate]. intros H.
  constructor; [exact E | exact (IH H)].
Qed.

(** The key columns of a node, bound or not, as its bindings list them. *)
Definition key_columns (n : node) : list string :=
  map (fun b => fmt (get (bd_binding b))) (rn_bindings (node_raw n)).

Lemma missing_node_bindings_none (prefix : string) (bs : list binding) :
  Validator.missing_node_bindings prefix bs = [] ->
  Normalizer.binding_values bs = map (fun b => fmt (get (bd_binding b))) bs.
Proof.
  induction bs as [|b bs IH]; cbn [Validator.missing_node_bindings Normalizer.binding_values map];
    [reflexivity|].
  destruct (truthy (get (bd_binding b))) eqn:E; [|discriminate]. intros H.
  destruct (get (bd_binding b)) as [v|]; [|discriminate E]. rewrite E, (IH H). reflexivity.
Qed.

Lemma missing_secondary_none (ns : list node) :
  Validator.missing_secondary ns = [] ->
  Forall (fun n => Normalizer.binding_values (rn_bindings (node_raw n)) = key_columns n) ns.
Proof.
  induction ns as [|n ns IH]; cbn [Validator.missing_secondary]; [constructor|].
  intros H. apply app_eq_nil in H. destruct H as [Hn Hns].
  constructor; [eapply missing_node_bindings_none, Hn | exact (IH Hns)].
Qed.

Lemma validate_ok (source : string) (t : table) :
  Validator._validate_bindings source t = Ok tt ->
  truthy (t_database t) = true /\ truthy (t_schema t) = true
  /\ Validator.missing_bindings t = [].
Proof.
  unfold Validator._validate_bindings.
  destruct (truthy (t_database t)); [|discriminate].
  destruct (truthy (t_schema t)); [|discriminate]. cbn [negb].
  destruct (Validator.missing_bindings t) as [|m ms]; [auto|].
  destruct (Validator.join_items 0 (m :: ms)); discriminate.
Qed.

(** X6: a renderer that was constructed holds a blueprint of the store under
    a non-empty source name, with a database and a schema binding, a binding
    for every column, and node names that hold every key column of their
    node, in order: normalization dropped none. *)
Theorem constructed_renderer_is_bound {L W : Type} (w : World) (source : string)
    (replace_objects : bool) (target_database : option string) (h : history) (l : L)
    (r : SQLRenderer) :
  outcome (@Compiler.new_renderer w L W source replace_objects target_database h l) = Ok r ->
  (exists bp, lookup_blueprint w h source = LookupFound bp (Some (r_source_name r))
              /\ r_table r = Normalizer._normalize_blueprint bp)
  /\ truthy (Some (r_source_name r)) = true
  /\ truthy (t_database (r_table r)) = true
  /\ truthy (t_schema (r_table r)) = true
  /\ Forall (fun c => truthy (col_binding c) = true) (t_columns (r_table r))
  /\ Forall (fun n => node_name n = Normalizer.binding_value (key_columns n))
       (t_primary_node (r_table r) :: t_secondary_nodes (r_table r)).
Proof.
  unfold Compiler.new_renderer. cbn [outcome fst]. unfold Compiler.init_from_lookup.
  destruct (lookup_blueprint w h source) as [e| |bp [g|]]; try discriminate.
  destruct (truthy (Some g)) eqn:Eg; [|discriminate].
  destruct (Validator._validate_bindings source (Normalizer._normalize_blueprint bp))
    as [[]|e] eqn:Ev; [|discriminate].
  intros [= <-]. cbn [r_source_name r_table].
  destruct (validate_ok _ _ Ev) as (Hdb & Hsc & Hm).
  unfold Validator.missing_bindings in Hm.
  apply app_eq_nil in Hm. destruct Hm as [Hc Hm].
  apply app_eq_nil in Hm. destruct Hm as [Hp Hs].
  split; [exists bp; split; reflexivity|].
  split; [exact Eg|]. split; [exact Hdb|]. split; [exact Hsc|].
  split; [apply missing_columns_none, Hc|].
  constructor.
  - cbn [Normalizer._normalize_blueprint t_primary_node Normalizer.normalize_node node_name]
      in Hp |- *.
    unfold key_columns. cbn [node_raw]. f_equal. eapply missing_node_bindings_none, Hp.
  - apply missing_secondary_none in Hs. rewrite Forall_forall in Hs |- *.
    intros n Hn. specialize (Hs n Hn).
    cbn [Normalizer._normalize_blueprint t_secondary_nodes] in Hn.
    apply in_map_iff in Hn. destruct Hn as (raw & <- & _).
    cbn [Normalizer.normalize_node node_name node_raw] in Hs |- *.
    rewrite Hs. reflexivity.
Qed.

Lemma constructed_renderer_is_bound_witness :
  exists r,
    outcome (@Compiler.new_renderer plain_world unit event "assets" true None [] tt) = Ok r
    /\ truthy (t_database (r_table r)) = true
    /\ Forall (fun n => node_name n = Normalizer.binding_value (key_columns n))
         (t_primary_node (r_table r) :: t_secondary_nodes (r_table r)).
Proof.
  eexists. split; [reflexivity|].
  destruct (@constructed_renderer_is_bound unit event plain_world "assets" true None [] tt _
              eq_refl) as (_ & _ & Hdb & _ & _ & Hn).
  split; [exact Hdb | exact Hn].
Defined.

(** ** Governance settings of a model ([_get_model_governance_tags]) *)

Lemma NoDup_snoc {A} (l : list A) (x : A) : NoDup l -> ~ In x l -> NoDup (l ++ [x]).
Proof.
  induction 1 as [|y l Hy Hl IH]; intros Hx; cbn.
  - constructor; [intros []|constructor].
  - constructor.
    + intros Hin. apply in_app_or in Hin. destruct Hin as [Hin|[->|[]]].
      * exact (Hy Hin).
      * apply Hx. left. reflexivity.
    + apply IH. intros Hin. apply Hx. right. exact Hin.
Qed.

Lemma existsb_eqb_false (x : string) (l : list string) :
  existsb (String.eqb x) l = false -> ~ In x l.
Proof.
  intros H Hin. assert (E : existsb (String.eqb x) l = true).
  { apply existsb_exists. exists x. split; [exact Hin | apply String.eqb_refl]. }
  congruence.
Qed.

Lemma normalize_roles_nodup (roles : list (option string)) :
  forall acc, NoDup acc -> NoDup (Utilities.normalize_roles roles acc).
Proof.
  induction roles as [|role roles IH]; intros acc Hacc; cbn [Utilities.normalize_roles];
    [exact Hacc|].
  destruct (truthy role); [|apply IH, Hacc]. cbv zeta.
  destruct (String.eqb (PyStr.strip (fmt role)) EmptyString); [apply IH, Hacc|].
  destruct (existsb (String.eqb (PyStr.strip (fmt role))) acc) eqn:E; [apply IH, Hacc|].
  apply IH, NoDup_snoc; [exact Hacc | apply existsb_eqb_false, E].
Qed.

Lemma normalize_roles_all (Q : string -> Prop) (roles : list (option string)) :
  (forall role, In (Some role) roles -> PyStr.strip role <> EmptyString ->
                Q (PyStr.strip role)) ->
  forall acc, Forall Q acc -> Forall Q (Utilities.normalize_roles roles acc).
Proof.
  induction roles as [|role roles IH]; intros HQ acc Hacc; cbn [Utilities.normalize_roles];
    [exact Hacc|].
  assert (HQ' : forall r, In (Some r) roles -> PyStr.strip r <> EmptyString -> Q (PyStr.strip r))
    by (intros r Hr; apply HQ; right; exact Hr).
  destruct (truthy role) eqn:Et; [|apply IH; assumption]. cbv zeta.
  destruct (String.eqb (PyStr.strip (fmt role)) EmptyString) eqn:Ee; [apply IH; assumption|].
  destruct (existsb (String.eqb (PyStr.strip (fmt role))) acc); [apply IH; assumption|].
  apply IH; [exact HQ'|]. apply Forall_app. split; [exact Hacc|].
  constructor; [|constructor].
  destruct role as [r|]; [|discriminate Et]. cbn [fmt] in *.
  apply HQ; [left; reflexivity|]. intros H. rewrite H in Ee. discriminate Ee.
Qed.

(** Every usable role of the configuration is in the list. *)
Lemma normalize_roles_keeps (roles : list (option string)) (x : string) :
  forall acc, In x acc -> In x (Utilities.normalize_roles roles acc).
Proof.
  induction roles as [|role roles IH]; intros acc Hx; cbn [Utilities.normalize_roles];
    [exact Hx|].
  destruct (truthy role); [|apply IH, Hx]. cbv zeta.
  destruct (String.eqb (PyStr.strip (fmt role)) EmptyString); [apply IH, Hx|].
  destruct (existsb (String.eqb (PyStr.strip (fmt role))) acc); [apply IH, Hx|].
  apply IH, in_or_app. left. exact Hx.
Qed.

Lemma normalize_roles_complete (roles : list (option string)) (role : string) :
  In (Some role) roles -> PyStr.strip role <> EmptyString ->
  forall acc, In (PyStr.strip role) (Utilities.normalize_roles roles acc).
Proof.
  induction roles as [|o roles IH]; intros Hin Hne acc; [contradiction|].
  cbn [Utilities.normalize_roles]. destruct Hin as [->|Hin].
  - assert (Et : truthy (Some role) = true).
    { cbn. destruct role; [exfalso; apply Hne; reflexivity | reflexivity]. }
    rewrite Et. cbv zeta. cbn [fmt].
    destruct (String.eqb (PyStr.strip role) EmptyString) eqn:Ee;
      [apply String.eqb_eq in Ee; contradiction|].
    destruct (existsb (String.eqb (PyStr.strip role)) acc) eqn:Ex.
    + apply normalize_roles_keeps. apply existsb_exists in Ex.
      destruct Ex as (y & Hy & Ey). apply String.eqb_eq in Ey. subst y. exact Hy.
    + apply normalize_roles_keeps, in_or_app. right. left. reflexivity.
  - destruct (truthy o); [|apply IH; assumption]. cbv zeta.
    destruct (String.eqb (PyStr.strip (fmt o)) EmptyString); [apply IH; assumption|].
    destruct (existsb (String.eqb (PyStr.strip (fmt o))) acc); apply IH; assumption.
Qed.

(** A role of the governance settings: a configured role, stripped, not
    empty. *)
Definition usable_role (mc : model_config) (r : string) : Prop :=
  r <> EmptyString /\ PyStr.strip r = r
  /\ exists role, In (Some role) (mc_roles mc) /\ r = PyStr.strip role.

(** X7: the roles of the governance settings are without repetition, each one
    a configured role stripped of its blanks and not empty; when the model
    belongs to a group that the store has, every such role is among them;
    when it belongs to no group, or to one the store does not have, roles
    and PII flag are dropped with the tags. *)
Theorem governance_roles_normalized (w : World) (mc : model_config) (h : history) (l : unit) :
  match outcome (Utilities._get_model_governance_tags w mc h l) with
  | Ok g =>
      NoDup (Utilities.g_roles g)
      /\ Forall (usable_role mc) (Utilities.g_roles g)
      /\ (Utilities.has_tags g = true \/ Utilities.g_roles g <> [] ->
          exists group_id gi,
            get (mc_belongs_to mc) = Some group_id
            /\ load_group_by_id w h group_id = Ok (Some gi)
            /\ forall role, In (Some role) (mc_roles mc) -> PyStr.strip role <> EmptyString ->
                 In (PyStr.strip role) (Utilities.g_roles g))
  | Raise _ => True
  end.
Proof.
  assert (Hnone : NoDup (@nil string) /\ Forall (usable_role mc) []
                  /\ (Utilities.has_tags (Utilities.mkGovernance None None None []) = true
                      \/ @nil string <> [] ->
                      exists group_id gi,
                        get (mc_belongs_to mc) = Some group_id
                        /\ load_group_by_id w h group_id = Ok (Some gi)
                        /\ forall role, In (Some role) (mc_roles mc) ->
                             PyStr.strip role <> EmptyString -> In (PyStr.strip role) [])).
  { split; [constructor|]. split; [constructor|].
    intros [H|H]; [discriminate H | contradiction]. }
  unfold Utilities._get_model_governance_tags. cbv zeta.
  destruct (get (mc_belongs_to mc)) as [b|] eqn:Eb; [|exact Hnone].
  destruct (negb (truthy (Some b))); [exact Hnone|].
  unfold bind, world_call. cbv zeta.
  destruct (load_group_by_id w h b) as [[gi|]|e] eqn:Eg; cbn [outcome fst];
    [|exact Hnone|exact I].
  cbn [Utilities.g_roles]. split; [apply normalize_roles_nodup; constructor|].
  split.
  - apply normalize_roles_all; [|constructor].
    intros role Hin Hne. split; [exact Hne|]. split; [apply strip_idempotent|].
    exists role. auto.
  - intros _. exists b, gi. split; [reflexivity|]. split; [exact Eg|].
    intros role Hin Hne. apply normalize_roles_complete; assumption.
Qed.

(** ** Grants ([_grant_access_to_object]) *)

Lemma run_quietly_run (w : World) (sql : string) (h : history) (l : unit) :
  Utilities.run_quietly w sql h l
  = (Ok tt, (h ++ [mkEntry (CRun sql []) (is_ok (client_run w h sql []))])%list, l, []).
Proof.
  unfold Utilities.run_quietly, try_catch, bind, Compiler.run, world_call, ret. cbv zeta.
  destruct (client_run w h sql []); reflexivity.
Qed.

Lemma upper_truthy (s : string) : truthy (Some (PyStr.upper s)) = truthy (Some s).
Proof. destruct s; reflexivity. Qed.

(** A statement that creates a role or grants something. *)
Definition grant_call (c : call) : Prop :=
  exists sql, c = CRun sql []
    /\ (PyStr.startswith sql "CREATE ROLE IF NOT EXISTS " = true
        \/ PyStr.startswith sql "GRANT " = true).

(** The roles a grant is made for. *)
Definition granted_roles (roles : list string) : list string :=
  filter (fun role => truthy (Some role)) roles.

Lemma prefix_empty (s : string) : String.prefix EmptyString s = true.
Proof. destruct s; reflexivity. Qed.

Ltac starts_with_literal :=
  unfold PyStr.startswith; cbn; first [reflexivity | apply prefix_empty].

(** The turn of the loop of [_grant_access_to_object] for one role. *)
Lemma grant_turn (w : World) (privilege object_type db sc fully_qualified : string)
    (role : string) (h : history) (l : unit) :
  truthy (Some role) = true ->
  exists h',
    (Utilities._ensure_role_exists w (PyStr.upper role) ;;
     Utilities.run_quietly w ("GRANT USAGE ON DATABASE " ++ db ++ " TO ROLE "
                                ++ Utilities._format_identifier (PyStr.upper role)) ;;
     Utilities.run_quietly w ("GRANT USAGE ON SCHEMA " ++ db ++ "." ++ sc ++ " TO ROLE "
                                ++ Utilities._format_identifier (PyStr.upper role)) ;;
     Utilities.run_quietly w ("GRANT " ++ privilege ++ " ON " ++ PyStr.upper object_type ++ " "
                                ++ fully_qualified ++ " TO ROLE "
                                ++ Utilities._format_identifier (PyStr.upper role))) h l
    = (Ok tt, (h ++ h')%list, l, [])
    /\ List.length h' = 4 /\ Forall (fun e => grant_call (e_call e)) h'.
Proof.
  intros Hr. unfold Utilities._ensure_role_exists. rewrite upper_truthy, Hr.
  unfold bind. rewrite !run_quietly_run. cbn [List.app].
  eexists [_; _; _; _]. rewrite <- !app_assoc. cbn [List.app].
  split; [reflexivity|]. split; [reflexivity|].
  repeat (apply Forall_cons;
          [cbn [e_call]; eexists; (split; [reflexivity|]);
           first [left; solve [starts_with_literal] | right; solve [starts_with_literal]]|]).
  apply Forall_nil.
Qed.

Lemma grant_loop (w : World) (privilege object_type db sc fully_qualified : string)
    (l : unit) (roles : list string) :
  forall h, exists h',
    for_each roles
      (fun role =>
         if negb (truthy (Some role)) then ret tt else
         Utilities._ensure_role_exists w (PyStr.upper role) ;;
         Utilities.run_quietly w ("GRANT USAGE ON DATABASE " ++ db ++ " TO ROLE "
                                    ++ Utilities._format_identifier (PyStr.upper role)) ;;
         Utilities.run_quietly w ("GRANT USAGE ON SCHEMA " ++ db ++ "." ++ sc ++ " TO ROLE "
                                    ++ Utilities._format_identifier (PyStr.upper role)) ;;
         Utilities.run_quietly w ("GRANT " ++ privilege ++ " ON " ++ PyStr.upper object_type
                                    ++ " " ++ fully_qualified ++ " TO ROLE "
                                    ++ Utilities._format_identifier (PyStr.upper role)))
      h l
    = (Ok tt, (h ++ h')%list, l, [])
    /\ Forall (fun e => grant_call (e_call e)) h'
    /\ List.length h' = 4 * List.length (granted_roles roles).
Proof.
  induction roles as [|role roles IH]; intros h.
  - exists []. cbn. rewrite app_nil_r. auto.
  - cbn [for_each granted_roles filter]. unfold bind at 1.
    destruct (truthy (Some role)) eqn:Et; cbn [negb].
    + destruct (grant_turn w privilege object_type db sc fully_qualified role h l Et)
        as (h1 & E1 & Hlen & Hall).
      rewrite E1. destruct (IH (h ++ h1)%list) as (h2 & E2 & Hall2 & Hlen2).
      rewrite E2. exists (h1 ++ h2)%list. rewrite app_assoc.
      split; [reflexivity|]. split; [apply Forall_app; auto|].
      rewrite length_app, Hlen, Hlen2. fold (granted_roles roles). cbn [List.length]. lia.
    + unfold ret at 1. destruct (IH h) as (h2 & E2 & Hall2 & Hlen2). rewrite E2.
      exists h2. auto.
Qed.

(** X8: granting access never raises and yields nothing, whatever the
    warehouse answers; it sends four statements for every non-empty role (the
    role, the usage of the database, the usage of the schema, the privilege
    on the object), each one a role creation or a grant, and nothing at all
    when there is no role, no object name or no privilege for the object
    type. *)
Theorem grant_access_statements (w : World) (object_type database schema : string)
    (object_name : option string) (roles : list string) (h : history) (l : unit) :
  exists h',
    Utilities._grant_access_to_object w object_type database schema object_name roles h l
    = (Ok tt, (h ++ h')%list, l, [])
    /\ Forall (fun e => grant_call (e_call e)) h'
    /\ List.length h'
       = if truthy object_name
         then match Utilities.object_privilege object_type with
              | Some _ => 4 * List.length (granted_roles roles)
              | None => 0
              end
         else 0.
Proof.
  assert (Hnothing : forall n,
             n = 0 ->
             exists h', @ret unit event unit tt h l = (Ok tt, (h ++ h')%list, l, [])
                  /\ Forall (fun e => grant_call (e_call e)) h' /\ List.length h' = n).
  { intros n ->. exists []. cbn. rewrite app_nil_r. auto. }
  unfold Utilities._grant_access_to_object.
  destruct roles as [|role0 roles0] eqn:Er.
  { apply Hnothing. destruct (truthy object_name); [|reflexivity].
    destruct (Utilities.object_privilege object_type); reflexivity. }
  rewrite <- Er. clear Er role0 roles0.
  destruct object_name as [name|]; [|apply Hnothing; reflexivity].
  destruct (truthy (Some name)) eqn:En; cbn [negb]; [|apply Hnothing; reflexivity].
  destruct (Utilities.object_privilege object_type) as [privilege|];
    [|apply Hnothing; reflexivity].
  cbv zeta. apply grant_loop.
Qed.

(** The grants of one object, as the stages use them: calls only. *)
Lemma grant_access_run (w : World) (object_type database schema object_name : string)
    (roles : list string) (h : history) (l : unit) :
  exists grants,
    Utilities._grant_access_to_object w object_type database schema (Some object_name)
      roles h l
    = (Ok tt, (h ++ grants)%list, l, [])
    /\ Forall (fun e => grant_call (e_call e)) grants.
Proof.
  assert (Hnothing : exists grants,
             @ret unit event unit tt h l = (Ok tt, (h ++ grants)%list, l, [])
             /\ Forall (fun e => grant_call (e_call e)) grants).
  { exists []. unfold ret. rewrite app_nil_r. split; [reflexivity | constructor]. }
  unfold Utilities._grant_access_to_object.
  destruct roles as [|role0 roles0] eqn:Er; [exact Hnothing|].
  rewrite <- Er. clear Er role0 roles0.
  destruct (truthy (Some object_name)); cbn [negb]; [|exact Hnothing].
  destruct (Utilities.object_privilege object_type) as [privilege|]; [|exact Hnothing].
  cbv zeta.
  destruct (grant_loop w privilege object_type
              (Utilities._format_identifier (PyStr.upper database))
              (Utilities._format_identifier (PyStr.upper schema))
              (Utilities._format_identifier (PyStr.upper database) ++ "."
                 ++ Utilities._format_identifier (PyStr.upper schema) ++ "."
                 ++ Utilities._format_identifier (PyStr.upper object_name))
              l roles h) as (grants & E & Hall & _).
  exists grants. split; [exact E | exact Hall].
Qed.

(** ** Tags and grants for one created object *)

Section Governance.
Variable w : World.

(** The one statement text [_apply_tags_to_object] sends. *)
Definition tag_sql (object_type database schema object_name : string) (g : Utilities.governance)
  : string :=
  PyStr.join (";" ++ PyStr.nl)
    (Utilities.tag_statements object_type
       (PyStr.upper database ++ "." ++ PyStr.upper schema ++ "." ++ PyStr.upper object_name) g).

Lemma apply_tags_run (object_type database schema object_name : string) (g : Utilities.governance)
    (h : history) (l : unit) :
  Utilities._apply_tags_to_object w object_type database schema object_name g h l
  = if Utilities.has_tags g then
      let ok := is_ok (client_run w h (tag_sql object_type database schema object_name g) []) in
      (Ok ok,
       (h ++ [mkEntry (CRun (tag_sql object_type database schema object_name g) []) ok])%list,
       l, [])
    else (Ok true, h, l, []).
Proof.
  unfold Utilities._apply_tags_to_object, tag_sql.
  destruct (Utilities.has_tags g); cbn [negb]; [|reflexivity].
  unfold try_catch, bind, Compiler.run, world_call, ret. cbv zeta.
  match goal with |- context [client_run w h ?sql []] => destruct (client_run w h sql []) end;
    reflexivity.
Qed.

Lemma tag_statements_count (object_type fully_qualified_name : string) (g : Utilities.governance) :
  Utilities.has_tags g = true ->
  (1 <= List.length (Utilities.tag_statements object_type fully_qualified_name g) <= 3)%nat.
Proof.
  unfold Utilities.has_tags, Utilities.tag_statements. cbv zeta.
  destruct (truthy (Utilities.g_domain g)), (truthy (Utilities.g_process g)), (Utilities.g_pii g);
    cbn [orb List.app List.length]; intros H; try discriminate H; lia.
Qed.

(** X9: tagging and granting for one created object never raises.  The tags
    go out in one call of one to three statements, and only when there is a
    tag to set.  The [apply_tags] event is sent exactly when there is a tag
    to set and that call returned.  The [apply_grants] event is sent
    whenever the model has roles: it does not depend on what the warehouse
    answered to the grants. *)
Theorem governance_events (model_id : string) (blueprint_id : option string)
    (object_type database schema object_name tag_label grant_label what : string)
    (g : Utilities.governance) (h : history) (l : unit) :
  let sql := tag_sql object_type database schema object_name g in
  let tagged := Utilities.has_tags g && is_ok (client_run w h sql []) in
  let x := Utilities.govern w model_id blueprint_id object_type database schema object_name
             tag_label grant_label what g h l in
  outcome x = Ok tt
  /\ yielded x
     = ((if tagged
         then [Utilities.stage_event "SUCCESS" "apply_tags" model_id blueprint_id
                 (Some tag_label) "complete"
                 ("Applied tags to " ++ what ++ " " ++ PyStr.lower object_name)]
         else [])
        ++ match Utilities.g_roles g with
           | [] => []
           | roles =>
               [Utilities.stage_event "SUCCESS" "apply_grants" model_id blueprint_id
                  (Some grant_label) "complete"
                  ("Granted access to " ++ what ++ " " ++ PyStr.lower object_name
                     ++ " for roles: " ++ PyStr.join ", " roles)]
           end)%list
  /\ (exists grants,
        final_history x
        = (h ++ (if Utilities.has_tags g
                 then [mkEntry (CRun sql []) (is_ok (client_run w h sql []))] else [])
             ++ grants)%list
        /\ Forall (fun e => grant_call (e_call e)) grants)
  /\ (Utilities.has_tags g = true ->
      (1 <= List.length
              (Utilities.tag_statements object_type
                 (PyStr.upper database ++ "." ++ PyStr.upper schema ++ "."
                    ++ PyStr.upper object_name) g) <= 3)%nat).
Proof.
  cbv zeta.
  remember (Utilities.govern w model_id blueprint_id object_type database schema object_name
              tag_label grant_label what g h l) as x eqn:Ex.
  unfold Utilities.govern in Ex. unfold bind at 1 in Ex. rewrite apply_tags_run in Ex.
  set (sql := tag_sql object_type database schema object_name g) in *.
  assert (Hgrant : forall h0, exists grants,
             Utilities._grant_access_to_object w object_type database schema
               (Some object_name) (Utilities.g_roles g) h0 l = (Ok tt, (h0 ++ grants)%list, l, [])
             /\ Forall (fun e => grant_call (e_call e)) grants).
  { intros h0.
    exact (grant_access_run w object_type database schema object_name
             (Utilities.g_roles g) h0 l). }
  destruct (Utilities.has_tags g) eqn:Etags; cbv zeta in Ex.
  - destruct (Hgrant (h ++ [mkEntry (CRun sql []) (is_ok (client_run w h sql []))])%list)
      as (grants & Eg & Hall).
    destruct (is_ok (client_run w h sql [])) eqn:Eok; cbn [andb] in Ex |- *.
    + unfold bind at 1 in Ex. unfold yield at 1 in Ex.
      unfold bind at 1 in Ex. rewrite Eg in Ex.
      destruct (Utilities.g_roles g) as [|role roles]; unfold ret, yield in Ex; subst x;
        cbn [outcome final_history yielded fst snd List.app];
        (split; [reflexivity|]); (split; [reflexivity|]);
        (split; [exists grants; rewrite <- app_assoc; split; [reflexivity | exact Hall]|]);
        intros _; apply tag_statements_count; exact Etags.
    + unfold bind at 1 in Ex. unfold ret at 1 in Ex.
      unfold bind at 1 in Ex. rewrite Eg in Ex.
      destruct (Utilities.g_roles g) as [|role roles]; unfold ret, yield in Ex; subst x;
        cbn [outcome final_history yielded fst snd List.app];
        (split; [reflexivity|]); (split; [reflexivity|]);
        (split; [exists grants; rewrite <- app_assoc; split; [reflexivity | exact Hall]|]);
        intros _; apply tag_statements_count; exact Etags.
  - destruct (Hgrant h) as (grants & Eg & Hall).
    cbn [andb] in Ex |- *.
    unfold bind at 1 in Ex. unfold ret at 1 in Ex.
    unfold bind at 1 in Ex. rewrite Eg in Ex.
    destruct (Utilities.g_roles g) as [|role roles]; unfold ret, yield in Ex; subst x;
      cbn [outcome final_history yielded fst snd List.app];
      (split; [reflexivity|]); (split; [reflexivity|]);
      (split; [exists grants; split; [reflexivity | exact Hall]|]);
      intros Hf; discriminate Hf.
Qed.

End Governance.

(** ** The steps of a streamed blueprint deployment *)

Section Steps.
Variable w : World.

Abbreviation SBG := (gen Blueprints.locals event).

(** The steps in the order of the code. *)
Definition all_steps (run_full_refresh : bool) : list string :=
  (["database_validation"; "source_validation"; "stage_view"; "stream"; "nodes"; "edges";
    "attributes"; "mti"; "task"]
     ++ (if run_full_refresh then ["full_refresh"] else []))%list.

Definition is_prefix {A} (p l : list A) : Prop := exists rest, l = (p ++ rest)%list.

(** A computation that completes the steps [X] in order: all of them when it
    returns, the first ones when it raises. *)
Definition advances {A} (X : list string) (m : SBG A) : Prop :=
  forall h l, exists done,
    Blueprints.steps_completed (final_locals (m h l))
    = (Blueprints.steps_completed l ++ done)%list
    /\ is_prefix done X
    /\ (is_ok (outcome (m h l)) = true -> done = X).

Lemma is_prefix_nil {A} (l : list A) : is_prefix [] l.
Proof. exists l. reflexivity. Qed.

Lemma is_prefix_refl {A} (l : list A) : is_prefix l l.
Proof. exists []. rewrite app_nil_r. reflexivity. Qed.

Lemma advances_silent {A} (m : SBG A) :
  (forall h l, Blueprints.steps_completed (final_locals (m h l)) = Blueprints.steps_completed l) ->
  advances [] m.
Proof.
  intros H h l. exists []. rewrite app_nil_r. split; [apply H|].
  split; [apply is_prefix_nil | reflexivity].
Qed.

Lemma advances_nil_inv {A} (m : SBG A) :
  advances [] m ->
  forall h l, Blueprints.steps_completed (final_locals (m h l)) = Blueprints.steps_completed l.
Proof.
  intros H h l. destruct (H h l) as (done & E & [rest P] & _).
  symmetry in P. apply app_eq_nil in P. destruct P as [-> _].
  rewrite app_nil_r in E. exact E.
Qed.

Lemma advances_ret {A} (a : A) : advances [] (ret a : SBG A).
Proof. apply advances_silent. reflexivity. Qed.

Lemma advances_raise {A} (e : exn) : advances [] (raise e : SBG A).
Proof. apply advances_silent. reflexivity. Qed.

Lemma advances_lift_result {A} (r : result A) : advances [] (lift_result r : SBG A).
Proof. destruct r; [apply advances_ret | apply advances_raise]. Qed.

Lemma advances_yield (e : event) : advances [] (yield e : SBG unit).
Proof. apply advances_silent. reflexivity. Qed.

Lemma advances_get_locals : advances [] (get_locals : SBG Blueprints.locals).
Proof. apply advances_silent. reflexivity. Qed.

Lemma advances_run (sql : string) : advances [] (Compiler.run w sql : SBG rows).
Proof. apply advances_silent. reflexivity. Qed.

Lemma advances_world_call {A} (c : call) (answer : history -> result A) :
  advances [] (world_call c answer : SBG A).
Proof. apply advances_silent. reflexivity. Qed.

Lemma advances_new_renderer (source : string) (ro : bool) (db : option string) :
  advances [] (Compiler.new_renderer w source ro db : SBG SQLRenderer).
Proof. apply advances_silent. reflexivity. Qed.

Lemma advances_track (name : string) : advances [] (Blueprints.track name).
Proof. apply advances_silent. reflexivity. Qed.

Lemma advances_step_done (s : string) : advances [s] (Blueprints.step_done s).
Proof.
  intros h l. exists [s]. split; [reflexivity|]. split; [apply is_prefix_refl | reflexivity].
Qed.

Lemma advances_bind {A B} (X Y : list string) (m : SBG A) (f : A -> SBG B) :
  advances X m -> (forall a, advances Y (f a)) -> advances (X ++ Y) (bind m f).
Proof.
  intros Hm Hf h l. unfold bind. destruct (Hm h l) as (d1 & E1 & [r1 P1] & F1).
  destruct (m h l) as [[[[a|e] h1] l1] w1]; cbn [final_locals outcome fst snd is_ok] in *.
  - specialize (F1 eq_refl). subst d1.
    destruct (Hf a h1 l1) as (d2 & E2 & [r2 P2] & F2).
    destruct (f a h1 l1) as [[[r h2] l2] w2]. cbn [final_locals outcome fst snd] in *.
    exists (X ++ d2)%list. rewrite E2, E1, app_assoc. split; [reflexivity|].
    split.
    + exists r2. rewrite P2, app_assoc. reflexivity.
    + intros Hok. rewrite (F2 Hok). reflexivity.
  - exists d1. split; [exact E1|]. split; [|discriminate].
    exists (r1 ++ Y)%list. rewrite P1, app_assoc. reflexivity.
Qed.

Lemma advances_bind_l {A B} (Y : list string) (m : SBG A) (f : A -> SBG B) :
  advances [] m -> (forall a, advances Y (f a)) -> advances Y (bind m f).
Proof. intros Hm Hf. exact (advances_bind [] Y m f Hm Hf). Qed.

Lemma advances_try_catch {A} (m : SBG A) (handler : exn -> SBG A) :
  advances [] m -> (forall e, advances [] (handler e)) -> advances [] (try_catch m handler).
Proof.
  intros Hm Hh. apply advances_silent. intros h l. unfold try_catch.
  pose proof (advances_nil_inv m Hm h l) as E1.
  destruct (m h l) as [[[[a|e] h1] l1] w1]; cbn [final_locals fst snd] in *; [exact E1|].
  pose proof (advances_nil_inv _ (Hh e) h1 l1) as E2.
  destruct (handler e h1 l1) as [[[r h2] l2] w2]. cbn [final_locals fst snd] in *. congruence.
Qed.

Lemma advances_for_each {X} (xs : list X) (body : X -> SBG unit) :
  (forall x, advances [] (body x)) -> advances [] (for_each xs body).
Proof.
  intros Hb. induction xs as [|x xs IH]; cbn [for_each].
  - apply advances_ret.
  - apply advances_bind_l; [apply Hb | intros _; exact IH].
Qed.

End Steps.

Ltac advances_silently :=
  repeat first
    [ apply advances_bind_l; [|intros]
    | apply advances_try_catch; [|intros]
    | apply advances_for_each; intros
    | apply advances_ret
    | apply advances_raise
    | apply advances_lift_result
    | apply advances_yield
    | apply advances_get_locals
    | apply advances_run
    | apply advances_world_call
    | apply advances_new_renderer
    | apply advances_track
    | match goal with
      | |- advances _ (if ?b then _ else _) => destruct b
      | |- advances _ (match ?x with _ => _ end) => destruct x
      | |- advances _ (let _ := _ in _) => cbv zeta
      end ].

(** A step: silent work, then its name appended. *)
Ltac advances_step :=
  repeat first
    [ apply advances_step_done
    | apply advances_bind_l; [solve [advances_silently]|intros]
    | match goal with
      | |- advances _ (match ?x with _ => _ end) => destruct x
      | |- advances _ (let _ := _ in _) => cbv zeta
      end ].

Section StepOrder.
Variable w : World.

Lemma advances_raise_any {A} (X : list string) (e : exn) :
  advances X (raise e : gen Blueprints.locals event A).
Proof.
  intros h l. exists []. rewrite app_nil_r. split; [reflexivity|].
  split; [apply is_prefix_nil | discriminate].
Qed.

Ltac step_auto :=
  repeat first
    [ apply advances_step_done
    | apply advances_raise_any
    | apply advances_bind_l; [solve [advances_silently]|intros]
    | match goal with
      | |- advances _ (match ?x with _ => _ end) => destruct x
      | |- advances _ (let _ := _ in _) => cbv zeta
      end ].

Lemma advances_database_validation (target_db : string) :
  advances ["database_validation"] (Blueprints.step_database_validation w target_db).
Proof. unfold Blueprints.step_database_validation. step_auto. Qed.

Lemma advances_source_validation (blueprint_id : string) :
  advances ["source_validation"] (Blueprints.step_source_validation blueprint_id).
Proof. unfold Blueprints.step_source_validation. step_auto. Qed.

Lemma advances_stage_view (r : SQLRenderer) (db sc : string) (bo : option string) :
  advances ["stage_view"] (Blueprints.step_stage_view w r db sc bo).
Proof. unfold Blueprints.step_stage_view. step_auto. Qed.

Lemma advances_stream (r : SQLRenderer) (db sc : string) (bo : option string) :
  advances ["stream"] (Blueprints.step_stream w r db sc bo).
Proof. unfold Blueprints.step_stream. step_auto. Qed.

Lemma advances_nodes (r : SQLRenderer) (db sc : string) :
  advances ["nodes"] (Blueprints.step_nodes w r db sc).
Proof. unfold Blueprints.step_nodes, Blueprints.run_all. step_auto. Qed.

Lemma advances_edges (r : SQLRenderer) (db sc : string) :
  advances ["edges"] (Blueprints.step_edges w r db sc).
Proof. unfold Blueprints.step_edges, Blueprints.run_all. step_auto. Qed.

Lemma advances_attributes (r : SQLRenderer) (db sc : string) :
  advances ["attributes"] (Blueprints.step_attributes w r db sc).
Proof. unfold Blueprints.step_attributes. step_auto. Qed.

Lemma advances_mti (r : SQLRenderer) : advances ["mti"] (Blueprints.step_mti w r).
Proof. unfold Blueprints.step_mti. step_auto. Qed.

Lemma advances_task (r : SQLRenderer) (db sc : string) (bo : option string) :
  advances ["task"] (Blueprints.step_task w r db sc bo).
Proof. unfold Blueprints.step_task. step_auto. Qed.

Lemma advances_full_refresh (r : SQLRenderer) (db sc : string) :
  advances ["full_refresh"] (Blueprints.step_full_refresh w r db sc).
Proof. unfold Blueprints.step_full_refresh, Blueprints.data_summary. step_auto. Qed.

Ltac next_step :=
  match goal with
  | |- advances (?s :: ?rest) (bind ?m ?f) => apply (advances_bind [s] rest m f); [|intros]
  end.

Lemma advances_deploy_steps (blueprint_id : string) (ro rf : bool) (db : option string) :
  advances (all_steps rf) (Blueprints.deploy_steps w blueprint_id ro rf db).
Proof.
  unfold Blueprints.deploy_steps, Blueprints.with_renderer.
  apply advances_bind_l; [apply advances_yield | intros _].
  apply advances_bind_l; [apply advances_new_renderer | intros r]. cbv zeta.
  destruct rf; cbn [all_steps List.app].
  - next_step; [apply advances_database_validation|].
    next_step; [apply advances_source_validation|].
    next_step; [apply advances_stage_view|].
    next_step; [apply advances_stream|].
    next_step; [apply advances_nodes|].
    next_step; [apply advances_edges|].
    next_step; [apply advances_attributes|].
    next_step; [apply advances_mti|].
    next_step; [apply advances_task|].
    apply advances_full_refresh.
  - next_step; [apply advances_database_validation|].
    next_step; [apply advances_source_validation|].
    next_step; [apply advances_stage_view|].
    next_step; [apply advances_stream|].
    next_step; [apply advances_nodes|].
    next_step; [apply advances_edges|].
    next_step; [apply advances_attributes|].
    next_step; [apply advances_mti|].
    change ["task"] with (["task"] ++ [])%list.
    apply advances_bind; [apply advances_task | intros _; apply advances_ret].
Qed.

End StepOrder.

Section StreamedRun.
Variable w : World.

Definition complete_log (blueprint_id : string) (steps : nat) : event :=
  Blueprints.log "SUCCESS" "complete" blueprint_id "complete"
    ("Blueprint '" ++ blueprint_id ++ "' deployed successfully ("
       ++ PyStr.of_nat steps ++ " steps completed)").

Definition failed_log (blueprint_id : string) (e : exn) : event :=
  Blueprints.log "ERROR" "deployment" blueprint_id "failed"
    ("Deployment failed: " ++ exn_msg e).

(** The whole run in terms of the run of its steps: the status update with
    the objects tracked so far, then the last event; the exception of the
    steps is raised again. *)
Lemma deploy_run (h : history) (blueprint_id : string) (ro rf : bool) (db : option string) :
  let steps := Blueprints.deploy_steps w blueprint_id ro rf db h Blueprints.init_locals in
  let l := final_locals steps in
  exists connected updated,
    Blueprints.deploy w h blueprint_id ro rf db
    = match outcome steps with
      | Ok _ =>
          (Ok tt,
           (final_history steps
              ++ status_update_calls w blueprint_id (Blueprints.deployed_objects l) None
                   connected updated)%list,
           l,
           (yielded steps
              ++ [complete_log blueprint_id (List.length (Blueprints.steps_completed l))])%list)
      | Raise e =>
          (Raise e,
           (final_history steps
              ++ status_update_calls w blueprint_id (Blueprints.deployed_objects l)
                   (Some (exn_msg e)) connected updated)%list,
           l,
           (yielded steps ++ [failed_log blueprint_id e])%list)
      end.
Proof.
  cbv zeta. unfold Blueprints.deploy, Blueprints._deploy_single_blueprint_streaming.
  unfold try_catch, bind at 1.
  destruct (Blueprints.deploy_steps w blueprint_id ro rf db h Blueprints.init_locals)
    as [[[[[]|e] h0] l0] w0]; cbn [outcome final_history final_locals yielded fst snd].
  - unfold bind, get_locals.
    destruct (update_status_run w blueprint_id (Blueprints.deployed_objects l0) None h0 l0)
      as (c & u & E).
    rewrite E. exists c, u. unfold yield. cbn [List.app]. rewrite ?app_nil_r. reflexivity.
  - cbv zeta. unfold bind, get_locals.
    destruct (update_status_run w blueprint_id (Blueprints.deployed_objects l0)
                (Some (exn_msg e)) h0 l0) as (c & u & E).
    rewrite E. exists c, u. unfold yield, raise. cbn [List.app]. rewrite ?app_nil_r.
    reflexivity.
Qed.

(** X10: a streamed deployment completes its steps in the order of the code:
    the steps completed at its end are the first ones of that order; a
    deployment that returns has completed all of them (ten with a full
    refresh, nine without) and its last event is the [complete] event with
    that count; a deployment that raises has as its last event the failure
    event with the message of the exception. *)
Theorem streamed_steps_in_order (h : history) (blueprint_id : string) (ro rf : bool)
    (db : option string) :
  let x := Blueprints.deploy w h blueprint_id ro rf db in
  is_prefix (Blueprints.steps_completed (final_locals x)) (all_steps rf)
  /\ match outcome x with
     | Ok _ =>
         Blueprints.steps_completed (final_locals x) = all_steps rf
         /\ exists front,
              yielded x
              = (front ++ [complete_log blueprint_id (if rf then 10 else 9)])%list
     | Raise e => exists front, yielded x = (front ++ [failed_log blueprint_id e])%list
     end.
Proof.
  cbv zeta. destruct (deploy_run h blueprint_id ro rf db) as (c & u & E). cbv zeta in E.
  rewrite E. clear E.
  destruct (advances_deploy_steps w blueprint_id ro rf db h Blueprints.init_locals)
    as (done & Ed & Hp & Hall).
  cbn [Blueprints.init_locals Blueprints.steps_completed List.app] in Ed.
  destruct (Blueprints.deploy_steps w blueprint_id ro rf db h Blueprints.init_locals)
    as [[[[[]|e] h0] l0] w0]; cbn [outcome final_history final_locals yielded fst snd is_ok] in *.
  - rewrite (Hall eq_refl) in Ed. rewrite Ed. split; [apply is_prefix_refl|].
    split; [reflexivity|]. exists w0. destruct rf; reflexivity.
  - rewrite Ed. split; [exact Hp|]. exists w0. reflexivity.
Qed.

End StreamedRun.

Section MissingDatabase.
Variable w : World.

Definition show_databases (target_db : string) : string :=
  "SHOW DATABASES LIKE '" ++ target_db ++ "'".

Definition missing_database (target_db : string) : exn :=
  mkExn ValueError ("Target database '" ++ target_db ++ "' does not exist").

Lemma deploy_steps_missing_database (h : history) (blueprint_id : string) (ro rf : bool)
    (db : option string) (r : SQLRenderer) :
  outcome (@Compiler.new_renderer w Blueprints.locals event blueprint_id ro db h
             Blueprints.init_locals) = Ok r ->
  let target_db := ds_database (Compiler.target_config r) in
  client_run w (h ++ [mkEntry (CLookup blueprint_id) true])%list (show_databases target_db) []
  = Ok [] ->
  Blueprints.deploy_steps w blueprint_id ro rf db h Blueprints.init_locals
  = (Raise (missing_database target_db),
     (h ++ [mkEntry (CLookup blueprint_id) true;
            mkEntry (CRun (show_databases target_db) []) true])%list,
     Blueprints.init_locals,
     [Blueprints.log "INFO" "initialization" blueprint_id "starting"
        ("Initializing deployment for blueprint '" ++ blueprint_id ++ "'");
      Blueprints.log "INFO" "database_validation" target_db "starting"
        ("Validating target database '" ++ target_db ++ "'")]).
Proof.
  unfold Compiler.new_renderer. cbn [outcome fst]. intros Hr. cbv zeta. intros Hshow.
  unfold Blueprints.deploy_steps, bind at 1. unfold yield at 1.
  unfold bind at 1. unfold Compiler.new_renderer. cbv zeta. rewrite Hr.
  assert (Hread : match lookup_blueprint w h blueprint_id with
                  | LookupRaise _ => false
                  | _ => true
                  end = true).
  { destruct (lookup_blueprint w h blueprint_id); [discriminate Hr | reflexivity | reflexivity]. }
  rewrite Hread.
  unfold Blueprints.with_renderer. cbv zeta. cbn [Compiler.get_base_context bc_target].
  unfold bind at 1. unfold Blueprints.step_database_validation.
  unfold bind at 1. unfold yield at 1. unfold bind at 1.
  unfold Compiler.run, world_call. cbv zeta. unfold show_databases in Hshow.
  rewrite Hshow. cbn [is_ok]. unfold raise. cbn [List.app].
  rewrite <- app_assoc. reflexivity.
Qed.

(** X11: when the target database does not exist, a streamed deployment stops
    before anything is created: after the lookup of the blueprint its only
    statement is the check of the database; the status update then records
    an empty object list with the error, and the error is raised again, no
    step completed. *)
Theorem missing_database_creates_nothing (h : history) (blueprint_id : string) (ro rf : bool)
    (db : option string) (r : SQLRenderer) :
  outcome (@Compiler.new_renderer w Blueprints.locals event blueprint_id ro db h
             Blueprints.init_locals) = Ok r ->
  let target_db := ds_database (Compiler.target_config r) in
  client_run w (h ++ [mkEntry (CLookup blueprint_id) true])%list (show_databases target_db) []
  = Ok [] ->
  let x := Blueprints.deploy w h blueprint_id ro rf db in
  outcome x = Raise (missing_database target_db)
  /\ final_locals x = Blueprints.init_locals
  /\ map ev_step (yielded x) = ["initialization"; "database_validation"; "deployment"]
  /\ exists connected updated,
       final_history x
       = (h ++ [mkEntry (CLookup blueprint_id) true;
                mkEntry (CRun (show_databases target_db) []) true]
            ++ status_update_calls w blueprint_id []
                 (Some (exn_msg (missing_database target_db))) connected updated)%list.
Proof.
  intros Hr target_db Hshow x. subst x.
  destruct (deploy_run w h blueprint_id ro rf db) as (c & u & E). cbv zeta in E.
  rewrite (deploy_steps_missing_database h blueprint_id ro rf db r Hr Hshow) in E.
  cbn [outcome final_history final_locals yielded fst snd] in E. rewrite E.
  cbn [outcome final_history final_locals yielded fst snd].
  split; [reflexivity|]. split; [reflexivity|]. split; [reflexivity|].
  exists c, u. rewrite <- app_assoc. reflexivity.
Qed.

End MissingDatabase.

(** A warehouse without any database. *)
Definition empty_warehouse : World :=
  let w := plain_world in
  {| jinja := jinja w;
     metadata := metadata w;
     logs_database := logs_database w;
     logs_schema := logs_schema w;
     logs_table := logs_table w;
     config_database_name := config_database_name w;
     config_schema_name := config_schema_name w;
     lookup_blueprint := lookup_blueprint w;
     load_group_by_id := load_group_by_id w;
     dimensional_models_get_all := dimensional_models_get_all w;
     blueprints_get_all := blueprints_get_all w;
     connect := connect w;
     client_run := fun h sql params =>
       if PyStr.startswith sql "SHOW DATABASES" then Ok [] else client_run w h sql params;
     insert_log := insert_log w;
     view_deploy := view_deploy w |}.

Lemma missing_database_creates_nothing_witness :
  outcome (Blueprints.deploy empty_warehouse [] "assets" true true None)
  = Raise (missing_database "unified_honey")
  /\ final_locals (Blueprints.deploy empty_warehouse [] "assets" true true None)
     = Blueprints.init_locals.
Proof.
  destruct (missing_database_creates_nothing empty_warehouse [] "assets" true true None
              assets_renderer eq_refl eq_refl) as (Hout & Hl & _).
  split; [exact Hout | exact Hl].
Defined.

(** ** The blueprint deployment endpoint *)

Section FollowRun.
Variable w : World.
Variable to_json : Follow.audit -> string.
Variable req : Follow.request.

Abbreviation FG := (gen Follow.locals Follow.sse).

Lemma follow_send_event_run (event_type : string) (data : Follow.payload) (h : history)
    (l : Follow.locals) :
  Follow.send_event event_type data h l
  = (Ok tt, h,
     Follow.mkLocals (Follow.deployment_events l ++ [Follow.mkSse event_type data])%list
       (Follow.final_summary l) (Follow.successful l) (Follow.failed l)
       (Follow.error_message l),
     [Follow.mkSse event_type data]).
Proof. reflexivity. Qed.

(** The events of one blueprint, as this endpoint sends them. *)
Definition forwarded (evs : list event) : list Follow.sse :=
  map (fun log_event => Follow.mkSse "log" (Follow.PEvent log_event)) evs.

Definition with_events (l : Follow.locals) (evs : list Follow.sse) : Follow.locals :=
  Follow.mkLocals (Follow.deployment_events l ++ evs)%list (Follow.final_summary l)
    (Follow.successful l) (Follow.failed l) (Follow.error_message l).

Lemma with_events_nil (l : Follow.locals) : with_events l [] = l.
Proof. destruct l. unfold with_events. cbn. rewrite app_nil_r. reflexivity. Qed.

Lemma forward_run (evs : list event) (h : history) (l : Follow.locals) :
  for_each evs (fun log_event => Follow.send_event "log" (Follow.PEvent log_event)) h l
  = (Ok tt, h, with_events l (forwarded evs), forwarded evs).
Proof.
  revert l. induction evs as [|ev evs IH]; intros l; cbn [for_each forwarded map].
  - unfold ret. rewrite with_events_nil. reflexivity.
  - unfold bind at 1. rewrite follow_send_event_run. rewrite IH.
    unfold with_events. cbn. rewrite <- app_assoc. reflexivity.
Qed.

(** A streamed deployment that returns has sent its [complete] event. *)
Lemma deploy_complete_seen (h : history) (blueprint_id : string) (ro rf : bool)
    (db : option string) :
  let d := Blueprints.deploy w h blueprint_id ro rf db in
  outcome d = Ok tt -> existsb Utilities.is_complete (yielded d) = true.
Proof.
  cbv zeta. destruct (deploy_run w h blueprint_id ro rf db) as (c & u & E). cbv zeta in E.
  rewrite E. clear E.
  destruct (Blueprints.deploy_steps w blueprint_id ro rf db h Blueprints.init_locals)
    as [[[[[]|e] h0] l0] w0]; cbn [outcome final_history final_locals yielded fst snd].
  - intros _. rewrite existsb_app. cbn. apply orb_true_r.
  - discriminate.
Qed.

Definition started (current : nat) (blueprint_id : string) : Follow.sse :=
  Follow.mkSse "blueprint_start"
    (Follow.PBlueprintStart blueprint_id current (Follow.total_count req)).

Definition finished (blueprint_id : string) (r : result unit) : Follow.sse :=
  match r with
  | Ok _ =>
      Follow.mkSse "blueprint_complete" (Follow.PBlueprintComplete blueprint_id "success" None)
  | Raise e =>
      Follow.mkSse "blueprint_complete"
        (Follow.PBlueprintComplete blueprint_id "failed" (Some (exn_msg e)))
  end.

(** The events of one turn of the loop, given the run of the deployment. *)
Definition turn_events (current : nat) (blueprint_id : string) (evs : list event)
    (r : result unit) : list Follow.sse :=
  (started current blueprint_id :: forwarded evs ++ [finished blueprint_id r])%list.

(** The variables after one turn of the loop. *)
Definition recorded (blueprint_id : string) (r : result unit) (l : Follow.locals)
    (evs : list Follow.sse) : Follow.locals :=
  match r with
  | Ok _ =>
      Follow.mkLocals (Follow.deployment_events l ++ evs)%list (Follow.final_summary l)
        (Follow.successful l ++ [blueprint_id])%list (Follow.failed l)
        (Follow.error_message l)
  | Raise e =>
      Follow.mkLocals (Follow.deployment_events l ++ evs)%list (Follow.final_summary l)
        (Follow.successful l)
        (Follow.failed l ++ [Follow.mkFailure blueprint_id (exn_msg e)])%list
        (Follow.error_message l)
  end.

Definition deployment (h : history) (blueprint_id : string) :=
  Blueprints.deploy w h blueprint_id (Follow.replace_objects req) (Follow.run_full_refresh req)
    (Follow.database_name req).

Lemma deploy_one_run (current : nat) (blueprint_id : string) (h : history)
    (l : Follow.locals) :
  let d := deployment h blueprint_id in
  let evs := turn_events current blueprint_id (yielded d) (outcome d) in
  Follow.deploy_one w req current blueprint_id h l
  = (Ok tt, final_history d, recorded blueprint_id (outcome d) l evs, evs).
Proof.
  cbv zeta. unfold Follow.deploy_one. unfold bind at 1. rewrite follow_send_event_run.
  unfold try_catch. unfold bind at 1. unfold Endpoint.run_sub at 1.
  pose proof (deploy_complete_seen h blueprint_id (Follow.replace_objects req)
                (Follow.run_full_refresh req) (Follow.database_name req)) as Hseen.
  cbv zeta in Hseen. unfold deployment. unfold Blueprints.deploy in *.
  destruct (Blueprints._deploy_single_blueprint_streaming w blueprint_id
              (Follow.replace_objects req) (Follow.run_full_refresh req)
              (Follow.database_name req) h Blueprints.init_locals)
    as [[[[[]|e] h0] l0] w0]; cbn [outcome final_history final_locals yielded fst snd] in *.
  - unfold bind at 1. rewrite forward_run. unfold bind at 1. cbn [lift_result]. unfold ret at 1.
    rewrite (Hseen eq_refl). unfold bind at 1. unfold Follow.add_successful, modify.
    rewrite follow_send_event_run. unfold turn_events, recorded, with_events, started, finished.
    cbn. rewrite <- !app_assoc. reflexivity.
  - unfold bind at 1. rewrite forward_run. unfold bind at 1. cbn [lift_result]. unfold raise at 1.
    unfold bind at 1. unfold Follow.add_failed, modify.
    rewrite follow_send_event_run. unfold turn_events, recorded, with_events, started, finished.
    cbn. rewrite <- !app_assoc. reflexivity.
Qed.

(** Whether each blueprint's deployment returns, each one run on the call log
    the previous ones leave. *)
Fixpoint outcomes (h : history) (ids : list string) : list bool :=
  match ids with
  | [] => []
  | blueprint_id :: rest =>
      let d := deployment h blueprint_id in
      is_ok (outcome d) :: outcomes (final_history d) rest
  end.

(** The ids at the positions that carry a given flag. *)
Definition pick (keep : bool) (flags : list bool) (ids : list string) : list string :=
  map snd (filter (fun p => Bool.eqb (fst p) keep) (combine flags ids)).

(** The start and completion events of a stream, by name and blueprint. *)
Definition outline (evs : list Follow.sse) : list (string * string) :=
  flat_map
    (fun e =>
       match Follow.sse_data e with
       | Follow.PBlueprintStart blueprint_id _ _ => [("start", blueprint_id)]
       | Follow.PBlueprintComplete blueprint_id status _ => [(status, blueprint_id)]
       | _ => []
       end)
    evs.

Definition expected_outline (flags : list bool) (ids : list string) : list (string * string) :=
  flat_map
    (fun p => [("start", snd p); (if fst p : bool then "success" else "failed", snd p)])
    (combine flags ids).

Lemma outline_app (a b : list Follow.sse) : outline (a ++ b) = (outline a ++ outline b)%list.
Proof. apply flat_map_app. Qed.

Lemma outline_forwarded (evs : list event) : outline (forwarded evs) = [].
Proof. induction evs as [|e evs IH]; [reflexivity|exact IH]. Qed.

Lemma outline_turn (current : nat) (blueprint_id : string) (evs : list event)
    (r : result unit) :
  outline (turn_events current blueprint_id evs r)
  = [("start", blueprint_id); (if is_ok r then "success" else "failed", blueprint_id)].
Proof.
  unfold turn_events. change (started current blueprint_id :: ?l)%list
    with ([started current blueprint_id] ++ l)%list.
  rewrite !outline_app, outline_forwarded. destruct r; reflexivity.
Qed.

Lemma deploy_all_run (ids : list string) :
  forall current h l,
    exists h' l' evs,
      Follow.deploy_all w req current ids h l = (Ok tt, h', l', evs)
      /\ (exists rest, h' = (h ++ rest)%list)
      /\ Follow.deployment_events l' = (Follow.deployment_events l ++ evs)%list
      /\ Follow.final_summary l' = Follow.final_summary l
      /\ Follow.error_message l' = Follow.error_message l
      /\ Follow.successful l' = (Follow.successful l ++ pick true (outcomes h ids) ids)%list
      /\ map Follow.f_blueprint_id (Follow.failed l')
         = (map Follow.f_blueprint_id (Follow.failed l) ++ pick false (outcomes h ids) ids)%list
      /\ outline evs = expected_outline (outcomes h ids) ids.
Proof.
  induction ids as [|blueprint_id ids IH]; intros current h l; cbn [Follow.deploy_all outcomes].
  - exists h, l, []. unfold ret, pick. cbn. rewrite !app_nil_r.
    repeat split; try reflexivity. exists []. rewrite app_nil_r. reflexivity.
  - unfold bind at 1. rewrite deploy_one_run. cbv zeta.
    set (d := deployment h blueprint_id).
    set (evs1 := turn_events (S current) blueprint_id (yielded d) (outcome d)).
    destruct (IH (S current) (final_history d) (recorded blueprint_id (outcome d) l evs1))
      as (h' & l' & evs & E & (rest & Hh) & Hev & Hsum & Herr & Hok & Hfail & Hout).
    rewrite E. exists h', l', (evs1 ++ evs)%list.
    assert (Hd : exists rest0, final_history d = (h ++ rest0)%list).
    { unfold d, deployment.
      destruct (deploy_run w h blueprint_id (Follow.replace_objects req)
                  (Follow.run_full_refresh req) (Follow.database_name req)) as (c & u & Ed).
      cbv zeta in Ed. rewrite Ed.
      destruct (deploy_steps_confined w blueprint_id (Follow.replace_objects req)
                  (Follow.run_full_refresh req) (Follow.database_name req) h
                  Blueprints.init_locals) as (rest0 & Hrest0 & _).
      destruct (Blueprints.deploy_steps w blueprint_id (Follow.replace_objects req)
                  (Follow.run_full_refresh req) (Follow.database_name req) h
                  Blueprints.init_locals)
        as [[[[[]|e] h0] l0] w0]; cbn [outcome final_history final_locals yielded fst snd] in *;
        subst h0; rewrite <- app_assoc; eexists; reflexivity. }
    destruct Hd as (rest0 & Hd).
    split; [reflexivity|]. split.
    { exists (rest0 ++ rest)%list. rewrite Hh, Hd, app_assoc. reflexivity. }
    rewrite Hev, Hsum, Herr, Hok, Hfail, outline_app, Hout. unfold evs1.
    rewrite outline_turn. unfold pick, expected_outline.
    destruct (outcome d) as [[]|e];
      cbn [recorded Follow.deployment_events Follow.final_summary Follow.error_message
             Follow.successful Follow.failed is_ok combine filter map flat_map fst snd
             Bool.eqb List.app Follow.f_blueprint_id];
      rewrite ?map_app, <- ?app_assoc; cbn [map List.app Follow.f_blueprint_id].
    all: repeat split; reflexivity.
Qed.

Lemma outcomes_length (ids : list string) :
  forall h, List.length (outcomes h ids) = List.length ids.
Proof. induction ids as [|i ids IH]; intros h; cbn; [reflexivity | rewrite IH; reflexivity]. Qed.

Lemma pick_counts (flags : list bool) :
  forall ids, List.length flags = List.length ids ->
    (List.length (pick true flags ids) + List.length (pick false flags ids))%nat
    = List.length ids
    /\ (List.length (pick false flags ids) =? 0)%nat = forallb (fun b => b) flags
    /\ (List.length (pick true flags ids) =? 0)%nat = negb (existsb (fun b => b) flags).
Proof.
  unfold pick. induction flags as [|b flags IH]; intros [|i ids] Hlen; try discriminate.
  - repeat split.
  - injection Hlen as Hlen. destruct (IH ids Hlen) as (Hsum & Hall & Hnone).
    destruct b; cbn [combine filter fst snd Bool.eqb map List.length forallb existsb
                       andb orb negb Nat.eqb].
    + repeat split; [lia | exact Hall].
    + repeat split; [lia | exact Hnone].
Qed.

(** The calls of the recording step, made on a given call log. *)
Definition recording (h : history) (record : Follow.audit) : history :=
  match DeploymentLogs._get_deployment_logs_table_name w with
  | None => []
  | Some table_name =>
      match connect w h with
      | Raise _ => [mkEntry CConnect false]
      | Ok _ =>
          [mkEntry CConnect true;
           mkEntry (CRun (Follow.insert_sql table_name) [Some (to_json record)])
             (is_ok (client_run w (h ++ [mkEntry CConnect true])%list
                       (Follow.insert_sql table_name) [Some (to_json record)]))]
      end
  end.

Lemma follow_persist_run (record : Follow.audit) (h : history) (l : Follow.locals) :
  Follow.persist_deployment_log w to_json record h l
  = (Ok tt, (h ++ recording h record)%list, l, []).
Proof.
  unfold Follow.persist_deployment_log, recording.
  destruct (DeploymentLogs._get_deployment_logs_table_name w) as [table_name|].
  - unfold try_catch, bind, world_call, Compiler.run_with, world_call, ret.
    destruct (connect w h) as [[]|e]; cbn [is_ok].
    + destruct (client_run w (h ++ [mkEntry CConnect true])%list
                  (Follow.insert_sql table_name) [Some (to_json record)]) as [rs|e];
        cbn [is_ok]; rewrite <- app_assoc; reflexivity.
    + reflexivity.
  - unfold ret. rewrite app_nil_r. reflexivity.
Qed.

Definition starting : Follow.sse :=
  Follow.mkSse "log"
    (Follow.PLog ("Starting deployment of " ++ PyStr.of_nat (Follow.total_count req)
                    ++ " blueprint(s)") "INFO").

Definition closing : Follow.sse := Follow.mkSse "close" Follow.PClose.

(** The status of a run by the outcomes of its blueprints. *)
Definition status_of (flags : list bool) : string :=
  if forallb (fun b => b) flags then "success"
  else if existsb (fun b => b) flags then "partial"
  else "failed".

(** X12: when the shared connection opens, every requested blueprint is
    attempted, in the order of the request, each on the call log the
    previous ones leave, and a failure stops nothing: the blueprints whose
    deployment returns make up [successful], the others [failed], both in
    the order of the request; each blueprint's start event is followed by
    its completion event, with [success] or [failed], before the next one
    starts.  The generator does not raise and sets no top-level error.  The
    record handed to the recording step counts every blueprint once, has the
    status [success] when all deployments returned (also for an empty
    request), [failed] when none did and [partial] otherwise, and holds the
    events sent; the recording step makes the last calls of the run. *)
Theorem follow_accounts_for_every_blueprint (h : history) :
  connect w h = Ok tt ->
  let x := Follow.run_endpoint w to_json req h in
  let l := final_locals x in
  let ids := Follow.blueprint_ids req in
  let flags := outcomes (h ++ [mkEntry CConnect true])%list ids in
  let record := Follow.audit_of req l in
  outcome x = Ok tt
  /\ Follow.successful l = pick true flags ids
  /\ map Follow.f_blueprint_id (Follow.failed l) = pick false flags ids
  /\ outline (yielded x) = expected_outline flags ids
  /\ Follow.error_message l = None
  /\ (Follow.au_success_count record + Follow.au_error_count record)%nat
     = Follow.au_total_count record
  /\ Follow.au_status record = status_of flags
  /\ Follow.au_events record = yielded x
  /\ Follow.au_summary record
     = Follow.mkSummary
         ("Deployment complete: " ++ PyStr.of_nat (List.length (Follow.successful l))
            ++ " successful, " ++ PyStr.of_nat (List.length (Follow.failed l)) ++ " failed")
         (List.length ids) (Follow.successful l) (Follow.failed l)
  /\ exists before, final_history x = (before ++ recording before record)%list.
Proof.
  intros Hconnect. cbv zeta.
  remember (Follow.run_endpoint w to_json req h) as x eqn:Ex.
  unfold Follow.run_endpoint, Follow.event_generator in Ex.
  unfold bind at 1 in Ex. unfold try_catch at 1 in Ex. unfold Follow.run_body in Ex.
  unfold bind at 1 in Ex. rewrite follow_send_event_run in Ex.
  unfold bind at 1 in Ex. unfold world_call at 1 in Ex. rewrite Hconnect in Ex.
  cbn [is_ok] in Ex.
  unfold bind at 1 in Ex. rewrite follow_send_event_run in Ex.
  unfold bind at 1 in Ex.
  match type of Ex with
  | context [Follow.deploy_all w req 0 ?ids ?h1 ?l1] =>
      destruct (deploy_all_run ids 0 h1 l1)
        as (h' & l' & evs & E & _ & Hev & Hsum & Herr & Hok & Hfail & Hout);
      rewrite E in Ex; clear E
  end.
  cbn [Follow.init_locals Follow.deployment_events Follow.final_summary Follow.error_message
         Follow.successful Follow.failed List.app map] in Hev, Hsum, Herr, Hok, Hfail.
  unfold bind at 1 in Ex. unfold get_locals at 1 in Ex.
  unfold bind at 1 in Ex. unfold Follow.set_final_summary at 1, modify at 1 in Ex.
  rewrite follow_send_event_run in Ex.
  unfold bind at 1 in Ex. rewrite follow_send_event_run in Ex.
  unfold bind at 1 in Ex. unfold get_locals at 1 in Ex.
  rewrite follow_persist_run in Ex. subst x.
  cbn [outcome final_history final_locals yielded fst snd List.app
         Follow.deployment_events Follow.final_summary Follow.error_message
         Follow.successful Follow.failed].
  set (flags := outcomes (h ++ [mkEntry CConnect true])%list (Follow.blueprint_ids req)) in *.
  assert (Hlen : List.length flags = List.length (Follow.blueprint_ids req))
    by apply outcomes_length.
  destruct (pick_counts flags (Follow.blueprint_ids req) Hlen) as (Hsum' & Hall & Hnone).
  assert (Hf : List.length (Follow.failed l')
               = List.length (pick false flags (Follow.blueprint_ids req))).
  { rewrite <- Hfail. rewrite length_map. reflexivity. }
  split; [reflexivity|]. split; [exact Hok|]. split; [exact Hfail|].
  split.
  { rewrite ?app_nil_r.
    change (?a :: ?b :: (?c ++ ?d) ++ ?e)%list with ([a; b] ++ (c ++ d) ++ e)%list.
    rewrite !outline_app, Hout. cbn. rewrite ?app_nil_r. reflexivity. }
  split; [exact Herr|].
  unfold Follow.audit_of.
  cbn [Follow.au_success_count Follow.au_error_count Follow.au_total_count Follow.au_status
         Follow.au_events Follow.au_summary Follow.deployment_events Follow.final_summary
         Follow.error_message Follow.successful Follow.failed].
  rewrite Herr, Hev, Hf, Hok. unfold Follow.total_count, Endpoint.error_count_of,
    Endpoint.aggregate_status, status_of. cbn [truthy orb].
  split.
  { destruct (List.length (pick false flags (Follow.blueprint_ids req))) eqn:Ef;
      cbn [Nat.ltb Nat.leb]; lia. }
  split.
  { rewrite <- Hall, Hnone.
    destruct (List.length (pick false flags (Follow.blueprint_ids req))) eqn:Ef.
    - reflexivity.
    - cbn [Nat.ltb Nat.leb Nat.eqb].
      destruct (existsb (fun b => b) flags); reflexivity. }
  split.
  { cbn. rewrite ?app_nil_r, <- ?app_assoc. reflexivity. }
  split; [reflexivity|].
  eexists. reflexivity.
Qed.

End FollowRun.

Section FollowOffline.
Variable w : World.
Variable to_json : Follow.audit -> string.
Variable req : Follow.request.

(** X13: when the shared connection does not open, no blueprint is attempted:
    the stream is the first log event, the error event with the message of
    the exception and the close event; the only calls are the refused
    connection and the recording step.  The record counts no success; its
    status is [failed] with one error, unless the exception has an empty
    message: then the status is [success] with no error. *)
Theorem follow_connection_failure (h : history) (e : exn) :
  connect w h = Raise e ->
  let x := Follow.run_endpoint w to_json req h in
  let l := final_locals x in
  let record := Follow.audit_of req l in
  let refused := (h ++ [mkEntry CConnect false])%list in
  let said := truthy (Some (exn_msg e)) in
  outcome x = Ok tt
  /\ yielded x
     = [starting req; Follow.mkSse "error" (Follow.PError (exn_msg e)); closing]
  /\ Follow.successful l = []
  /\ Follow.failed l = []
  /\ final_history x = (refused ++ recording w to_json refused record)%list
  /\ Follow.au_events record = yielded x
  /\ Follow.au_success_count record = 0
  /\ Follow.au_total_count record = List.length (Follow.blueprint_ids req)
  /\ Follow.au_error_count record = (if said then 1 else 0)
  /\ Follow.au_status record = (if said then "failed" else "success")
  /\ Follow.sm_message (Follow.au_summary record)
     = (if said then exn_msg e else "Deployment ended before summary event").
Proof.
  intros Hconnect. cbv zeta.
  remember (Follow.run_endpoint w to_json req h) as x eqn:Ex.
  unfold Follow.run_endpoint, Follow.event_generator in Ex.
  unfold bind at 1 in Ex. unfold try_catch at 1 in Ex. unfold Follow.run_body in Ex.
  unfold bind at 1 in Ex. rewrite follow_send_event_run in Ex.
  unfold bind at 1 in Ex. unfold world_call at 1 in Ex. rewrite Hconnect in Ex.
  cbn [is_ok] in Ex.
  unfold bind at 1 in Ex. unfold Follow.set_error_message at 1, modify at 1 in Ex.
  rewrite follow_send_event_run in Ex.
  unfold bind at 1 in Ex. rewrite follow_send_event_run in Ex.
  unfold bind at 1 in Ex. unfold get_locals at 1 in Ex.
  rewrite follow_persist_run in Ex. subst x.
  cbn [outcome final_history final_locals yielded fst snd List.app
         Follow.init_locals Follow.deployment_events Follow.final_summary
         Follow.error_message Follow.successful Follow.failed].
  unfold Follow.audit_of.
  cbn [Follow.au_success_count Follow.au_error_count Follow.au_total_count Follow.au_status
         Follow.au_events Follow.au_summary Follow.deployment_events Follow.final_summary
         Follow.error_message Follow.successful Follow.failed List.length List.app
         Follow.sm_message].
  unfold Endpoint.error_count_of, Endpoint.aggregate_status, por.
  cbn [Nat.ltb Nat.leb Nat.eqb orb].
  repeat split; try reflexivity.
  - rewrite orb_false_r. reflexivity.
  - destruct (truthy (Some (exn_msg e))); reflexivity.
Qed.

End FollowOffline.

(** A serializer for the examples. *)
Definition status_json (record : Follow.audit) : string :=
  "{" ++ String (ascii_of_nat 34) "status" ++ String (ascii_of_nat 34) ": "
    ++ String (ascii_of_nat 34) (Follow.au_status record) ++ String (ascii_of_nat 34) "}".

(** A request for one blueprint of the store and one that is not there. *)
Definition two_blueprints : Follow.request :=
  Follow.mkRequest ["assets"; "zz"; "a"] true false None.

Lemma follow_accounts_for_every_blueprint_witness :
  connect plain_world [] = Ok tt
  /\ (let l := final_locals (Follow.run_endpoint plain_world status_json two_blueprints []) in
      Follow.successful l = ["assets"; "a"]
      /\ map Follow.f_blueprint_id (Follow.failed l) = ["zz"]
      /\ Follow.au_status (Follow.audit_of two_blueprints l) = "partial").
Proof.
  split; [reflexivity|]. cbv zeta.
  destruct (follow_accounts_for_every_blueprint plain_world status_json two_blueprints []
              eq_refl) as (_ & Hok & Hfail & _ & _ & _ & Hst & _).
  rewrite Hok, Hfail, Hst. vm_compute. repeat split.
Defined.

(** A world whose warehouse refuses every connection. *)
Definition offline_world : World :=
  let w := plain_world in
  {| jinja := jinja w;
     metadata := metadata w;
     logs_database := logs_database w;
     logs_schema := logs_schema w;
     logs_table := logs_table w;
     config_database_name := config_database_name w;
     config_schema_name := config_schema_name w;
     lookup_blueprint := lookup_blueprint w;
     load_group_by_id := load_group_by_id w;
     dimensional_models_get_all := dimensional_models_get_all w;
     blueprints_get_all := blueprints_get_all w;
     connect := fun _ => Raise (mkExn OtherError "connection refused");
     client_run := client_run w;
     insert_log := insert_log w;
     view_deploy := view_deploy w |}.

Lemma follow_connection_failure_witness :
  connect offline_world [] = Raise (mkExn OtherError "connection refused")
  /\ (let x := Follow.run_endpoint offline_world status_json two_blueprints [] in
      final_history x = [mkEntry CConnect false; mkEntry CConnect false]
      /\ Follow.au_status (Follow.audit_of two_blueprints (final_locals x)) = "failed").
Proof.
  split; [reflexivity|]. cbv zeta.
  destruct (follow_connection_failure offline_world status_json two_blueprints []
              (mkExn OtherError "connection refused") eq_refl)
    as (_ & _ & _ & _ & Hh & _ & _ & _ & _ & Hst & _).
  rewrite Hh, Hst. split; reflexivity.
Defined.

(** ** The full-refresh endpoint *)

Section RefreshRun.
Variable w : World.

Definition statement (sql : string) : call := CRun sql [].

Definition succeeded (c : call) : entry := mkEntry c true.

(** A script of calls, run until one fails: all of it succeeded, or its
    first calls succeeded and the next one failed. *)
Definition ran (script : list call) (made : history) (failure : option exn) : Prop :=
  match failure with
  | None => made = map succeeded script
  | Some _ =>
      exists before c after,
        script = (before ++ c :: after)%list
        /\ made = (map succeeded before ++ [mkEntry c false])%list
  end.

Lemma ran_cons (c : call) (script : list call) (made : history) (failure : option exn) :
  ran script made failure -> ran (c :: script) (succeeded c :: made) failure.
Proof.
  destruct failure as [e|]; cbn [ran].
  - intros (before & c' & after & -> & ->). exists (c :: before), c', after.
    split; reflexivity.
  - intros ->. reflexivity.
Qed.

Lemma ran_first_fails (c : call) (script : list call) (e : exn) :
  ran (c :: script) [mkEntry c false] (Some e).
Proof. exists [], c, script. split; reflexivity. Qed.

Definition failure_of_outcome {A} (r : result A) : option exn :=
  match r with Ok _ => None | Raise e => Some e end.

Lemma run_each (sqls : list string) :
  forall (h : history) (l : unit),
    exists made r,
      (for_each sqls (fun sql => Compiler.run w sql ;; ret tt) h l
         : result unit * history * unit * list event)
      = (r, (h ++ made)%list, l, [])
      /\ ran (map statement sqls) made (failure_of_outcome r).
Proof.
  induction sqls as [|sql sqls IH]; intros h l; cbn [for_each map].
  - exists [], (Ok tt). rewrite app_nil_r. split; reflexivity.
  - unfold bind at 1. unfold bind at 1. unfold Compiler.run at 1, world_call at 1.
    destruct (client_run w h sql []) as [rs|e]; cbn [is_ok].
    + unfold ret at 1.
      destruct (IH (h ++ [mkEntry (CRun sql []) true])%list l) as (made & r & E & Hr).
      rewrite E. exists (succeeded (statement sql) :: made), r. rewrite <- app_assoc.
      split; [reflexivity|]. apply ran_cons. exact Hr.
    + exists [mkEntry (statement sql) false], (Raise e).
      split; [reflexivity|]. apply ran_first_fails.
Qed.

(** The calls the endpoint makes with a renderer: the connection, the
    truncate statements, then the insert block when one was found. *)
Definition refresh_script (r : SQLRenderer) : list call :=
  let seg := Blueprints.segment_full_refresh (Compiler.full_refresh_mti w r) in
  (CConnect :: map statement (fst seg)
     ++ match snd seg with Some insert_sql => [statement insert_sql] | None => [] end)%list.

Lemma ran_app (s1 s2 : list call) (m1 m2 : history) (f : option exn) :
  m1 = map succeeded s1 -> ran s2 m2 f -> ran (s1 ++ s2)%list (m1 ++ m2)%list f.
Proof.
  intros -> H. induction s1 as [|c s1 IH]; [exact H|].
  cbn [List.app map]. apply ran_cons. exact IH.
Qed.

Lemma ran_prefix (s1 s2 : list call) (m1 : history) (e : exn) :
  ran s1 m1 (Some e) -> ran (s1 ++ s2)%list m1 (Some e).
Proof.
  intros (before & c & after & -> & ->). exists before, c, (after ++ s2)%list.
  rewrite <- app_assoc. split; reflexivity.
Qed.

(** X14: the endpoint always answers.  With a renderer, its calls after the
    configuration read are the connection, the truncate statements in the
    order of the text and then the insert block, up to the first one that
    fails: it answers with success exactly when all of them returned (also
    when the text holds no statement at all), and otherwise with the error of
    the failed call, every earlier statement having run - a refused insert
    leaves the truncations done. *)
Theorem full_refresh_runs_until_failure (table_name : string) (r : SQLRenderer)
    (h : history) :
  Compiler.init_from_lookup w table_name true None (lookup_blueprint w h table_name) = Ok r ->
  let x := FullRefresh.full_refresh_table w table_name h tt in
  exists made failure,
    final_history x = (h ++ mkEntry (CLookup table_name) true :: made)%list
    /\ yielded x = []
    /\ ran (refresh_script r) made failure
    /\ outcome x
       = Ok (match failure with
             | None => FullRefresh.completed table_name
             | Some e => FullRefresh.http_error e
             end).
Proof.
  intros Hr. cbv zeta.
  remember (FullRefresh.full_refresh_table w table_name h tt) as x eqn:Ex.
  unfold FullRefresh.full_refresh_table, FullRefresh.refresh in Ex.
  unfold try_catch in Ex. unfold bind at 1 in Ex. unfold bind at 1 in Ex.
  unfold Compiler.new_renderer at 1 in Ex. rewrite Hr in Ex.
  assert (Hread : match lookup_blueprint w h table_name with
                  | LookupRaise _ => false | _ => true end = true).
  { destruct (lookup_blueprint w h table_name); [discriminate Hr | reflexivity..]. }
  rewrite Hread in Ex. clear Hread.
  set (h1 := (h ++ [mkEntry (CLookup table_name) true])%list) in Ex.
  unfold bind at 1 in Ex. unfold world_call at 1 in Ex. unfold refresh_script.
  destruct (connect w h1) as [[]|e]; cbn [is_ok] in Ex.
  - destruct (Blueprints.segment_full_refresh (Compiler.full_refresh_mti w r))
      as [truncates insert_block]. cbn [fst snd].
    unfold bind at 1 in Ex.
    destruct (run_each truncates (h1 ++ [mkEntry CConnect true])%list tt)
      as (made & r0 & E & Hran).
    rewrite E in Ex. clear E.
    destruct r0 as [[]|e]; cbn [failure_of_outcome] in Hran.
    + destruct insert_block as [insert_sql|].
      * unfold bind at 1 in Ex. unfold Compiler.run at 1, world_call at 1 in Ex.
        destruct (client_run w ((h1 ++ [mkEntry CConnect true]) ++ made)%list insert_sql [])
          as [rs|e]; cbn [is_ok] in Ex; subst x.
        -- exists (succeeded CConnect :: made ++ [succeeded (statement insert_sql)])%list, None.
           unfold h1, ret. cbn [outcome final_history yielded fst snd List.app].
           rewrite <- !app_assoc. cbn [List.app].
           split; [reflexivity|]. split; [reflexivity|]. split; [|reflexivity].
           cbn [ran] in *. subst made. cbn [map]. rewrite map_app. reflexivity.
        -- exists (succeeded CConnect :: made ++ [mkEntry (statement insert_sql) false])%list,
             (Some e).
           unfold h1, ret. cbn [outcome final_history yielded fst snd List.app].
           rewrite <- !app_assoc. cbn [List.app].
           split; [reflexivity|]. split; [reflexivity|]. split; [|reflexivity].
           cbn [ran] in Hran. subst made.
           exists (CConnect :: map statement truncates), (statement insert_sql), [].
           split; [reflexivity|]. cbn [map List.app]. reflexivity.
      * subst x. exists (succeeded CConnect :: made), None.
        unfold h1, ret. cbn [outcome final_history yielded fst snd List.app].
        rewrite <- !app_assoc. cbn [List.app].
        split; [reflexivity|]. split; [reflexivity|]. split; [|reflexivity].
        cbn [ran] in *. subst made. rewrite app_nil_r. reflexivity.
    + subst x. exists (succeeded CConnect :: made), (Some e).
      unfold h1, ret. cbn [outcome final_history yielded fst snd List.app].
      rewrite <- !app_assoc. cbn [List.app].
      split; [reflexivity|]. split; [reflexivity|]. split; [|reflexivity].
      apply ran_cons. apply ran_prefix. exact Hran.
  - subst x. exists [mkEntry CConnect false], (Some e).
    unfold h1, ret. cbn [outcome final_history yielded fst snd List.app].
    rewrite <- !app_assoc. cbn [List.app].
    split; [reflexivity|]. split; [reflexivity|]. split; [|reflexivity].
    apply ran_first_fails.
Qed.


End RefreshRun.

Lemma full_refresh_runs_until_failure_witness :
  Compiler.init_from_lookup plain_world "assets" true None
    (lookup_blueprint plain_world [] "assets") = Ok assets_renderer
  /\ exists made failure,
       final_history (FullRefresh.full_refresh_table plain_world "assets" [] tt)
       = (mkEntry (CLookup "assets") true :: made)%list
       /\ ran (refresh_script plain_world assets_renderer) made failure.
Proof.
  split; [reflexivity|].
  destruct (full_refresh_runs_until_failure plain_world "assets" assets_renderer [] eq_refl)
    as (made & failure & Hh & _ & Hran & _).
  exists made, failure. split; [exact Hh | exact Hran].
Defined.



(** ** The staged endpoint at its edges *)

Section StagedEdges.
Variable w : World.
Variable req : Endpoint.request.

(** A model id that is neither a dimension nor a fact of the configuration. *)
Definition unknown_model (dc : dim_config) (model_id : string) : Prop :=
  Endpoint.find_model (dc_dimensions dc) (PyStr.lower model_id) = Ok None
  /\ Endpoint.find_model (dc_facts dc) (PyStr.lower model_id) = Ok None.

Definition not_found_event (model_id : string) : sse :=
  mkSse "log" (PLog ("Model '" ++ model_id ++ "' not found in configuration") "ERROR").

Definition not_found_unit (model_id : string) : unit_failed :=
  mkUnitFailed "unknown" model_id "Configuration not found".

Lemma staged_send_event_run (event_type : string) (data : payload) (h : history)
    (l : Endpoint.locals) :
  Endpoint.send_event event_type data h l
  = (Ok tt, h,
     Endpoint.mkLocals (Endpoint.deployment_events l ++ [mkSse event_type data])%list
       (Endpoint.final_summary l) (Endpoint.successful l) (Endpoint.failed l)
       (Endpoint.error_message l),
     [mkSse event_type data]).
Proof. reflexivity. Qed.

Lemma process_models_unknown (dc : dim_config) (sources : list source_entry)
    (db sc : string) (ids : list string) :
  Forall (unknown_model dc) ids ->
  forall current h l,
    Endpoint.process_models w req dc sources db sc current ids h l
    = (Ok tt, h,
       Endpoint.mkLocals
         (Endpoint.deployment_events l ++ map not_found_event ids)%list
         (Endpoint.final_summary l) (Endpoint.successful l)
         (Endpoint.failed l ++ map not_found_unit ids)%list
         (Endpoint.error_message l),
       map not_found_event ids).
Proof.
  induction 1 as [|model_id ids [Hd Hf] _ IH]; intros current h l;
    cbn [Endpoint.process_models map].
  - unfold ret. rewrite !app_nil_r. destruct l; reflexivity.
  - unfold bind at 1. unfold Endpoint.process_model.
    rewrite Hd. cbn [lift_result]. unfold bind at 1. unfold ret at 1.
    unfold bind at 1. unfold bind at 1. rewrite Hf. cbn [lift_result]. unfold ret at 1.
    unfold ret at 1.
    unfold bind at 1. unfold Endpoint.add_failed at 1, modify at 1.
    rewrite staged_send_event_run. rewrite IH.
    cbn [Endpoint.deployment_events Endpoint.final_summary Endpoint.successful
           Endpoint.failed Endpoint.error_message List.app].
    rewrite <- !app_assoc. reflexivity.
Qed.

Definition config_read : entry := mkEntry (CConfig "dimensional_models.get_all") true.

Definition blueprints_read : entry := mkEntry (CConfig "blueprints.get_all") true.

Definition staged_starting : sse :=
  mkSse "log"
    (PLog ("Starting staged deployment of " ++ PyStr.of_nat (Endpoint.total_count req)
             ++ " model(s)") "INFO").

Definition staged_connected : sse := mkSse "log" (PLog "Connected to Snowflake" "INFO").

Definition staged_close : sse := mkSse "close" PClose.

(** X16: a run whose requested models are all unknown to the configuration
    runs no statement: after the two configuration reads and the connection
    only the recording step makes calls.  Every id is reported by one error
    log event and counted as a failed unit of type [unknown], in the order
    of the request, and the run goes on to its summary.  The record has the
    status [failed] with one error per id; for an empty request it has the
    status [success]. *)
Theorem staged_unknown_models_run_nothing (h : history) (dc : dim_config)
    (sources : list source_entry) :
  let database := por (Endpoint.model_database req) (dc_model_database dc) in
  let schema := por (Endpoint.model_schema req) (dc_model_schema dc) in
  let ids := Endpoint.model_ids req in
  let opened := (h ++ [config_read; blueprints_read; mkEntry CConnect true])%list in
  dimensional_models_get_all w h = Ok dc ->
  truthy database = true ->
  truthy schema = true ->
  blueprints_get_all w (h ++ [config_read])%list = Ok sources ->
  connect w (h ++ [config_read; blueprints_read])%list = Ok tt ->
  Forall (unknown_model dc) ids ->
  let x := Endpoint.run_endpoint w req h in
  let l := final_locals x in
  let record := Endpoint.audit_of req l in
  final_history x = (opened ++ audit_calls w opened record)%list
  /\ (exists s,
        yielded x
        = ([staged_starting; staged_connected] ++ map not_found_event ids
             ++ [mkSse "complete" (PSummary s); staged_close])%list
        /\ sm_failed s = map not_found_unit ids)
  /\ Endpoint.successful l = []
  /\ Endpoint.failed l = map not_found_unit ids
  /\ au_status record = match ids with [] => "success" | _ => "failed" end
  /\ au_success_count record = 0
  /\ au_error_count record = List.length ids.
Proof.
  cbv zeta. intros Hdc Hdb Hsc Hbp Hconn Hids.
  destruct (event_generator_run w req h) as (_ & Ex). cbv zeta in Ex. rewrite Ex. clear Ex.
  remember (until_close w req h Endpoint.init_locals) as front eqn:Ef.
  unfold until_close in Ef. unfold bind at 1 in Ef. unfold try_catch at 1 in Ef.
  unfold Endpoint.run_body in Ef.
  unfold bind at 1 in Ef. unfold world_call at 1 in Ef. rewrite Hdc in Ef. cbn [is_ok] in Ef.
  rewrite Hdb, Hsc in Ef. cbn [negb orb] in Ef.
  unfold bind at 1 in Ef. unfold world_call at 1 in Ef.
  change (h ++ [mkEntry (CConfig "dimensional_models.get_all") true])%list
    with (h ++ [config_read])%list in Ef.
  rewrite Hbp in Ef. cbn [is_ok] in Ef.
  unfold bind at 1 in Ef. rewrite staged_send_event_run in Ef.
  unfold bind at 1 in Ef. unfold world_call at 1 in Ef.
  change (mkEntry (CConfig "blueprints.get_all") true) with blueprints_read in Ef.
  rewrite <- app_assoc in Ef. cbn [List.app] in Ef. rewrite Hconn in Ef. cbn [is_ok] in Ef.
  unfold bind at 1 in Ef. rewrite staged_send_event_run in Ef.
  unfold bind at 1 in Ef. rewrite (process_models_unknown _ _ _ _ _ Hids) in Ef.
  unfold bind at 1 in Ef. unfold get_locals at 1 in Ef.
  unfold bind at 1 in Ef. unfold Endpoint.set_final_summary at 1, modify at 1 in Ef.
  rewrite !staged_send_event_run in Ef.
  rewrite <- app_assoc in Ef.
  cbn [Endpoint.init_locals Endpoint.deployment_events Endpoint.final_summary
         Endpoint.successful Endpoint.failed Endpoint.error_message List.app] in Ef.
  subst front.
  cbn [outcome final_history final_locals yielded fst snd].
  split; [reflexivity|].
  split.
  { eexists. split; [rewrite ?app_nil_r, <- ?app_assoc; reflexivity | reflexivity]. }
  unfold Endpoint.audit_of.
  cbn [Endpoint.deployment_events Endpoint.final_summary Endpoint.successful
         Endpoint.failed Endpoint.error_message au_status au_success_count au_error_count
         List.length].
  rewrite length_map.
  unfold Endpoint.aggregate_status, Endpoint.error_count_of. cbn [truthy orb Nat.eqb].
  repeat split.
  - destruct (Endpoint.model_ids req); reflexivity.
  - destruct (Endpoint.model_ids req); reflexivity.
Qed.




Definition target_missing : exn :=
  mkExn ValueError "model_database and model_schema must be specified in config or request".

(** X18: when neither the request nor the configuration names the model
    database and schema, the run stops before it reads the blueprints or
    opens the connection: its events are the error event and the close
    event, and after the configuration read only the recording step makes
    calls.  The record has the status [failed] and one error, whatever the
    number of requested models. *)
Theorem staged_without_target_stops_early (h : history) (dc : dim_config) :
  let database := por (Endpoint.model_database req) (dc_model_database dc) in
  let schema := por (Endpoint.model_schema req) (dc_model_schema dc) in
  dimensional_models_get_all w h = Ok dc ->
  negb (truthy database) || negb (truthy schema) = true ->
  let x := Endpoint.run_endpoint w req h in
  let l := final_locals x in
  let record := Endpoint.audit_of req l in
  let read := (h ++ [config_read])%list in
  final_history x = (read ++ audit_calls w read record)%list
  /\ yielded x = [mkSse "error" (PError (exn_msg target_missing)); staged_close]
  /\ au_status record = "failed"
  /\ au_success_count record = 0
  /\ au_error_count record = 1
  /\ au_total_count record = List.length (Endpoint.model_ids req)
  /\ sm_message (au_summary record) = exn_msg target_missing.
Proof.
  cbv zeta. intros Hdc Hmissing.
  destruct (event_generator_run w req h) as (_ & Ex). cbv zeta in Ex. rewrite Ex. clear Ex.
  remember (until_close w req h Endpoint.init_locals) as front eqn:Ef.
  unfold until_close in Ef. unfold bind at 1 in Ef. unfold try_catch at 1 in Ef.
  unfold Endpoint.run_body in Ef.
  unfold bind at 1 in Ef. unfold world_call at 1 in Ef. rewrite Hdc in Ef. cbn [is_ok] in Ef.
  rewrite Hmissing in Ef. unfold raise at 1 in Ef.
  unfold bind at 1 in Ef. unfold Endpoint.set_error_message at 1, modify at 1 in Ef.
  rewrite !staged_send_event_run in Ef.
  cbn [Endpoint.init_locals Endpoint.deployment_events Endpoint.final_summary
         Endpoint.successful Endpoint.failed Endpoint.error_message List.app] in Ef.
  subst front.
  cbn [outcome final_history final_locals yielded fst snd].
  repeat split.
Qed.

End StagedEdges.

Definition plain_dimensions : dim_config :=
  mkDimConfig
    [Examples.dimension "d1" "a"; Examples.dimension "d2" "b"; Examples.dimension "d3" "c"]
    [] (Some "unified_honey") (Some "modelling").

Definition plain_sources : list source_entry :=
  [mkSourceEntry (Some "erp")
     [Examples.assets; Examples.simple "a"; Examples.simple "b"; Examples.simple "c"]].

Definition unknown_request : Endpoint.request :=
  Endpoint.mkRequest ["x"; "y"] true false None None.

Lemma staged_unknown_models_run_nothing_witness :
  Forall (unknown_model plain_dimensions) (Endpoint.model_ids unknown_request)
  /\ (let x := Endpoint.run_endpoint plain_world unknown_request [] in
      Endpoint.failed (final_locals x) = [not_found_unit "x"; not_found_unit "y"]
      /\ au_status (Endpoint.audit_of unknown_request (final_locals x)) = "failed").
Proof.
  assert (Hids : Forall (unknown_model plain_dimensions) (Endpoint.model_ids unknown_request)).
  { repeat constructor. }
  split; [exact Hids|]. cbv zeta.
  destruct (staged_unknown_models_run_nothing plain_world unknown_request [] plain_dimensions
              plain_sources eq_refl eq_refl eq_refl eq_refl eq_refl Hids)
    as (_ & _ & _ & Hfailed & Hstatus & _).
  split; [exact Hfailed | exact Hstatus].
Defined.

(** A configuration that names no model database and no schema. *)
Definition untargeted_world : World :=
  let w := plain_world in
  {| jinja := jinja w;
     metadata := metadata w;
     logs_database := logs_database w;
     logs_schema := logs_schema w;
     logs_table := logs_table w;
     config_database_name := config_database_name w;
     config_schema_name := config_schema_name w;
     lookup_blueprint := lookup_blueprint w;
     load_group_by_id := load_group_by_id w;
     dimensional_models_get_all :=
       fun _ => Ok (mkDimConfig (dc_dimensions plain_dimensions) [] None None);
     blueprints_get_all := blueprints_get_all w;
     connect := connect w;
     client_run := client_run w;
     insert_log := insert_log w;
     view_deploy := view_deploy w |}.

Definition three_known_models : Endpoint.request :=
  Endpoint.mkRequest ["d1"; "d2"; "d3"] true false None None.

Lemma staged_without_target_stops_early_witness :
  let x := Endpoint.run_endpoint untargeted_world three_known_models [] in
  let record := Endpoint.audit_of three_known_models (final_locals x) in
  au_status record = "failed" /\ au_error_count record = 1 /\ au_total_count record = 3.
Proof.
  cbv zeta.
  destruct (staged_without_target_stops_early untargeted_world three_known_models []
              (mkDimConfig (dc_dimensions plain_dimensions) [] None None) eq_refl eq_refl)
    as (_ & _ & Hstatus & _ & Herrors & Htotal & _).
  split; [exact Hstatus|]. split; [exact Herrors | exact Htotal].
Defined.


(** ** The blueprint list *)

Lemma same_source (a b : option string) :
  truthy a = true -> Listing.other_source a b = false -> b = Some (fmt a).
Proof.
  destruct a as [a|], b as [b|]; cbn [truthy Listing.other_source fmt]; try discriminate.
  intros _ H. destruct (String.eqb_spec a b) as [Hab|]; [|discriminate H].
  rewrite Hab. reflexivity.
Qed.

Section ListingFacts.
Variable source id_like : option string.

(** An id the list may show under the given id filter. *)
Definition shown_id (i : string) : Prop :=
  i <> EmptyString
  /\ (truthy id_like = true
      -> PyStr.contains (PyStr.lower i) (PyStr.lower (fmt id_like)) = true).

(** An entry the list may show under the given filters. *)
Definition shown_source (entry : string * list string) : Prop :=
  fst entry <> EmptyString
  /\ snd entry <> []
  /\ (truthy source = true -> source = Some (fst entry))
  /\ Forall shown_id (snd entry).

(** The number of ids a list shows. *)
Definition listed_count (sources : list (string * list string)) : nat :=
  List.length (concat (map snd sources)).

(** The names of the sources the loop can enter. *)
Definition source_names (objs : list source_entry) : list string :=
  flat_map (fun s => if truthy (se_source s) then [fmt (se_source s)] else []) objs.

Lemma truthy_nonempty (s : string) : truthy (Some s) = true -> s <> EmptyString.
Proof. intros H ->. discriminate H. Qed.

Lemma listed_ids_shown (bps : list blueprint) :
  forall ids, Listing.listed_ids id_like bps = Ok ids -> Forall shown_id ids.
Proof.
  induction bps as [|bp bps IH]; intros ids H; cbn [Listing.listed_ids] in H.
  - injection H as <-. constructor.
  - cbv zeta in H.
    destruct (truthy id_like) eqn:Ef.
    + destruct (Listing.id_or_name bp) as [i|] eqn:Ei; [|discriminate H].
      destruct (PyStr.contains (PyStr.lower i) (PyStr.lower (fmt id_like))) eqn:Ec;
        cbn [negb] in H.
      * destruct (Listing.listed_ids id_like bps) as [rest|e]; [|discriminate H].
        injection H as <-. cbn [truthy fmt].
        destruct (negb (i =? EmptyString)%string) eqn:Et; [|apply IH; reflexivity].
        constructor; [|apply IH; reflexivity].
        split; [apply truthy_nonempty; exact Et | intros _; exact Ec].
      * apply IH. exact H.
    + destruct (Listing.listed_ids id_like bps) as [rest|e]; [|discriminate H].
      injection H as <-.
      destruct (Listing.id_or_name bp) as [i|]; cbn [truthy fmt]; [|apply IH; reflexivity].
      destruct (negb (i =? EmptyString)%string) eqn:Et; [|apply IH; reflexivity].
      constructor; [|apply IH; reflexivity].
      split; [apply truthy_nonempty; exact Et | intros Hf; congruence].
Qed.

Lemma listed_ids_fails_under_filter (bps : list blueprint) :
  forall e, Listing.listed_ids id_like bps = Raise e -> truthy id_like = true.
Proof.
  induction bps as [|bp bps IH]; intros e H; cbn [Listing.listed_ids] in H; [discriminate H|].
  cbv zeta in H. destruct (truthy id_like); [reflexivity|].
  destruct (Listing.listed_ids id_like bps) as [rest|e0]; [discriminate H|].
  exact (IH e0 eq_refl).
Qed.

Lemma dict_set_keys (k : string) (v : list string) (d : list (string * list string))
    (k' : string) :
  In k' (map fst (Listing.dict_set k v d)) <-> k' = k \/ In k' (map fst d).
Proof.
  induction d as [|[k0 v0] d IH]; cbn [Listing.dict_set map fst In].
  - split; [intros [H|[]]; left; symmetry; exact H | intros [H|[]]; left; symmetry; exact H].
  - destruct (String.eqb_spec k0 k) as [->|Hne]; cbn [map fst In].
    + intuition congruence.
    + rewrite IH. intuition congruence.
Qed.

Lemma dict_set_nodup (k : string) (v : list string) (d : list (string * list string)) :
  NoDup (map fst d) -> NoDup (map fst (Listing.dict_set k v d)).
Proof.
  induction d as [|[k0 v0] d IH]; cbn [Listing.dict_set map fst]; intros H.
  - constructor; [intros []|constructor].
  - inversion H as [|? ? Hnot Hrest]; subst.
    destruct (String.eqb_spec k0 k) as [->|Hne]; cbn [map fst].
    + constructor; assumption.
    + constructor; [|apply IH; exact Hrest].
      rewrite dict_set_keys. intros [->|Hin]; [apply Hne; reflexivity | apply Hnot; exact Hin].
Qed.

Lemma dict_set_forall (P : string * list string -> Prop) (k : string) (v : list string)
    (d : list (string * list string)) :
  P (k, v) -> Forall P d -> Forall P (Listing.dict_set k v d).
Proof.
  intros Hk. induction d as [|[k0 v0] d IH]; cbn [Listing.dict_set]; intros H.
  - constructor; [exact Hk|constructor].
  - inversion H; subst. destruct (String.eqb k0 k).
    + constructor; assumption.
    + constructor; [assumption | apply IH; assumption].
Qed.

Lemma dict_set_count (k : string) (v : list string) (d : list (string * list string)) :
  (listed_count (Listing.dict_set k v d) <= listed_count d + List.length v)%nat
  /\ (~ In k (map fst d)
      -> listed_count (Listing.dict_set k v d) = (listed_count d + List.length v)%nat).
Proof.
  unfold listed_count.
  induction d as [|[k0 v0] d [IHle IHeq]]; cbn [Listing.dict_set map snd fst concat In].
  - rewrite app_nil_r. cbn [List.length]. split; [lia | intros _; lia].
  - destruct (String.eqb_spec k0 k) as [->|Hne]; cbn [map snd concat].
    + rewrite !length_app. split; [lia|]. intros Hnot. exfalso. apply Hnot. left. reflexivity.
    + rewrite !length_app. split; [lia|]. intros Hnot.
      rewrite IHeq; [lia|]. intros Hin. apply Hnot. right. exact Hin.
Qed.

Lemma scan_sources_sound (objs : list source_entry) :
  forall sources total out total',
    Listing.scan_sources source id_like objs sources total = Ok (out, total') ->
    NoDup (map fst sources) ->
    Forall shown_source sources ->
    (listed_count sources <= total)%nat ->
    NoDup (map fst out)
    /\ Forall shown_source out
    /\ (listed_count out <= total')%nat
    /\ (listed_count sources = total ->
        NoDup (source_names objs) ->
        (forall k, In k (map fst sources) -> ~ In k (source_names objs)) ->
        listed_count out = total').
Proof.
  induction objs as [|obj objs IH]; intros sources total out total' H Hnd Hall Hle;
    cbn [Listing.scan_sources] in H.
  - injection H as <- <-. repeat split; try assumption. intros Heq _ _. exact Heq.
  - cbv zeta in H.
    assert (Hnames : forall k, In k (source_names objs) -> In k (source_names (obj :: objs))).
    { intros k Hk. cbn [source_names flat_map]. apply in_or_app. right. exact Hk. }
    assert (Hnd_tail : NoDup (source_names (obj :: objs)) -> NoDup (source_names objs)).
    { cbn [source_names flat_map]. intros Hn.
      destruct (truthy (se_source obj)); [inversion Hn; assumption | exact Hn]. }
    destruct (truthy source && Listing.other_source (se_source obj) source) eqn:Efilter.
    { destruct (IH _ _ _ _ H Hnd Hall Hle) as (A & B & C & D).
      repeat split; try assumption. intros Heq Hn Hdis.
      apply D; [exact Heq | apply Hnd_tail; exact Hn |].
      intros k Hk Hin. exact (Hdis k Hk (Hnames k Hin)). }
    destruct (truthy (se_source obj)) eqn:Ename.
    2:{ destruct (IH _ _ _ _ H Hnd Hall Hle) as (A & B & C & D).
        repeat split; try assumption. intros Heq Hn Hdis.
        apply D; [exact Heq | apply Hnd_tail; exact Hn |].
        intros k Hk Hin. exact (Hdis k Hk (Hnames k Hin)). }
    destruct (Listing.listed_ids id_like (se_blueprints obj)) as [ids|e] eqn:Eids;
      [|discriminate H].
    pose proof (listed_ids_shown _ _ Eids) as Hshown.
    destruct ids as [|i ids].
    { cbn [List.length] in H. rewrite Nat.add_0_r in H.
      destruct (IH _ _ _ _ H Hnd Hall Hle) as (A & B & C & D).
      repeat split; try assumption. intros Heq Hn Hdis.
      apply D; [exact Heq | apply Hnd_tail; exact Hn |].
      intros k Hk Hin. exact (Hdis k Hk (Hnames k Hin)). }
    assert (Hentry : shown_source (fmt (se_source obj), i :: ids)).
    { unfold shown_source. cbn [fst snd]. split.
      { destruct (se_source obj) as [s|]; [|discriminate Ename].
        apply truthy_nonempty. exact Ename. }
      split; [discriminate|]. split; [|exact Hshown].
      intros Hs. rewrite Hs in Efilter. cbn [andb] in Efilter.
      exact (same_source _ _ Ename Efilter). }
    remember (fmt (se_source obj)) as k eqn:Ek.
    destruct (dict_set_count k (i :: ids) sources) as (Hcle & Hceq).
    destruct (IH _ _ _ _ H (dict_set_nodup k (i :: ids) sources Hnd)
                (dict_set_forall shown_source k (i :: ids) sources Hentry Hall)
                ltac:(lia)) as (A & B & C & D).
    repeat split; try assumption. intros Heq Hn Hdis.
    assert (Hk : In k (source_names (obj :: objs))).
    { cbn [source_names flat_map]. rewrite Ename. left. symmetry. exact Ek. }
    assert (Hfresh : ~ In k (map fst sources)).
    { intros Hin. exact (Hdis k Hin Hk). }
    assert (Hn' : ~ In k (source_names objs) /\ NoDup (source_names objs)).
    { cbn [source_names flat_map] in Hn. rewrite Ename in Hn. cbn [List.app] in Hn.
      rewrite <- Ek in Hn. inversion Hn; subst. split; assumption. }
    apply D; [rewrite (Hceq Hfresh); lia | apply Hn' |].
    intros k' Hin'. rewrite dict_set_keys in Hin'. destruct Hin' as [->|Hin'].
    + apply Hn'.
    + intros Hin''. exact (Hdis k' Hin' (Hnames k' Hin'')).
Qed.

Lemma scan_sources_fails_under_filter (objs : list source_entry) (e : exn) :
  forall sources total,
    Listing.scan_sources source id_like objs sources total = Raise e ->
    truthy id_like = true.
Proof.
  induction objs as [|obj objs IH]; intros sources total H; cbn [Listing.scan_sources] in H;
    [discriminate H|].
  cbv zeta in H.
  destruct (truthy source && Listing.other_source (se_source obj) source);
    [exact (IH _ _ H)|].
  destruct (truthy (se_source obj)); [|exact (IH _ _ H)].
  destruct (Listing.listed_ids id_like (se_blueprints obj)) as [ids|e0] eqn:Eids.
  - destruct ids; exact (IH _ _ H).
  - exact (listed_ids_fails_under_filter _ _ Eids).
Qed.

End ListingFacts.

(** X19: once the configuration is read, the list makes no other call and
    always answers.  A response names every source once; each source it
    names has a name that is not empty, is the requested one when a source
    filter is given, and shows at least one id; every id shown is not empty
    and contains the id filter, letter case aside.  The number of blueprints
    in the message is at least the number of ids shown, and equal to it when
    the sources of the configuration have different names.  The list fails
    (status 500) only under an id filter. *)
Theorem blueprint_list_respects_filters (w : World) (source id_like : option string)
    (config : list source_entry) (h : history) :
  blueprints_get_all w h = Ok config ->
  let x := Listing.list_blueprints w source id_like h tt in
  final_history x = (h ++ [mkEntry (CConfig "blueprints.get_all") true])%list
  /\ yielded x = []
  /\ exists a,
       outcome x = Ok a
       /\ match a with
          | Listing.BlueprintListResponse message sources =>
              NoDup (map fst sources)
              /\ Forall (shown_source source id_like) sources
              /\ exists total,
                   message = Listing.found_message total (List.length sources)
                   /\ (listed_count sources <= total)%nat
                   /\ (NoDup (source_names config) -> listed_count sources = total)
          | Listing.HTTPException status_code _ =>
              status_code = 500 /\ truthy id_like = true
          end.
Proof.
  intros Hconfig. cbv zeta.
  remember (Listing.list_blueprints w source id_like h tt) as x eqn:Ex.
  unfold Listing.list_blueprints in Ex. unfold try_catch in Ex. unfold bind at 1 in Ex.
  unfold world_call at 1 in Ex. rewrite Hconfig in Ex. cbn [is_ok] in Ex.
  unfold bind at 1 in Ex.
  destruct (Listing.scan_sources source id_like config [] 0) as [[sources total]|e] eqn:Es;
    cbn [lift_result] in Ex; unfold ret, raise in Ex; subst x;
    cbn [outcome final_history yielded fst snd List.app].
  - split; [reflexivity|]. split; [reflexivity|]. eexists. split; [reflexivity|].
    destruct (scan_sources_sound source id_like config [] 0 sources total Es)
      as (A & B & C & D); [constructor | constructor | unfold listed_count; cbn; lia |].
    split; [exact A|]. split; [exact B|]. exists total.
    split; [reflexivity|]. split; [exact C|]. intros Hn.
    apply D; [reflexivity | exact Hn | intros k []].
  - split; [reflexivity|]. split; [reflexivity|]. eexists. split; [reflexivity|].
    split; [reflexivity|]. exact (scan_sources_fails_under_filter _ _ _ _ _ _ Es).
Qed.

Lemma blueprint_list_respects_filters_witness :
  exists a,
    outcome (Listing.list_blueprints plain_world (Some "erp") (Some "A") [] tt) = Ok a
    /\ match a with
       | Listing.BlueprintListResponse _ sources =>
           Forall (shown_source (Some "erp") (Some "A")) sources
       | Listing.HTTPException status_code _ => status_code = 500
       end.
Proof.
  destruct (blueprint_list_respects_filters plain_world (Some "erp") (Some "A") plain_sources
              [] eq_refl) as (_ & _ & a & Ha & Hshape).
  exists a. split; [exact Ha|].
  destruct a as [message sources|status_code detail].
  - exact (proj1 (proj2 Hshape)).
  - exact (proj1 Hshape).
Defined.

(** ** The deployment summary *)

Module SummaryFacts.
Import DeploymentSummary.

(** What the lists hold after any number of blueprints. *)
Definition balanced (c : collected) : Prop :=
  List.length (streams c) = List.length (staging_views c)
  /\ List.length (tasks c) = List.length (staging_views c)
  /\ List.length (blueprint_info_for_seed c) = List.length (staging_views c)
  /\ (List.length (edges c) + List.length (attributes c) <= List.length (nodes c))%nat
  /\ (List.length (attributes c) <= List.length (staging_views c))%nat
  /\ (staging_views c = [] -> nodes c = []).

Lemma edge_items_length (primary blueprint_id : string) (source : option string)
    (secondary_nodes : list raw_node) :
  List.length (edge_items primary blueprint_id source secondary_nodes)
  = List.length (secondary_node_items blueprint_id source secondary_nodes).
Proof.
  unfold edge_items, secondary_node_items.
  induction secondary_nodes as [|n ns IH]; cbn [flat_map]; [reflexivity|].
  rewrite !length_app, IH. destruct (Utilities.truthy_node n); reflexivity.
Qed.

Lemma snoc_not_nil {A} (l : list A) (x : A) : (l ++ [x])%list <> [].
Proof. destruct l; discriminate. Qed.

Lemma collect_one_balanced (c c' : collected) (u : Utilities.bp_info) :
  balanced c -> collect_one c u = Ok c' -> balanced c'.
Proof.
  unfold balanced, collect_one. intros (Hs & Ht & Hd & He & Ha & Hn) H. cbv zeta in H.
  destruct (Utilities.binding_object_of (Utilities.bi_blueprint u)) as [bo|].
  2:{ injection H as <-. repeat split; assumption. }
  destruct (Utilities.truthy_node (bp_primary_node (Utilities.bi_blueprint u))) as [p|].
  - destruct (Summary.source_upper (Utilities.bi_source u)) as [src|e]; [|discriminate H].
    injection H as <-.
    cbn [streams tasks staging_views nodes edges attributes blueprint_info_for_seed].
    rewrite !length_app. cbn [List.length]. rewrite edge_items_length.
    repeat split; try lia. intros Hnil. exfalso. exact (snoc_not_nil _ _ Hnil).
  - injection H as <-.
    cbn [streams tasks staging_views nodes edges attributes blueprint_info_for_seed].
    rewrite !length_app. cbn [List.length].
    repeat split; try lia. intros Hnil. exfalso. exact (snoc_not_nil _ _ Hnil).
Qed.

Lemma collect_balanced (found_blueprints : list Utilities.bp_info) :
  forall c c', balanced c -> collect c found_blueprints = Ok c' -> balanced c'.
Proof.
  induction found_blueprints as [|u rest IH]; intros c c' Hc H; cbn [collect] in H.
  - injection H as <-. exact Hc.
  - destruct (collect_one c u) as [c1|e] eqn:E1; [|discriminate H].
    exact (IH _ _ (collect_one_balanced _ _ _ Hc E1) H).
Qed.

Lemma balanced_nothing : balanced nothing.
Proof. unfold balanced, nothing. cbn. repeat split; try lia. Qed.

Lemma sum_counts_app (a b : list tally) :
  sum_counts (a ++ b) = (sum_counts a + sum_counts b)%nat.
Proof.
  unfold sum_counts. induction a as [|t a IH]; cbn [List.app fold_right]; [reflexivity|].
  rewrite IH. lia.
Qed.

Lemma sum_tally_of (name : string) (items : list item) :
  sum_counts (tally_of name items) = List.length items.
Proof. destruct items; cbn; [reflexivity | lia]. Qed.

Lemma sum_tallies (prefix model_type : string) (c : collected) :
  sum_counts (tallies prefix model_type c)
  = (List.length (nodes c) + List.length (edges c) + List.length (attributes c) + 1)%nat.
Proof.
  unfold tallies. rewrite !sum_counts_app, !sum_tally_of. cbn. lia.
Qed.

End SummaryFacts.

(** X20: the counts of a deployment summary agree with each other.  A summary
    that is returned shows at least one stage view; it counts one stream, one
    task and one seed-load entry per stage view, so that the data-processing
    count is twice the staging count; it shows at most one attribute table
    per stage view, and at least as many node tables as edge tables and
    attribute tables together.  Its tag count is the number of node, edge
    and attribute tables plus one for the model view, whichever of the three
    lists are empty; its grant count is the same number when the model has
    roles and zero otherwise. *)
Theorem summary_counts_agree (sources : list source_entry) (model_type : string)
    (mc : model_config) (s : DeploymentSummary.model_summary) :
  DeploymentSummary.summarize_model sources model_type mc = Ok s ->
  let staging := DeploymentSummary.ms_staging_count s in
  let key_storage := DeploymentSummary.ms_key_storage_count s in
  let relationships := DeploymentSummary.ms_build_relationships_count s in
  let data_storage := DeploymentSummary.ms_data_storage_count s in
  (1 <= staging)%nat
  /\ staging = List.length (DeploymentSummary.ms_staging s)
  /\ List.length (DeploymentSummary.ms_streams s) = staging
  /\ List.length (DeploymentSummary.ms_tasks s) = staging
  /\ List.length (DeploymentSummary.ms_seed_load s) = staging
  /\ DeploymentSummary.ms_data_processing_count s = (2 * staging)%nat
  /\ (data_storage <= staging)%nat
  /\ (relationships + data_storage <= key_storage)%nat
  /\ DeploymentSummary.ms_apply_tags_count s
     = (key_storage + relationships + data_storage + 1)%nat
  /\ DeploymentSummary.ms_apply_grants_count s
     = match mc_roles mc with
       | [] => 0
       | _ => (key_storage + relationships + data_storage + 1)%nat
       end.
Proof.
  unfold DeploymentSummary.summarize_model. cbv zeta. intros H.
  destruct (Endpoint.blueprint_keys mc) as [|k ks]; [discriminate H|].
  destruct (Endpoint.blueprints_to_deploy (k :: ks) sources) as [|u us]; [discriminate H|].
  destruct (DeploymentSummary.collect DeploymentSummary.nothing (u :: us)) as [c|e] eqn:Ec;
    [|discriminate H].
  destruct (SummaryFacts.collect_balanced _ _ _ SummaryFacts.balanced_nothing Ec)
    as (Hs & Ht & Hd & He & Ha & Hn).
  assert (Hviews : (1 <= List.length (DeploymentSummary.staging_views c))%nat
                   /\ exists view, DeploymentSummary.view_name model_type mc = Ok view
                        /\ s = DeploymentSummary.mkModelSummary (get (mc_id mc)) model_type
                             (DeploymentSummary.staging_views c)
                             (List.length (DeploymentSummary.staging_views c))
                             (DeploymentSummary.streams c) (DeploymentSummary.tasks c)
                             (List.length (DeploymentSummary.streams c)
                                + List.length (DeploymentSummary.tasks c))
                             (DeploymentSummary.nodes c)
                             (List.length (DeploymentSummary.nodes c))
                             (DeploymentSummary.edges c)
                             (List.length (DeploymentSummary.edges c))
                             (DeploymentSummary.attributes c)
                             (List.length (DeploymentSummary.attributes c))
                             [] 0 view (DeploymentSummary.blueprint_info_for_seed c)
                             (DeploymentSummary.tallies "Tag " model_type c)
                             (DeploymentSummary.sum_counts
                                (DeploymentSummary.tallies "Tag " model_type c))
                             match mc_roles mc with
                             | [] => []
                             | _ => DeploymentSummary.tallies "Grant access to " model_type c
                             end
                             (DeploymentSummary.sum_counts
                                match mc_roles mc with
                                | [] => []
                                | _ =>
                                    DeploymentSummary.tallies "Grant access to " model_type c
                                end)).
  { destruct (DeploymentSummary.staging_views c) as [|v vs] eqn:Ev.
    - rewrite (Hn eq_refl) in H. discriminate H.
    - split; [cbn [List.length]; lia|].
      destruct (DeploymentSummary.view_name model_type mc) as [view|e];
        [|destruct (DeploymentSummary.nodes c); discriminate H].
      exists view. split; [reflexivity|].
      destruct (DeploymentSummary.nodes c); injection H as <-; reflexivity. }
  destruct Hviews as (Hone & view & _ & ->).
  cbn [DeploymentSummary.ms_staging_count DeploymentSummary.ms_key_storage_count
         DeploymentSummary.ms_build_relationships_count
         DeploymentSummary.ms_data_storage_count DeploymentSummary.ms_staging
         DeploymentSummary.ms_streams DeploymentSummary.ms_tasks
         DeploymentSummary.ms_seed_load DeploymentSummary.ms_data_processing_count
         DeploymentSummary.ms_apply_tags_count DeploymentSummary.ms_apply_grants_count].
  rewrite SummaryFacts.sum_tallies.
  repeat split; try lia.
  destruct (mc_roles mc); [reflexivity | apply SummaryFacts.sum_tallies].
Qed.

Lemma summary_counts_agree_witness :
  exists s,
    DeploymentSummary.summarize_model plain_sources "dimension" (Examples.dimension "d1" "a")
    = Ok s
    /\ DeploymentSummary.ms_data_processing_count s
       = (2 * DeploymentSummary.ms_staging_count s)%nat
    /\ DeploymentSummary.ms_apply_tags_count s
       = (DeploymentSummary.ms_key_storage_count s
            + DeploymentSummary.ms_build_relationships_count s
            + DeploymentSummary.ms_data_storage_count s + 1)%nat.
Proof.
  destruct (DeploymentSummary.summarize_model plain_sources "dimension"
              (Examples.dimension "d1" "a")) as [s|e] eqn:E;
    [|vm_compute in E; discriminate E].
  exists s. split; [reflexivity|].
  destruct (summary_counts_agree plain_sources "dimension" (Examples.dimension "d1" "a") s E)
    as (_ & _ & _ & _ & _ & Hdp & _ & _ & Htags & _).
  split; [exact Hdp | exact Htags].
Defined.
